(** * SeQUeNCe topology construction pipeline

    A shallow embedding of [sequence/topology/topology.py],
    [sequence/topology/network_impls.py] and
    [sequence/topology/const_topo.py], followed by the properties of the
    pipeline that the specification states.

    Conventions of the embedding.
    - Python numbers (ints and floats read from JSON/YAML) are the
      rationals [Q] that they denote; [x // 2] is [Qfloor (x / 2)], which
      agrees with Python on ints and on finite floats. Where the pipeline
      divides floats and takes their mean, in the derivation of the
      classical delay, the operations are those of an [arithmetic], which
      round as Python and numpy do; [binary64] is the one to run with.
    - A dict whose iteration order the code relies on is an association
      list in insertion order; a dict that is only looked up is a [gmap].
    - A method that mutates [self] or [config] and may raise is a function
      in the state-and-exception monad [M]: the state reached when the
      exception is raised is kept, as the mutated Python objects are.
    - An object reference to a node is the node's name: the timeline keeps
      entities by name and names are unique in it. *)

From Stdlib Require Import QArith Qround Qabs Lqa DecimalString.
From stdpp Require Import gmap strings list.

Local Open Scope string_scope.
Local Open Scope list_scope.
Local Open Scope stdpp_scope.

(** ** const_topo.py *)

Module const_topo.

Inductive NodeType :=
| QUANTUM_ROUTER | DQC_NODE | BSM_NODE | QKD_NODE | ORCHESTRATOR | CLIENT.

Definition value (t : NodeType) : string :=
  match t with
  | QUANTUM_ROUTER => "QuantumRouter"
  | DQC_NODE => "DQCNode"
  | BSM_NODE => "BSMNode"
  | QKD_NODE => "QKDNode"
  | ORCHESTRATOR => "QlanOrchestratorNode"
  | CLIENT => "QlanClientNode"
  end.

Definition all_NodeType : list NodeType :=
  [QUANTUM_ROUTER; DQC_NODE; BSM_NODE; QKD_NODE; ORCHESTRATOR; CLIENT].

(** [NodeType(s)]: the member whose value is [s], if any. *)
Definition NodeType_of (s : string) : option NodeType :=
  List.find (fun t => bool_decide (value t = s)) all_NodeType.

Definition MIDPOINT_NODE_TYPES (t : NodeType) : bool :=
  match t with BSM_NODE => true | _ => false end.

Definition ENDPOINT_NODE_TYPES (t : NodeType) : bool :=
  match t with
  | QUANTUM_ROUTER | DQC_NODE | QKD_NODE | ORCHESTRATOR | CLIENT => true
  | BSM_NODE => false
  end.

Definition BSM_NODE_str : string := "BSMNode".
Definition MEET_IN_THE_MID : string := "meet_in_the_middle".
Definition MEMO_ARRAY_SIZE : string := "memo_size".
Definition DATA_MEMO_ARRAY_SIZE : string := "data_memo_size".
Definition ORCHESTRATOR_str : string := "QlanOrchestratorNode".
Definition CLIENT_str : string := "QlanClientNode".

End const_topo.
Import const_topo.

(** ** The configuration mapping

    One record per kind of declaration; a key the code reads with
    [d[KEY]] is a plain field, a key it reads with [d.get(KEY, default)]
    is an [option]. *)

(** A template: component kind -> parameter name -> value. *)
Abbreviation template := (gmap string (gmap string Q)).

Record node_decl := {
  nd_name : string;
  nd_type : string;
  nd_seed : Z;
  nd_template : option string;
  nd_memo_size : option Z;
  nd_data_memo_size : option Z;
}.

Record qconnection := {
  qcn_node1 : string;
  qcn_node2 : string;
  qcn_attenuation : Q;
  qcn_distance : Q;
  qcn_type : string;
  qcn_seed : option Z;
  qcn_template : option string;
}.

Record cconnection := {
  ccn_node1 : string;
  ccn_node2 : string;
  ccn_distance : option Q;
  ccn_delay : option Q;
}.

Record qchannel_decl := {
  qch_name : option string;
  qch_source : string;
  qch_destination : string;
  qch_distance : Q;
  qch_attenuation : Q;
}.

Record cchannel_decl := {
  cch_name : option string;
  cch_source : string;
  cch_destination : string;
  cch_distance : option Q;
  cch_delay : option Q;
}.

(** The flat (legacy) QLAN hardware keys, [memo_*_orch] and
    [memo_*_client]. *)
Record flat_memo := {
  memo_fidelity : option Q;
  memo_frequency : option Q;
  memo_efficiency : option Q;
  memo_coherence : option Q;
  memo_wavelength : option Q;
}.

Definition no_flat_memo : flat_memo :=
  {| memo_fidelity := None; memo_frequency := None; memo_efficiency := None;
     memo_coherence := None; memo_wavelength := None |}.

Record config := {
  cfg_nodes : list node_decl;                     (* "nodes" *)
  cfg_qconnections : list qconnection;            (* "qconnections", [] if absent *)
  cfg_cconnections : list cconnection;            (* "cconnections", [] if absent *)
  cfg_qchannels : option (list qchannel_decl);    (* "qchannels", may be absent *)
  cfg_cchannels : list cchannel_decl;             (* "cchannels", [] if absent *)
  cfg_templates : gmap string template;           (* "templates", {} if absent *)
  cfg_local_memories : option Z;
  cfg_client_number : option Z;
  cfg_measurement_bases : option string;
  cfg_memo_orch : flat_memo;
  cfg_memo_client : flat_memo;
}.

Definition set_cfg_nodes (f : list node_decl -> list node_decl) (c : config) : config :=
  {| cfg_nodes := f (cfg_nodes c);
     cfg_qconnections := cfg_qconnections c;
     cfg_cconnections := cfg_cconnections c;
     cfg_qchannels := cfg_qchannels c;
     cfg_cchannels := cfg_cchannels c;
     cfg_templates := cfg_templates c;
     cfg_local_memories := cfg_local_memories c;
     cfg_client_number := cfg_client_number c;
     cfg_measurement_bases := cfg_measurement_bases c;
     cfg_memo_orch := cfg_memo_orch c;
     cfg_memo_client := cfg_memo_client c |}.

Definition set_cfg_qchannels
    (f : option (list qchannel_decl) -> option (list qchannel_decl)) (c : config) : config :=
  {| cfg_nodes := cfg_nodes c;
     cfg_qconnections := cfg_qconnections c;
     cfg_cconnections := cfg_cconnections c;
     cfg_qchannels := f (cfg_qchannels c);
     cfg_cchannels := cfg_cchannels c;
     cfg_templates := cfg_templates c;
     cfg_local_memories := cfg_local_memories c;
     cfg_client_number := cfg_client_number c;
     cfg_measurement_bases := cfg_measurement_bases c;
     cfg_memo_orch := cfg_memo_orch c;
     cfg_memo_client := cfg_memo_client c |}.

Definition set_cfg_cchannels
    (f : list cchannel_decl -> list cchannel_decl) (c : config) : config :=
  {| cfg_nodes := cfg_nodes c;
     cfg_qconnections := cfg_qconnections c;
     cfg_cconnections := cfg_cconnections c;
     cfg_qchannels := cfg_qchannels c;
     cfg_cchannels := f (cfg_cchannels c);
     cfg_templates := cfg_templates c;
     cfg_local_memories := cfg_local_memories c;
     cfg_client_number := cfg_client_number c;
     cfg_measurement_bases := cfg_measurement_bases c;
     cfg_memo_orch := cfg_memo_orch c;
     cfg_memo_client := cfg_memo_client c |}.

(** ** Exceptions and the state-and-exception monad *)

Inductive exn :=
| AssertionError (q_connect : qconnection)     (* assert 0, q_connect *)
| NotImplementedError (msg : string)
| ValueError (msg : string)
| ValueError_NodeType (value : string)         (* NodeType(value) on a non-member *)
| ValueError_unpack (expected got : nat)       (* a, b = xs  with  len(xs) <> 2 *)
| KeyError (key : string)
| IndexError
| AttributeError (attr : string)
| AssertionError_exists (nm : string)          (* the timeline refuses a taken name *)
| ValueError_local_memories (num_local_memories : Z) (remote_memories : nat)
                                               (* the orchestrator's constructor *)
| NodeNotFound (node : string)                 (* networkx.NodeNotFound *)
| NetworkXNoPath.                              (* networkx.exception.NetworkXNoPath *)

Inductive outcome (A : Type) :=
| Return (a : A)
| Raise (e : exn).
Arguments Return {A} a.
Arguments Raise {A} e.

Definition M (S A : Type) : Type := S -> outcome A * S.

Definition ret {S A} (a : A) : M S A := fun s => (Return a, s).
Definition raise {S A} (e : exn) : M S A := fun s => (Raise e, s).
Definition bind {S A B} (m : M S A) (k : A -> M S B) : M S B :=
  fun s => match m s with
           | (Return a, s') => k a s'
           | (Raise e, s') => (Raise e, s')
           end.
Definition get {S} : M S S := fun s => (Return s, s).
Definition modify {S} (f : S -> S) : M S unit := fun s => (Return tt, f s).

Notation "'do' x <- m ; k" := (bind m (fun x => k))
  (at level 10, x name, m at level 100, k at level 200).
Notation "m >> k" := (bind m (fun _ => k))
  (at level 100, k at level 200, right associativity).

(** [for x in l: body(x)] *)
Fixpoint for_each {S B} (l : list B) (body : B -> M S unit) : M S unit :=
  match l with
  | [] => ret tt
  | x :: l' => body x >> for_each l' body
  end.

(** [try: m  except e: handler] for the one exception [catch] names. *)
Definition try_except {S} (m : M S unit) (catch : exn -> bool) : M S unit :=
  fun s => match m s with
           | (Raise e, s') => if catch e then (Return tt, s') else (Raise e, s')
           | r => r
           end.

(** ** Double-precision arithmetic *)

(** The numbers that [topology.py] takes from outside: the constant
    [sequence.constants.SPEED_OF_LIGHT], a positive float of a module that
    is not part of the sources read here, Python's division of floats
    [x / y] and numpy's [np.mean(xs)]. A float is the rational that it
    denotes; the two operations round their exact result to a float. *)
Record arithmetic := {
  SPEED_OF_LIGHT : Q;
  truediv : Q -> Q -> Q;
  np_mean : list Q -> Q
}.

(** Rounding to the nearest integer, ties to even. *)
Definition round_half_even (x : Q) : Z :=
  let f := Qfloor x in
  match (x - inject_Z f ?= 1 # 2)%Q with
  | Lt => f
  | Gt => (f + 1)%Z
  | Eq => if Z.even f then f else (f + 1)%Z
  end.

(** [round64 x] is the binary64 number nearest to [x], ties to even, for
    [x] within the range of the finite doubles: with [e] the exponent of
    [x], not below that of the subnormal numbers, [x] is rounded to a
    multiple of [2 ^ (e - 52)]. *)
Definition round64 (x : Q) : Q :=
  match Qnum x with
  | Z0 => 0%Q
  | _ =>
      let a := Qabs x in
      let e0 := (Z.log2 (Qnum a) - Z.log2 (Zpos (Qden a)))%Z in
      let e := if Qle_bool (Qpower 2 e0) a then e0 else (e0 - 1)%Z in
      let e := Z.max e (-1022) in
      let ulp := Qpower 2 (e - 52) in
      let r := Qred (inject_Z (round_half_even (a / ulp)) * ulp)%Q in
      if Qle_bool 0 x then r else (- r)%Q
  end.

(** The quotient of two floats, and the mean of floats as numpy computes
    it for fewer than eight numbers: added from left to right, the sum
    divided by the count. *)
Definition div64 (x y : Q) : Q := round64 (x / y).
Definition mean64 (xs : list Q) : Q :=
  div64 (fold_left (fun s x => round64 (s + x)) xs 0%Q) (inject_Z (Z.of_nat (length xs))).

(** The float that the literal [2e-4] denotes. *)
Definition float_2e_4 : Q := round64 (2 # 10000).

(** Binary64 arithmetic with the constant [2e-4] (metres per picosecond). *)
Definition binary64 : arithmetic :=
  {| SPEED_OF_LIGHT := float_2e_4; truediv := div64; np_mean := mean64 |}.

(** ** topology.py: the connection expander *)

Section Expander.

Variable ar : arithmetic.

(** [cc.get(DELAY, cc.get(DISTANCE, 1000) / SPEED_OF_LIGHT)] *)
Definition cc_get_delay (delay distance : option Q) : Q :=
  default (truediv ar (default 1000%Q distance) (SPEED_OF_LIGHT ar)) delay.

(** The inner loop of [_add_qconnections] over one section, whose
    declarations name their ends by [src_key] and [dst_key]. *)
Definition scan_section {D} (src_key dst_key : D -> string)
    (delay distance : D -> option Q)
    (endpoints : gset string) (section : list D) (cc_delay : list Q) : list Q :=
  fold_left
    (fun acc cc =>
       if decide (({[ src_key cc; dst_key cc ]} : gset string) = endpoints)
       then acc ++ [cc_get_delay (delay cc) (distance cc)]
       else acc)
    section cc_delay.

(** The list [cc_delay] that [_add_qconnections] has collected for
    [q_connect] when both sections have been scanned. *)
Definition collect_cc_delay (q_connect : qconnection) (c : config) : list Q :=
  let endpoints : gset string := {[ qcn_node1 q_connect; qcn_node2 q_connect ]} in
  let cc_delay := [] in
  let cc_delay :=
    scan_section cch_source cch_destination cch_delay cch_distance
                 endpoints (cfg_cchannels c) cc_delay in
  scan_section ccn_node1 ccn_node2 ccn_delay ccn_distance
               endpoints (cfg_cconnections c) cc_delay.

(** [int(np.mean(cc_delay) // 2)]: for a finite float [m], [m // 2] is
    the floor of the half, which is a float and is computed without
    rounding, and [int] of it is that integer. *)
Definition halved_mean (cc_delay : list Q) : Z :=
  Qfloor (np_mean ar cc_delay / 2).

End Expander.

(** [f"BSM.{node1}.{node2}.auto"] *)
Definition bsm_name_of (node1 node2 : string) : string :=
  "BSM." +:+ node1 +:+ "." +:+ node2 +:+ ".auto".


(** ** Objects of the topology

    Node classes, the timeline, the channel classes and the routing
    protocols live in modules that are not part of the sources read here
    ([sequence.topology.node], [sequence.kernel.timeline],
    [sequence.components.optical_channel], [sequence.network_management]).
    An object is modelled by the arguments it was constructed with and by
    the attributes that the pipeline reads or writes. *)

(** [d[k] = v] on a dict kept in insertion order: a key that is there
    keeps its place. *)
Fixpoint dict_set {K V} `{EqDecision K} (k : K) (v : V) (d : list (K * V))
  : list (K * V) :=
  match d with
  | [] => [(k, v)]
  | (k', v') :: d' =>
      if decide (k' = k) then (k', v) :: d' else (k', v') :: dict_set k v d'
  end.

(** [d[k]] *)
Fixpoint dict_get {K V} `{EqDecision K} (k : K) (d : list (K * V)) : option V :=
  match d with
  | [] => None
  | (k', v) :: d' => if decide (k' = k) then Some v else dict_get k d'
  end.

(** An element of a [costs] entry, the Python list
    [[router_k, ..., router_1, distance]]. *)
Inductive cost_item :=
| Name (s : string)
| Num (q : Q).

(** The routing protocol that [network_manager.get_routing_protocol()]
    returns: [add_forwarding_rule] writes the forwarding table of a static
    protocol, the forwarding-table generator writes [link_cost] of a
    distributed one. *)
Inductive routing_protocol :=
| StaticRoutingProtocol (forwarding_table : gmap string string)
| DistributedRoutingProtocol (link_cost : gmap string cost_item)
                             (initialised : bool).

(** A node class as the pipeline sees it: its name and the routing
    protocol a fresh instance reports ([None]: no network manager). *)
Record node_class := {
  cls_name : string;
  cls_routing : option routing_protocol;
}.

Record memo_params := {
  fidelity : Q;
  frequency : Q;
  efficiency : Q;
  coherence_time : Q;
  wavelength : Q;
}.

(** How a node object was constructed. *)
Inductive construction :=
| BSMNode (others : list string) (component_templates : template)
| FromNodeTypes (cls : node_class) (kwargs : list (string * Z))
                (component_templates : template)
| QlanClientNode (num_local_memories : Z) (memo : memo_params)
| QlanOrchestratorNode (num_local_memories : Z) (remote_memories : list string)
                       (memo : memo_params).

Record node := {
  name : string;
  built : construction;
  seed : option Z;                               (* set_seed *)
  bases : option string;                         (* update_bases *)
  map_to_middle_node : list (string * string);   (* a dict: router name -> midpoint *)
  network_manager : option routing_protocol;
}.

Definition with_seed (s : Z) (n : node) : node :=
  {| name := name n; built := built n; seed := Some s; bases := bases n;
     map_to_middle_node := map_to_middle_node n;
     network_manager := network_manager n |}.

Definition with_bases (b : string) (n : node) : node :=
  {| name := name n; built := built n; seed := seed n; bases := Some b;
     map_to_middle_node := map_to_middle_node n;
     network_manager := network_manager n |}.

Definition with_routing (r : routing_protocol) (n : node) : node :=
  {| name := name n; built := built n; seed := seed n; bases := bases n;
     map_to_middle_node := map_to_middle_node n;
     network_manager := Some r |}.

(** [node.add_bsm_node(bsm_name, router_name)], that is
    [map_to_middle_node[router_name] = bsm_name]: a midpoint recorded
    earlier under the same router is replaced. *)
Definition add_bsm_node (bsm_name router_name : string) (n : node) : node :=
  {| name := name n; built := built n; seed := seed n; bases := bases n;
     map_to_middle_node := dict_set router_name bsm_name (map_to_middle_node n);
     network_manager := network_manager n |}.

Definition new_node (nm : string) (b : construction)
    (r : option routing_protocol) : node :=
  {| name := nm; built := b; seed := None; bases := None;
     map_to_middle_node := []; network_manager := r |}.

Record QuantumChannel := {
  qc_name : string;
  qc_attenuation : Q;
  qc_distance : Q;
  qc_sender : string;        (* the node object given to set_ends *)
  qc_receiver : string;      (* the destination name given to set_ends *)
}.

Record ClassicalChannel := {
  cc_name : string;
  cc_distance : Q;
  cc_delay : Q;
  cc_sender : string;
  cc_receiver : string;
}.

(** [Topology.nodes], a [defaultdict(list)] from type string to the node
    objects of that type, in insertion order. The node objects it holds
    are entities of the timeline. *)
Abbreviation registry := (list (string * list node)).

(** [nodes[node_type].append(node_obj)] *)
Fixpoint registry_append (node_type : string) (n : node) (reg : registry) : registry :=
  match reg with
  | [] => [(node_type, [n])]
  | (t, l) :: reg' =>
      if decide (t = node_type) then (t, l ++ [n]) :: reg'
      else (t, l) :: registry_append node_type n reg'
  end.

Definition all_nodes (reg : registry) : list node := flat_map snd reg.

(** What [Timeline.get_entity_by_name] returns: a node object, or an
    entity of another class (a channel, a component that a node owns), of
    which the pipeline can use nothing but the name. *)
Inductive entity :=
| NodeEntity (n : node)
| OtherEntity (nm : string).

(** Modelled from the spec: the timeline, whose module is missing from the
    sources. It keeps every entity under its name, in one namespace in
    which a name is unique, and resolves entities by name. Its node
    entities are the node objects of [nodes]; [tl] lists the names of its
    other entities. *)
Definition get_entity_by_name (reg : registry) (tl : list string) (nm : string)
  : option entity :=
  match List.find (fun n => bool_decide (name n = nm)) (all_nodes reg) with
  | Some n => Some (NodeEntity n)
  | None => if bool_decide (nm ∈ tl) then Some (OtherEntity nm) else None
  end.

(** [f(obj)] for the registered node called [nm]: the object is updated in
    place. *)
Definition update_entity (nm : string) (f : node -> node) (reg : registry) : registry :=
  map (fun '(t, l) => (t, map (fun n => if decide (name n = nm) then f n else n) l)) reg.

Record qlan_parameters := {
  n_local_memories : Z;
  n_clients : Z;
  meas_bases : string;
  memo_orch : memo_params;
  memo_client : memo_params;
}.

(** The attributes of the implementor object ([BsmNetworkImpl] keeps
    [_node_kwargs], [QlanNetworkImpl] the others). *)
Record impl_state := {
  _node_kwargs : gmap string (list (string * Z));
  impl_n_local_memories : Z;
  impl_meas_bases : string;
  _remote_memories : list string;
  orchestrator_nodes : list string;
  client_nodes : list string;
  remote_memories_array : list string;
}.

Definition impl_init : impl_state :=
  {| _node_kwargs := ∅; impl_n_local_memories := 1; impl_meas_bases := "z";
     _remote_memories := []; orchestrator_nodes := [];
     client_nodes := []; remote_memories_array := [] |}.

(** The state of a [Topology] instance together with the config it is
    building from. *)
Record topology := {
  raw_cfg : config;
  bsm_to_router_map : list (string * list string);
  nodes : registry;
  qchannels : list QuantumChannel;
  cchannels : list ClassicalChannel;
  templates : gmap string template;
  qlan : option qlan_parameters;
  impl_attrs : impl_state;
  tl_others : list string;   (* [tl]: the names of the entities that are no node objects *)
}.

(** [Topology._setup] *)
Definition _setup (c : config) : topology :=
  {| raw_cfg := c; bsm_to_router_map := []; nodes := []; qchannels := [];
     cchannels := []; templates := ∅; qlan := None; impl_attrs := impl_init;
     tl_others := [] |}.

(** Running a method on one attribute of the state. *)
Definition zoom {S T A} (proj : S -> T) (upd : T -> S -> S) (m : M T A) : M S A :=
  fun s => match m (proj s) with (r, t') => (r, upd t' s) end.

Definition on_config {A} : M config A -> M topology A :=
  zoom raw_cfg (fun c t =>
    {| raw_cfg := c; bsm_to_router_map := bsm_to_router_map t; nodes := nodes t;
       qchannels := qchannels t; cchannels := cchannels t;
       templates := templates t; qlan := qlan t; impl_attrs := impl_attrs t;
       tl_others := tl_others t |}).

Definition on_bsm_to_router_map {A} : M (list (string * list string)) A -> M topology A :=
  zoom bsm_to_router_map (fun b t =>
    {| raw_cfg := raw_cfg t; bsm_to_router_map := b; nodes := nodes t;
       qchannels := qchannels t; cchannels := cchannels t;
       templates := templates t; qlan := qlan t; impl_attrs := impl_attrs t;
       tl_others := tl_others t |}).

Definition on_nodes {A} : M registry A -> M topology A :=
  zoom nodes (fun r t =>
    {| raw_cfg := raw_cfg t; bsm_to_router_map := bsm_to_router_map t; nodes := r;
       qchannels := qchannels t; cchannels := cchannels t;
       templates := templates t; qlan := qlan t; impl_attrs := impl_attrs t;
       tl_others := tl_others t |}).

Definition set_templates (x : gmap string template) (t : topology) : topology :=
  {| raw_cfg := raw_cfg t; bsm_to_router_map := bsm_to_router_map t; nodes := nodes t;
     qchannels := qchannels t; cchannels := cchannels t;
     templates := x; qlan := qlan t; impl_attrs := impl_attrs t;
     tl_others := tl_others t |}.

Definition set_qlan (x : qlan_parameters) (t : topology) : topology :=
  {| raw_cfg := raw_cfg t; bsm_to_router_map := bsm_to_router_map t; nodes := nodes t;
     qchannels := qchannels t; cchannels := cchannels t;
     templates := templates t; qlan := Some x; impl_attrs := impl_attrs t;
     tl_others := tl_others t |}.

Definition set_qchannels (x : list QuantumChannel) (t : topology) : topology :=
  {| raw_cfg := raw_cfg t; bsm_to_router_map := bsm_to_router_map t; nodes := nodes t;
     qchannels := x; cchannels := cchannels t;
     templates := templates t; qlan := qlan t; impl_attrs := impl_attrs t;
     tl_others := tl_others t |}.

Definition set_cchannels (x : list ClassicalChannel) (t : topology) : topology :=
  {| raw_cfg := raw_cfg t; bsm_to_router_map := bsm_to_router_map t; nodes := nodes t;
     qchannels := qchannels t; cchannels := x;
     templates := templates t; qlan := qlan t; impl_attrs := impl_attrs t;
     tl_others := tl_others t |}.

Definition set_tl_others (x : list string) (t : topology) : topology :=
  {| raw_cfg := raw_cfg t; bsm_to_router_map := bsm_to_router_map t; nodes := nodes t;
     qchannels := qchannels t; cchannels := cchannels t;
     templates := templates t; qlan := qlan t; impl_attrs := impl_attrs t;
     tl_others := x |}.

Definition set_impl_attrs (x : impl_state) (t : topology) : topology :=
  {| raw_cfg := raw_cfg t; bsm_to_router_map := bsm_to_router_map t; nodes := nodes t;
     qchannels := qchannels t; cchannels := cchannels t;
     templates := templates t; qlan := qlan t; impl_attrs := x;
     tl_others := tl_others t |}.

(** The node objects and the implementor, the part of the state that
    [_create_node] works on. *)
Definition on_nodes_impl {A} : M (impl_state * registry) A -> M topology A :=
  zoom (fun t => (impl_attrs t, nodes t)) (fun '(i, r) t =>
    {| raw_cfg := raw_cfg t; bsm_to_router_map := bsm_to_router_map t; nodes := r;
       qchannels := qchannels t; cchannels := cchannels t;
       templates := templates t; qlan := qlan t; impl_attrs := i;
       tl_others := tl_others t |}).

(** ** The interface of a topology family (class [NetworkImpl]) *)

Abbreviation NODE_TYPES_t := (gmap string node_class).

Record NetworkImpl := {
  impl_add_parameters : config -> topology -> M impl_state unit;
  impl_map_bsm_routers : config -> M (list (string * list string)) unit;
  impl_add_bsm_node_to_router :
    list (string * list string) -> list string -> M registry unit;
  impl_handle_qconnection : qconnection -> Z -> M config unit;
  impl_generate_forwarding_table : config -> list QuantumChannel -> M registry unit;
  impl_ordered_node_dicts : list node_decl -> list node_decl;
  impl_create_node :
    node_decl -> string -> template -> list string ->
    list (string * list string) -> NODE_TYPES_t -> M (impl_state * registry) unit;
}.

(** Modelled from the spec: the constructor of an entity (a node, a
    channel) registers the new entity with the timeline, which is missing
    from the sources; the spec keeps every name unique within the
    timeline's entity namespace, so a taken name is refused. *)
Definition entity_name_taken (reg : registry) (tl : list string) (nm : string) : bool :=
  bool_decide (nm ∈ map name (all_nodes reg) ++ tl).

(** ** topology.py: class [Topology] *)

Module Topology.

Section WithConstants.

Variable ar : arithmetic.

(** [Topology._get_templates] *)
Definition _get_templates (c : config) : M topology unit :=
  modify (set_templates (cfg_templates c)).

(** [Topology._qlan_memarray] *)
Fixpoint _qlan_memarray (tpls : gmap string template) (node_list : list node_decl)
    (node_type : string) : gmap string Q :=
  match node_list with
  | [] => ∅
  | nd :: rest =>
      if decide (nd_type nd = node_type) then
        match nd_template nd with
        | Some tmpl_name =>
            if decide (tmpl_name ≠ EmptyString) then
              match tpls !! tmpl_name with
              | Some t => default ∅ (t !! "MemoryArray")
              | None => _qlan_memarray tpls rest node_type
              end
            else _qlan_memarray tpls rest node_type
        | None => _qlan_memarray tpls rest node_type
        end
      else _qlan_memarray tpls rest node_type
  end.

Definition flat_params (f : flat_memo) : memo_params :=
  {| fidelity := default (9 # 10)%Q (memo_fidelity f);
     frequency := default 2000%Q (memo_frequency f);
     efficiency := default 1%Q (memo_efficiency f);
     coherence_time := default (-1)%Q (memo_coherence f);
     wavelength := default 500%Q (memo_wavelength f) |}.

Definition memarray_params (m : gmap string Q) : memo_params :=
  {| fidelity := default (9 # 10)%Q (m !! "fidelity");
     frequency := default 2000%Q (m !! "frequency");
     efficiency := default 1%Q (m !! "efficiency");
     coherence_time := default (-1)%Q (m !! "coherence_time");
     wavelength := default 500%Q (m !! "wavelength") |}.

(** [Topology._add_qlan_parameters] *)
Definition _add_qlan_parameters (c : config) : M topology unit :=
  do t <- get;
  let n_local := default 1%Z (cfg_local_memories c) in
  let n_cl := default 1%Z (cfg_client_number c) in
  let mb := default "z" (cfg_measurement_bases c) in
  match memo_fidelity (cfg_memo_orch c) with
  | Some _ =>
      modify (set_qlan
        {| n_local_memories := n_local; n_clients := n_cl; meas_bases := mb;
           memo_orch := flat_params (cfg_memo_orch c);
           memo_client := flat_params (cfg_memo_client c) |})
  | None =>
      let orch_mem := _qlan_memarray (templates t) (cfg_nodes c) ORCHESTRATOR_str in
      let client_mem := _qlan_memarray (templates t) (cfg_nodes c) CLIENT_str in
      modify (set_qlan
        {| n_local_memories := n_local; n_clients := n_cl; meas_bases := mb;
           memo_orch := memarray_params orch_mem;
           memo_client := memarray_params client_mem |})
  end.

(** [Topology._add_parameters] *)
Definition _add_parameters (impl : NetworkImpl) (c : config) : M topology unit :=
  let node_types_present := map nd_type (cfg_nodes c) in
  (if decide (ORCHESTRATOR_str ∈ node_types_present ∨ CLIENT_str ∈ node_types_present)
   then _add_qlan_parameters c else ret tt) >>
  do t <- get;
  zoom impl_attrs set_impl_attrs (impl_add_parameters impl c t).

(** The body of the loop of [Topology._add_qconnections]. *)
Definition expand_qconnection (impl : NetworkImpl) (q_connect : qconnection)
  : M config unit :=
  do c <- get;
  let cc_delay := collect_cc_delay ar q_connect c in
  if decide (length cc_delay = 0%nat) then raise (AssertionError q_connect)
  else
    let cc_delay := halved_mean ar cc_delay in
    impl_handle_qconnection impl q_connect cc_delay.

(** [Topology._add_qconnections] *)
Definition _add_qconnections (impl : NetworkImpl) : M config unit :=
  do c <- get;
  for_each (cfg_qconnections c) (expand_qconnection impl).

(** [Topology._add_timeline]: the timeline is created empty; its node
    entities are the node objects of [nodes], which the pipeline
    constructs afterwards. *)
Definition _add_timeline (c : config) : M topology unit :=
  modify (set_tl_others []).

(** [Topology._add_nodes] *)
Definition _add_nodes (impl : NetworkImpl) (NODE_TYPES : NODE_TYPES_t)
    (c : config) : M topology unit :=
  let ordered_configs := impl_ordered_node_dicts impl (cfg_nodes c) in
  for_each ordered_configs (fun node_config =>
    do t <- get;
    let node_type := nd_type node_config in
    let tmpl : template :=
      default ∅ (match nd_template node_config with
                 | Some k => templates t !! k
                 | None => None
                 end) in
    on_nodes_impl
      (impl_create_node impl node_config node_type tmpl (tl_others t)
                        (bsm_to_router_map t) NODE_TYPES)).

(** The constructor of a channel class, [QuantumChannel(name, tl, ...)]
    or [ClassicalChannel(name, tl, ...)]: the new entity joins the
    timeline under its name. *)
Definition new_channel_entity (nm : string) : M topology unit :=
  do t <- get;
  if entity_name_taken (nodes t) (tl_others t) nm then raise (AssertionError_exists nm)
  else modify (set_tl_others (tl_others t ++ [nm])).

(** One iteration of [Topology._add_qchannels]. [set_ends] calls
    [assign_qchannel] of the sender, a method of node objects. *)
Definition install_qchannel (qc : qchannel_decl) : M topology unit :=
  do t <- get;
  let src_str := qch_source qc in
  let dst_str := qch_destination qc in
  match get_entity_by_name (nodes t) (tl_others t) src_str with
  | Some src_node =>
      let nm := default ("qc-" +:+ src_str +:+ "-" +:+ dst_str) (qch_name qc) in
      new_channel_entity nm >>
      match src_node with
      | NodeEntity src_node =>
          let qc_obj :=
            {| qc_name := nm; qc_attenuation := qch_attenuation qc;
               qc_distance := qch_distance qc;
               qc_sender := name src_node; qc_receiver := dst_str |} in
          do t <- get;
          modify (set_qchannels (qchannels t ++ [qc_obj]))
      | OtherEntity _ => raise (AttributeError "assign_qchannel")
      end
  | None => ret tt
  end.

(** [Topology._add_qchannels] *)
Definition _add_qchannels (c : config) : M topology unit :=
  for_each (default [] (cfg_qchannels c)) install_qchannel.

(** [Topology._make_classical_channel]; [name or default] takes the
    default for [None] and for the empty string. [set_ends] calls
    [assign_cchannel] of the sender, a method of node objects. *)
Definition _make_classical_channel (src_str dst_str : string)
    (distance delay : Q) (nm : option string) : M topology unit :=
  do t <- get;
  match get_entity_by_name (nodes t) (tl_others t) src_str with
  | Some src_obj =>
      let nm := match nm with
                | Some s => if decide (s = EmptyString)
                            then "cc-" +:+ src_str +:+ "-" +:+ dst_str else s
                | None => "cc-" +:+ src_str +:+ "-" +:+ dst_str
                end in
      new_channel_entity nm >>
      match src_obj with
      | NodeEntity src_obj =>
          let cc_obj :=
            {| cc_name := nm; cc_distance := distance; cc_delay := delay;
               cc_sender := name src_obj; cc_receiver := dst_str |} in
          do t <- get;
          modify (set_cchannels (cchannels t ++ [cc_obj]))
      | OtherEntity _ => raise (AttributeError "assign_cchannel")
      end
  | None => ret tt
  end.

(** [Topology._add_cchannels] *)
Definition _add_cchannels (c : config) : M topology unit :=
  for_each (cfg_cchannels c) (fun cc =>
    _make_classical_channel (cch_source cc) (cch_destination cc)
      (default (-1)%Q (cch_distance cc)) (default (-1)%Q (cch_delay cc))
      (cch_name cc)).

(** [Topology._add_cconnections] *)
Definition _add_cconnections (c : config) : M topology unit :=
  for_each (cfg_cconnections c) (fun cn =>
    let distance := default (-1)%Q (ccn_distance cn) in
    let delay := default (-1)%Q (ccn_delay cn) in
    for_each [(ccn_node1 cn, ccn_node2 cn); (ccn_node2 cn, ccn_node1 cn)]
      (fun '(src_str, dst_str) =>
         _make_classical_channel src_str dst_str distance delay None)).

(** [Topology._add_protocols] *)
Definition _add_protocols : M topology unit := ret tt.

(** [Topology._run_pipeline]; [config] is the dict held in the state,
    which the connection expander appends to. *)
Definition _run_pipeline (impl : NetworkImpl) (NODE_TYPES : NODE_TYPES_t)
  : M topology unit :=
  (do t <- get; _get_templates (raw_cfg t)) >>
  (do t <- get; _add_parameters impl (raw_cfg t)) >>
  on_config (_add_qconnections impl) >>
  (do t <- get; _add_timeline (raw_cfg t)) >>
  (do t <- get; on_bsm_to_router_map (impl_map_bsm_routers impl (raw_cfg t))) >>
  (do t <- get; _add_nodes impl NODE_TYPES (raw_cfg t)) >>
  (do t <- get;
   on_nodes (impl_add_bsm_node_to_router impl (bsm_to_router_map t) (tl_others t))) >>
  (do t <- get; _add_qchannels (raw_cfg t)) >>
  (do t <- get; _add_cchannels (raw_cfg t)) >>
  (do t <- get; _add_cconnections (raw_cfg t)) >>
  (do t <- get;
   on_nodes (impl_generate_forwarding_table impl (raw_cfg t) (qchannels t))) >>
  _add_protocols.

End WithConstants.

End Topology.

(** [CreateTopo(impl, node_types, ...)]: the constructor returns the
    topology object when the pipeline completes and raises otherwise. *)
Definition CreateTopo (ar : arithmetic) (impl : NetworkImpl)
    (node_types : NODE_TYPES_t) (c : config) : outcome topology :=
  match Topology._run_pipeline ar impl node_types (_setup c) with
  | (Return _, t) => Return t
  | (Raise e, _) => Raise e
  end.

(** ** network_impls.py *)

Definition lift {S A} (o : outcome A) : M S A := fun s => (o, s).

(** [NodeType(s)] *)
Definition as_NodeType {S} (s : string) : M S NodeType :=
  match NodeType_of s with
  | Some t => ret t
  | None => raise (ValueError_NodeType s)
  end.

(** [xs[i]] *)
Definition index {S A} (xs : list A) (i : nat) : M S A :=
  match xs !! i with
  | Some x => ret x
  | None => raise IndexError
  end.

(** [for x in xs: body]  where [body] updates the object [x] in place. *)
Fixpoint for_each_in {S} (body : M S unit) (xs : list S) : outcome unit * list S :=
  match xs with
  | [] => (Return tt, [])
  | x :: xs' =>
      match body x with
      | (Return _, x') =>
          match for_each_in body xs' with (r, xs'') => (r, x' :: xs'') end
      | (Raise e, x') => (Raise e, x' :: xs')
      end
  end.

(** [for node_type, node_list in nodes.items(): body] *)
Fixpoint for_each_item (body : string -> M (list node) unit) (reg : registry)
  : outcome unit * registry :=
  match reg with
  | [] => (Return tt, [])
  | (t, l) :: reg' =>
      match body t l with
      | (Return _, l') =>
          match for_each_item body reg' with (r, reg'') => (r, (t, l') :: reg'') end
      | (Raise e, l') => (Raise e, (t, l') :: reg')
      end
  end.

(** The part of [networkx] that the forwarding-table generator uses: an
    undirected simple graph with weighted edges, whose nodes iterate in
    insertion order. *)
Module networkx.

Record Graph := {
  g_nodes : list string;
  g_adj : gmap (string * string) Q;
}.

Definition Graph_new : Graph := {| g_nodes := []; g_adj := ∅ |}.

Definition add_node (n : string) (g : Graph) : Graph :=
  if decide (n ∈ g_nodes g) then g
  else {| g_nodes := g_nodes g ++ [n]; g_adj := g_adj g |}.

(** [add_edge(u, v, weight=w)]: an edge that is already there gets the
    new weight. *)
Definition add_edge (u v : string) (w : Q) (g : Graph) : Graph :=
  let g := add_node v (add_node u g) in
  {| g_nodes := g_nodes g;
     g_adj := <[(v, u) := w]> (<[(u, v) := w]> (g_adj g)) |}.

Definition edge_weight (g : Graph) (u v : string) : option Q := g_adj g !! (u, v).

End networkx.
Import networkx.

(** An entry of [costs]: the Python list [[r_k, ..., r_1, total]] is kept
    as its routers (latest first) and its last element. *)
Abbreviation cost_info := (list string * Q)%type.

(** [item == s] for a string [s]: a number never equals a string. *)
Definition item_is (c : cost_item) (s : string) : bool :=
  match c with
  | Name s' => bool_decide (s' = s)
  | Num _ => false
  end.

Definition as_list (ci : cost_info) : list cost_item :=
  map Name (fst ci) ++ [Num (snd ci)].

(** [u, v, d = cost_info]: the list unpacks when it has three elements. *)
Definition unpack3 (ci : cost_info) : outcome (string * string * Q) :=
  match fst ci with
  | [u; v] => Return (u, v, snd ci)
  | rs => Raise (ValueError_unpack 3 (S (length rs)))
  end.

(** [graph.add_weighted_edges_from(ebunch)] *)
Fixpoint add_weighted_edges_from (ebunch : list cost_info) (g : Graph) : outcome Graph :=
  match ebunch with
  | [] => Return g
  | e :: rest =>
      match unpack3 e with
      | Return (u, v, d) => add_weighted_edges_from rest (add_edge u v d g)
      | Raise x => Raise x
      end
  end.

Fixpoint assoc_lookup {V} (k : string) (m : list (string * V)) : option V :=
  match m with
  | [] => None
  | (k', v) :: m' => if decide (k' = k) then Some v else assoc_lookup k m'
  end.

Module BsmNetworkImpl.

(** [BsmNetworkImpl._add_parameters] *)
Definition _add_parameters (c : config) (topo : topology) : M impl_state unit :=
  modify (fun i =>
    {| _node_kwargs :=
         fold_left
           (fun m nd =>
              <[ nd_name nd :=
                   match nd_memo_size nd with
                   | Some v => [(MEMO_ARRAY_SIZE, v)] | None => [] end ++
                   match nd_data_memo_size nd with
                   | Some v => [(DATA_MEMO_ARRAY_SIZE, v)] | None => [] end ]> m)
           (cfg_nodes c) ∅;
       impl_n_local_memories := impl_n_local_memories i;
       impl_meas_bases := impl_meas_bases i;
       _remote_memories := _remote_memories i;
       orchestrator_nodes := orchestrator_nodes i;
       client_nodes := client_nodes i;
       remote_memories_array := remote_memories_array i |}).

(** [bsm_to_router_map[dst].append(src)], or a new entry [[src]]. *)
Fixpoint record_router (dst src : string) (m : list (string * list string))
  : list (string * list string) :=
  match m with
  | [] => [(dst, [src])]
  | (k, v) :: m' =>
      if decide (k = dst) then (k, v ++ [src]) :: m'
      else (k, v) :: record_router dst src m'
  end.

(** [BsmNetworkImpl._map_bsm_routers] *)
Definition _map_bsm_routers (c : config) : M (list (string * list string)) unit :=
  match cfg_qchannels c with
  | None => raise (KeyError "qchannels")
  | Some qcs =>
      for_each qcs (fun qc =>
        modify (record_router (qch_destination qc) (qch_source qc)))
  end.

(** [BsmNetworkImpl._add_bsm_node_to_router]; both routers are looked up
    before either is updated, and [add_bsm_node] is a method of node
    objects. *)
Definition _add_bsm_node_to_router (bsm_to_router_map : list (string * list string))
    (tl : list string) : M registry unit :=
  for_each bsm_to_router_map (fun '(bsm, routers) =>
    match routers with
    | [r0_str; r1_str] =>
        do reg <- get;
        let r0 := get_entity_by_name reg tl r0_str in
        let r1 := get_entity_by_name reg tl r1_str in
        match r0 with
        | Some (NodeEntity _) => modify (update_entity r0_str (add_bsm_node bsm r1_str))
        | Some (OtherEntity _) => raise (AttributeError "add_bsm_node")
        | None => ret tt
        end >>
        match r1 with
        | Some (NodeEntity _) => modify (update_entity r1_str (add_bsm_node bsm r0_str))
        | Some (OtherEntity _) => raise (AttributeError "add_bsm_node")
        | None => ret tt
        end
    | _ => raise (ValueError_unpack 2 (length routers))
    end).

(** [BsmNetworkImpl._handle_qconnection] *)
Definition _handle_qconnection (q_connect : qconnection) (cc_delay : Z)
  : M config unit :=
  let node1 := qcn_node1 q_connect in
  let node2 := qcn_node2 q_connect in
  let attenuation := qcn_attenuation q_connect in
  let distance := inject_Z (Qfloor (qcn_distance q_connect / 2)) in
  let channel_type := qcn_type q_connect in
  if decide (channel_type = MEET_IN_THE_MID) then
    let bsm_name := bsm_name_of node1 node2 in
    modify (set_cfg_nodes (fun l => l ++ [
      {| nd_name := bsm_name; nd_type := BSM_NODE_str;
         nd_seed := default 0%Z (qcn_seed q_connect);
         nd_template := qcn_template q_connect;
         nd_memo_size := None; nd_data_memo_size := None |} ])) >>
    for_each [node1; node2] (fun src =>
      modify (set_cfg_qchannels (fun o => Some (default [] o ++ [
        {| qch_name := Some ("QC." +:+ src +:+ "." +:+ bsm_name);
           qch_source := src; qch_destination := bsm_name;
           qch_distance := distance; qch_attenuation := attenuation |} ]))) >>
      modify (set_cfg_cchannels (fun l => l ++ [
        {| cch_name := Some ("CC." +:+ src +:+ "." +:+ bsm_name);
           cch_source := src; cch_destination := bsm_name;
           cch_distance := Some distance;
           cch_delay := Some (inject_Z cc_delay) |} ])) >>
      modify (set_cfg_cchannels (fun l => l ++ [
        {| cch_name := Some ("CC." +:+ bsm_name +:+ "." +:+ src);
           cch_source := bsm_name; cch_destination := src;
           cch_distance := Some distance;
           cch_delay := Some (inject_Z cc_delay) |} ])))
  else
    raise (NotImplementedError
             ("Unknown quantum connection type '" +:+ channel_type +:+ "'")).

(** The constructor of a node class: the new entity joins the timeline
    [tl] under its name. The components that the node then creates for
    itself are entities too; they are not represented. *)
Definition construct (tl : list string) (nm : string) (b : construction)
    (r : option routing_protocol) : M (impl_state * registry) node :=
  do st <- get;
  if entity_name_taken (snd st) tl nm then raise (AssertionError_exists nm)
  else ret (new_node nm b r).

(** [BsmNetworkImpl._create_node] *)
Definition _create_node (node_config : node_decl) (node_type : string)
    (tmpl : template) (tl : list string)
    (bsm_to_router_map : list (string * list string))
    (node_types : NODE_TYPES_t) : M (impl_state * registry) unit :=
  do nt <- as_NodeType node_type;
  do node_obj <-
    match nt with
    | BSM_NODE =>
        match assoc_lookup (nd_name node_config) bsm_to_router_map with
        | Some others => construct tl (nd_name node_config) (BSMNode others tmpl) None
        | None => raise (KeyError (nd_name node_config))
        end
    | _ =>
        match node_types !! node_type with
        | None =>
            raise (NotImplementedError
              ("NodeType '" +:+ node_type +:+ "' has no entry in NODE_TYPES. "
               +:+ "Register it in the topology's NODE_TYPES dict."))
        | Some cls =>
            do st <- get;
            let kwargs := default [] (_node_kwargs (fst st) !! nd_name node_config) in
            construct tl (nd_name node_config) (FromNodeTypes cls kwargs tmpl)
                      (cls_routing cls)
        end
    end;
  let node_obj := with_seed (nd_seed node_config) node_obj in
  modify (fun '(i, reg) => (i, registry_append node_type node_obj reg)).

(** The first loop of [_generate_forwarding_table]. *)
Definition graph_of_nodes (c : config) : outcome Graph :=
  fold_left
    (fun og nd =>
       match og with
       | Return g =>
           match NodeType_of (nd_type nd) with
           | Some t => if MIDPOINT_NODE_TYPES t then Return g
                       else Return (add_node (nd_name nd) g)
           | None => Raise (ValueError_NodeType (nd_type nd))
           end
       | Raise e => Raise e
       end)
    (cfg_nodes c) (Return Graph_new).

(** One iteration of the loop that fills [costs]. *)
Fixpoint record_cost (bsm router : string) (d : Q) (costs : list (string * cost_info))
  : list (string * cost_info) :=
  match costs with
  | [] => [(bsm, ([router], d))]
  | (k, (rs, total)) :: costs' =>
      if decide (k = bsm) then (k, (router :: rs, (total + d)%Q)) :: costs'
      else (k, (rs, total)) :: record_cost bsm router d costs'
  end.

Definition costs_of (qchannels : list QuantumChannel) : list (string * cost_info) :=
  fold_left
    (fun costs qc => record_cost (qc_receiver qc) (qc_sender qc) (qc_distance qc) costs)
    qchannels [].

(** The loop that reads the routing discipline off the first node of a
    type that is not a midpoint type. *)
Fixpoint first_routing_protocol (reg : registry) : outcome (option routing_protocol) :=
  match reg with
  | [] => Return None
  | (node_type, node_list) :: reg' =>
      match NodeType_of node_type with
      | None => Raise (ValueError_NodeType node_type)
      | Some t =>
          if MIDPOINT_NODE_TYPES t then first_routing_protocol reg'
          else match node_list with
               | [] => first_routing_protocol reg'
               | n :: _ =>
                   match network_manager n with
                   | Some r => Return (Some r)
                   | None => Raise (AttributeError "network_manager")
                   end
               end
      end
  end.

(** [node.network_manager.get_routing_protocol()] *)
Definition get_routing_protocol : M node routing_protocol :=
  do n <- get;
  match network_manager n with
  | Some r => ret r
  | None => raise (AttributeError "network_manager")
  end.

(** [routing_protocol.add_forwarding_rule(dst, next_node)], a method of
    the static protocol. *)
Definition add_forwarding_rule (dst next_node : string) : M node unit :=
  do r <- get_routing_protocol;
  match r with
  | StaticRoutingProtocol tbl =>
      modify (with_routing (StaticRoutingProtocol (<[dst := next_node]> tbl)))
  | DistributedRoutingProtocol _ _ => raise (AttributeError "add_forwarding_rule")
  end.

(** [routing_protocol.link_cost[neighbor] = cost], an attribute of the
    distributed protocol. *)
Definition set_link_cost (neighbor : string) (cost : cost_item) : M node unit :=
  do r <- get_routing_protocol;
  match r with
  | DistributedRoutingProtocol lc i =>
      modify (with_routing (DistributedRoutingProtocol (<[neighbor := cost]> lc) i))
  | StaticRoutingProtocol _ => raise (AttributeError "link_cost")
  end.

Section Collaborators.

(** [networkx.dijkstra_path(graph, source, target)] *)
Variable dijkstra_path : Graph -> string -> string -> outcome (list string).

(** [DistributedRoutingProtocol.init()] *)
Variable init : routing_protocol -> routing_protocol.

(** The body of [for dst_name in graph.nodes] for the node [src]. *)
Definition install_rule (graph : Graph) (dst_name : string) : M node unit :=
  do src <- get;
  if decide (name src = dst_name) then ret tt
  else
    try_except
      (do path <-
         (if String.ltb (name src) dst_name
          then lift (dijkstra_path graph (name src) dst_name)
          else do p <- lift (dijkstra_path graph dst_name (name src));
               ret (rev p));
       do routing_protocol <- get_routing_protocol;
       do hop <- index path 1;
       add_forwarding_rule dst_name hop)
      (fun e => match e with NetworkXNoPath => true | _ => false end).

(** The branch of [_generate_forwarding_table] for the static
    routing protocol, after the edges are added. *)
Definition static_rules (graph : Graph) : M registry unit :=
  for_each_item (fun node_type =>
    do t <- as_NodeType node_type;
    if MIDPOINT_NODE_TYPES t then ret tt
    else for_each_in (for_each (g_nodes graph) (install_rule graph))).

(** The body of [for bsm, cost_info in costs.items()] for the router
    [q_router]. A [cost_info] whose second element is the distance has
    no third element, so [cost_info[2]] raises before a distance could
    be taken for a neighbor. *)
Definition seed_link_cost (ci : cost_info) : M node unit :=
  do q_router <- get;
  if bool_decide (name q_router ∈ fst ci) then
    do c0 <- index (as_list ci) 0;
    do neighbor <-
      (if negb (item_is c0 (name q_router)) then ret c0
       else index (as_list ci) 1);
    do c2 <- index (as_list ci) 2;
    match neighbor with
    | Name nb => set_link_cost nb c2
    | Num _ => raise IndexError
    end
  else ret tt.

(** [routing_protocol.init()] *)
Definition call_init : M node unit :=
  do r <- get_routing_protocol;
  modify (with_routing (init r)).

(** The branch of [_generate_forwarding_table] for the distributed
    routing protocol. *)
Definition distributed_costs (costs : list (string * cost_info)) : M registry unit :=
  for_each_item (fun node_type =>
    do t <- as_NodeType node_type;
    if MIDPOINT_NODE_TYPES t then ret tt
    else for_each_in
           (get_routing_protocol >>
            for_each costs (fun '(bsm, ci) => seed_link_cost ci) >>
            call_init)).

(** [BsmNetworkImpl._generate_forwarding_table] *)
Definition _generate_forwarding_table (c : config) (qchannels : list QuantumChannel)
  : M registry unit :=
  do graph <- lift (graph_of_nodes c);
  let costs := costs_of qchannels in
  do nodes <- get;
  do routing_protocol <- lift (first_routing_protocol nodes);
  match routing_protocol with
  | Some (StaticRoutingProtocol _) =>
      do graph <- lift (add_weighted_edges_from (map snd costs) graph);
      static_rules graph
  | Some (DistributedRoutingProtocol _ _) => distributed_costs costs
  | None => ret tt
  end.

Definition impl : NetworkImpl :=
  {| impl_add_parameters := _add_parameters;
     impl_map_bsm_routers := _map_bsm_routers;
     impl_add_bsm_node_to_router := _add_bsm_node_to_router;
     impl_handle_qconnection := _handle_qconnection;
     impl_generate_forwarding_table := _generate_forwarding_table;
     impl_ordered_node_dicts := fun node_list => node_list;
     impl_create_node := _create_node |}.

End Collaborators.

End BsmNetworkImpl.

Module QlanNetworkImpl.

(** [QlanNetworkImpl._add_parameters] *)
Definition _add_parameters (c : config) (topo : topology) : M impl_state unit :=
  match qlan topo with
  | None => raise (AttributeError "n_local_memories")
  | Some p =>
      modify (fun i =>
        {| _node_kwargs := _node_kwargs i;
           impl_n_local_memories := n_local_memories p;
           impl_meas_bases := meas_bases p;
           _remote_memories := [];
           orchestrator_nodes := [];
           client_nodes := [];
           remote_memories_array := [] |})
  end.

(** [QlanNetworkImpl._ordered_node_dicts] *)
Definition _ordered_node_dicts (node_list : list node_decl) : list node_decl :=
  let clients := filter (fun n => nd_type n = CLIENT_str) node_list in
  let orchestrators := filter (fun n => nd_type n = ORCHESTRATOR_str) node_list in
  let others :=
    filter (fun n => nd_type n ∉ [CLIENT_str; ORCHESTRATOR_str]) node_list in
  others ++ clients ++ orchestrators.

(** The constructors of the two QLAN node classes: the new entity joins
    the timeline [tl] under its name. The orchestrator's constructor
    raises [ValueError] unless it is given one local memory less than
    remote memories. *)
Definition construct (tl : list string) (nm : string) (b : construction)
  : M (impl_state * registry) node :=
  do st <- get;
  if entity_name_taken (snd st) tl nm then raise (AssertionError_exists nm)
  else
    match b with
    | QlanOrchestratorNode num_local_memories remote_memories _ =>
        if decide (num_local_memories = Z.of_nat (length remote_memories) - 1)%Z
        then ret (new_node nm b None)
        else raise (ValueError_local_memories num_local_memories
                                              (length remote_memories))
    | _ => ret (new_node nm b None)
    end.

(** [QlanNetworkImpl._create_node]. The memory object of a client is
    referred to by the client's name; the orchestrator is given the list
    object [_remote_memories] as it stands when it is constructed. *)
Definition _create_node (node_config : node_decl) (node_type : string)
    (tmpl : template) (tl : list string)
    (bsm_to_router_map : list (string * list string))
    (node_types : NODE_TYPES_t) : M (impl_state * registry) unit :=
  let memo_arr : gmap string Q := default ∅ (tmpl !! "MemoryArray") in
  if decide (node_type = CLIENT_str) then
    do node_obj <-
      construct tl (nd_name node_config)
        (QlanClientNode 1 (Topology.memarray_params memo_arr));
    let node_obj := with_seed (nd_seed node_config) node_obj in
    let memo := name node_obj in
    modify (fun '(i, reg) =>
      ({| _node_kwargs := _node_kwargs i;
          impl_n_local_memories := impl_n_local_memories i;
          impl_meas_bases := impl_meas_bases i;
          _remote_memories := _remote_memories i ++ [memo];
          orchestrator_nodes := orchestrator_nodes i;
          client_nodes := client_nodes i ++ [name node_obj];
          remote_memories_array := remote_memories_array i ++ [memo] |},
       registry_append node_type node_obj reg))
  else if decide (node_type = ORCHESTRATOR_str) then
    do st <- get;
    do node_obj <-
      construct tl (nd_name node_config)
        (QlanOrchestratorNode (impl_n_local_memories (fst st))
           (_remote_memories (fst st)) (Topology.memarray_params memo_arr));
    let node_obj := with_bases (impl_meas_bases (fst st)) node_obj in
    let node_obj := with_seed (nd_seed node_config) node_obj in
    modify (fun '(i, reg) =>
      ({| _node_kwargs := _node_kwargs i;
          impl_n_local_memories := impl_n_local_memories i;
          impl_meas_bases := impl_meas_bases i;
          _remote_memories := _remote_memories i;
          orchestrator_nodes := orchestrator_nodes i ++ [name node_obj];
          client_nodes := client_nodes i;
          remote_memories_array := remote_memories_array i |},
       registry_append node_type node_obj reg))
  else
    raise (ValueError ("Unknown QLAN node type '" +:+ node_type +:+ "'")).

(** The methods that [QlanNetworkImpl] does not override are the no-ops
    of [NetworkImpl]. *)
Definition impl : NetworkImpl :=
  {| impl_add_parameters := _add_parameters;
     impl_map_bsm_routers := fun _ => ret tt;
     impl_add_bsm_node_to_router := fun _ _ => ret tt;
     impl_handle_qconnection := fun _ _ => ret tt;
     impl_generate_forwarding_table := fun _ _ => ret tt;
     impl_ordered_node_dicts := _ordered_node_dicts;
     impl_create_node := _create_node |}.

End QlanNetworkImpl.

(** * Definitions used to state the properties *)

(** ** The node order of the QLAN family *)

Definition is_client (n : node_decl) : Prop := nd_type n = CLIENT_str.
Definition is_orchestrator (n : node_decl) : Prop := nd_type n = ORCHESTRATOR_str.
Definition is_other (n : node_decl) : Prop :=
  nd_type n ∉ [CLIENT_str; ORCHESTRATOR_str].

(** The place of a declaration in the construction order. *)
Definition construction_rank (n : node_decl) : nat :=
  if decide (nd_type n = CLIENT_str) then 1
  else if decide (nd_type n = ORCHESTRATOR_str) then 2 else 0.

(** The order that the specification words: clients, then others, then
    orchestrators. *)
Definition clients_others_orchestrators (node_list : list node_decl) : list node_decl :=
  filter is_client node_list ++ filter is_other node_list
    ++ filter is_orchestrator node_list.

Definition c6_router : node_decl :=
  {| nd_name := "r1"; nd_type := "QuantumRouter"; nd_seed := 0;
     nd_template := None; nd_memo_size := None; nd_data_memo_size := None |}.
Definition c6_client : node_decl :=
  {| nd_name := "client1"; nd_type := "QlanClientNode"; nd_seed := 1;
     nd_template := None; nd_memo_size := None; nd_data_memo_size := None |}.


(** ** What a "meet in the middle" connection expands to *)

(** The midpoint declaration. *)
Definition midpoint_decl (q : qconnection) : node_decl :=
  {| nd_name := "BSM." +:+ qcn_node1 q +:+ "." +:+ qcn_node2 q +:+ ".auto";
     nd_type := "BSMNode";
     nd_seed := default 0%Z (qcn_seed q);
     nd_template := qcn_template q;
     nd_memo_size := None; nd_data_memo_size := None |}.

(** The integer division of the total distance by 2. *)
Definition half_distance (q : qconnection) : Q :=
  inject_Z (Qfloor (qcn_distance q / 2)).

(** The quantum channel from the endpoint [src] to the midpoint. *)
Definition derived_qchannel (q : qconnection) (src : string) : qchannel_decl :=
  {| qch_name := Some ("QC." +:+ src +:+ "." +:+ nd_name (midpoint_decl q));
     qch_source := src; qch_destination := nd_name (midpoint_decl q);
     qch_distance := half_distance q; qch_attenuation := qcn_attenuation q |}.

(** A classical channel between an endpoint and the midpoint, in the
    direction [src] to [dst]. *)
Definition derived_cchannel (q : qconnection) (cc_delay : Z) (src dst : string)
  : cchannel_decl :=
  {| cch_name := Some ("CC." +:+ src +:+ "." +:+ dst);
     cch_source := src; cch_destination := dst;
     cch_distance := Some (half_distance q);
     cch_delay := Some (inject_Z cc_delay) |}.

(** The config after the expansion of [q]. *)
Definition expanded (q : qconnection) (cc_delay : Z) (c : config) : config :=
  let bsm := nd_name (midpoint_decl q) in
  {| cfg_nodes := cfg_nodes c ++ [midpoint_decl q];
     cfg_qconnections := cfg_qconnections c;
     cfg_cconnections := cfg_cconnections c;
     cfg_qchannels :=
       Some (default [] (cfg_qchannels c)
             ++ [derived_qchannel q (qcn_node1 q); derived_qchannel q (qcn_node2 q)]);
     cfg_cchannels :=
       cfg_cchannels c
       ++ [derived_cchannel q cc_delay (qcn_node1 q) bsm;
           derived_cchannel q cc_delay bsm (qcn_node1 q);
           derived_cchannel q cc_delay (qcn_node2 q) bsm;
           derived_cchannel q cc_delay bsm (qcn_node2 q)];
     cfg_templates := cfg_templates c;
     cfg_local_memories := cfg_local_memories c;
     cfg_client_number := cfg_client_number c;
     cfg_measurement_bases := cfg_measurement_bases c;
     cfg_memo_orch := cfg_memo_orch c;
     cfg_memo_client := cfg_memo_client c |}.

(** ** The classical delay derived for a quantum connection *)

(** The unordered pair [{a, b}] is the unordered pair [{c, d}]. *)
Definition same_endpoints (a b c d : string) : Prop :=
  (a = c ∧ b = d) ∨ (a = d ∧ b = c).

Global Instance same_endpoints_dec a b c d : Decision (same_endpoints a b c d).
Proof. unfold same_endpoints. apply _. Defined.

(** What one classical declaration contributes: its explicit delay, or
    else its distance (1000 when it has none) divided by the constant. *)
Definition contribution (ar : arithmetic) (delay distance : option Q) : Q :=
  match delay, distance with
  | Some d, _ => d
  | None, Some x => truediv ar x (SPEED_OF_LIGHT ar)
  | None, None => truediv ar 1000%Q (SPEED_OF_LIGHT ar)
  end.

(** The contributions of the classical channels and then of the classical
    connections of [c] between the endpoints of [q], in either order. *)
Definition matching_delays (ar : arithmetic) (c : config) (q : qconnection) : list Q :=
  map (fun cc => contribution ar (cch_delay cc) (cch_distance cc))
      (filter (fun cc => same_endpoints (cch_source cc) (cch_destination cc)
                                        (qcn_node1 q) (qcn_node2 q))
              (cfg_cchannels c))
  ++
  map (fun cn => contribution ar (ccn_delay cn) (ccn_distance cn))
      (filter (fun cn => same_endpoints (ccn_node1 cn) (ccn_node2 cn)
                                        (qcn_node1 q) (qcn_node2 q))
              (cfg_cconnections c)).

(** The integer half of the mean of the contributions; no delay when
    there is none. *)
Definition derived_delay (ar : arithmetic) (c : config) (q : qconnection) : option Z :=
  match matching_delays ar c q with
  | [] => None
  | ds => Some (Qfloor (np_mean ar ds / 2))
  end.

(** The float that the literal [1.2] denotes. *)
Definition float_1_2 : Q := round64 (12 # 10).

(** Collaborators that are never called while connections are expanded. *)
Definition no_dijkstra (g : Graph) (s t : string) : outcome (list string) :=
  Raise NetworkXNoPath.
Definition bsm_impl0 : NetworkImpl := BsmNetworkImpl.impl no_dijkstra (fun r => r).

Definition c3_qconnection : qconnection :=
  {| qcn_node1 := "r1"; qcn_node2 := "r2"; qcn_attenuation := 2 # 10000;
     qcn_distance := 2000; qcn_type := "meet_in_the_middle";
     qcn_seed := None; qcn_template := None |}.

Definition router_decl (nm : string) (sd : Z) : node_decl :=
  {| nd_name := nm; nd_type := "QuantumRouter"; nd_seed := sd;
     nd_template := None; nd_memo_size := Some 20%Z; nd_data_memo_size := None |}.

Definition c3_config : config :=
  {| cfg_nodes := [router_decl "r1" 0; router_decl "r2" 1];
     cfg_qconnections := [c3_qconnection];
     cfg_cconnections :=
       [{| ccn_node1 := "r2"; ccn_node2 := "r1";
           ccn_distance := None; ccn_delay := Some 1000000000%Q |}];
     cfg_qchannels := Some [];
     cfg_cchannels := [];
     cfg_templates := ∅;
     cfg_local_memories := None; cfg_client_number := None;
     cfg_measurement_bases := None;
     cfg_memo_orch := no_flat_memo; cfg_memo_client := no_flat_memo |}.

Definition c10_config : config :=
  {| cfg_nodes := [router_decl "r1" 0; router_decl "r2" 1];
     cfg_qconnections := [c3_qconnection];
     cfg_cconnections :=
       [{| ccn_node1 := "r1"; ccn_node2 := "r2";
           ccn_distance := None; ccn_delay := None |}];
     cfg_qchannels := Some [];
     cfg_cchannels := [];
     cfg_templates := ∅;
     cfg_local_memories := None; cfg_client_number := None;
     cfg_measurement_bases := None;
     cfg_memo_orch := no_flat_memo; cfg_memo_client := no_flat_memo |}.

(** The connection r1-r2 with one classical connection r2-r1 that
    declares the distance 1.2 and no delay. *)
Definition c3_float_config : config :=
  {| cfg_nodes := [router_decl "r1" 0; router_decl "r2" 1];
     cfg_qconnections := [c3_qconnection];
     cfg_cconnections :=
       [{| ccn_node1 := "r2"; ccn_node2 := "r1";
           ccn_distance := Some float_1_2; ccn_delay := None |}];
     cfg_qchannels := Some [];
     cfg_cchannels := [];
     cfg_templates := ∅;
     cfg_local_memories := None; cfg_client_number := None;
     cfg_measurement_bases := None;
     cfg_memo_orch := no_flat_memo; cfg_memo_client := no_flat_memo |}.
(** ** The channel objects of a declaration *)

(** The name of the quantum channel object of the declaration [qc]. *)
Definition qchannel_name (qc : qchannel_decl) : string :=
  match qch_name qc with
  | Some nm => nm
  | None => "qc-" +:+ qch_source qc +:+ "-" +:+ qch_destination qc
  end.

(** The quantum channel object of the declaration [qc], bound to the
    node object [src_node] and to the destination name. *)
Definition qchannel_object (src_node : node) (qc : qchannel_decl) : QuantumChannel :=
  {| qc_name := qchannel_name qc;
     qc_attenuation := qch_attenuation qc;
     qc_distance := qch_distance qc;
     qc_sender := name src_node;
     qc_receiver := qch_destination qc |}.

(** The name of the classical channel object of the declaration [cc]: the
    declared name unless there is none or it is empty. *)
Definition cchannel_name (cc : cchannel_decl) : string :=
  match cch_name cc with
  | Some nm =>
      if decide (nm = EmptyString)
      then "cc-" +:+ cch_source cc +:+ "-" +:+ cch_destination cc
      else nm
  | None => "cc-" +:+ cch_source cc +:+ "-" +:+ cch_destination cc
  end.

(** The classical channel object of the declaration [cc]; a missing
    distance or delay is -1. *)
Definition cchannel_object (src_node : node) (cc : cchannel_decl) : ClassicalChannel :=
  {| cc_name := cchannel_name cc;
     cc_distance := default (-1)%Q (cch_distance cc);
     cc_delay := default (-1)%Q (cch_delay cc);
     cc_sender := name src_node;
     cc_receiver := cch_destination cc |}.

(** The state once a channel object is created and kept: the timeline
    knows its name and the list of channels ends with it. *)
Definition with_qchannel (ch : QuantumChannel) (t : topology) : topology :=
  set_qchannels (qchannels t ++ [ch]) (set_tl_others (tl_others t ++ [qc_name ch]) t).

Definition with_cchannel (ch : ClassicalChannel) (t : topology) : topology :=
  set_cchannels (cchannels t ++ [ch]) (set_tl_others (tl_others t ++ [cc_name ch]) t).

(** The node object that a name resolves to, if it resolves to one. *)
Definition node_called (t : topology) (nm : string) : option node :=
  match get_entity_by_name (nodes t) (tl_others t) nm with
  | Some (NodeEntity n) => Some n
  | _ => None
  end.

(** The name belongs to an entity of the timeline that is no node
    object. *)
Definition names_other_entity (t : topology) (nm : string) : Prop :=
  ∃ x, get_entity_by_name (nodes t) (tl_others t) nm = Some (OtherEntity x).

(** The declarations [decls], of sources [src] and channel names [nm],
    can all be installed from the state [t]: no source is the name of an
    entity other than a node, the channels to create have names that are
    pairwise different and free in the timeline, and no source that
    resolves to nothing is the name of one of these channels. *)
Definition installable {D} (src nm : D → string) (t : topology) (decls : list D) : Prop :=
  let created := map nm (filter (fun d => is_Some (node_called t (src d))) decls) in
  (∀ d, d ∈ decls → ¬ names_other_entity t (src d))
  ∧ NoDup created
  ∧ (∀ x, x ∈ created → entity_name_taken (nodes t) (tl_others t) x = false)
  ∧ (∀ d, d ∈ decls → src d ∈ created → is_Some (node_called t (src d))).

(** The state after the declarations [decls] are installed one after the
    other, [put n d] being what installing [d] at the node object [n] does
    to the state. *)
Definition installed {D} (src : D → string) (put : node → D → topology → topology)
    (t : topology) (decls : list D) : topology :=
  fold_left (fun t d => match node_called t (src d) with
                        | Some n => put n d t
                        | None => t
                        end) decls t.

(** The channel objects that installing [decls] from [t] creates, in
    order. *)
Definition created_qchannels (t : topology) (decls : list qchannel_decl)
  : list QuantumChannel :=
  omap (fun qc => (fun n => qchannel_object n qc) <$> node_called t (qch_source qc)) decls.

Definition created_cchannels (t : topology) (decls : list cchannel_decl)
  : list ClassicalChannel :=
  omap (fun cc => (fun n => cchannel_object n cc) <$> node_called t (cch_source cc)) decls.

(** Two routers and two classical channels r1 -> r2 that declare no
    name. *)
Definition c8_twice_config : config :=
  {| cfg_nodes := [router_decl "r1" 0; router_decl "r2" 1];
     cfg_qconnections := []; cfg_cconnections := [];
     cfg_qchannels := Some [];
     cfg_cchannels :=
       [{| cch_name := None; cch_source := "r1"; cch_destination := "r2";
           cch_distance := Some 1000%Q; cch_delay := Some 5000000%Q |};
        {| cch_name := None; cch_source := "r1"; cch_destination := "r2";
           cch_distance := Some 1000%Q; cch_delay := Some 5000000%Q |}];
     cfg_templates := ∅;
     cfg_local_memories := None; cfg_client_number := None;
     cfg_measurement_bases := None;
     cfg_memo_orch := no_flat_memo; cfg_memo_client := no_flat_memo |}.

(** Two routers, a classical channel r1 -> r2 called "link" and a
    classical channel whose source is the name of the first channel. *)
Definition c8_channel_source_config : config :=
  {| cfg_nodes := [router_decl "r1" 0; router_decl "r2" 1];
     cfg_qconnections := []; cfg_cconnections := [];
     cfg_qchannels := Some [];
     cfg_cchannels :=
       [{| cch_name := Some "link"; cch_source := "r1"; cch_destination := "r2";
           cch_distance := Some 1000%Q; cch_delay := Some 5000000%Q |};
        {| cch_name := None; cch_source := "link"; cch_destination := "r2";
           cch_distance := Some 1000%Q; cch_delay := Some 5000000%Q |}];
     cfg_templates := ∅;
     cfg_local_memories := None; cfg_client_number := None;
     cfg_measurement_bases := None;
     cfg_memo_orch := no_flat_memo; cfg_memo_client := no_flat_memo |}.

(** ** Unregistered node types *)

(** The message of the error that names the type and tells to register
    it. *)
Definition unregistered_message (ty : string) : string :=
  "NodeType '" +:+ ty
  +:+ "' has no entry in NODE_TYPES. Register it in the topology's NODE_TYPES dict.".

(** The error [_create_node] raises on an unregistered endpoint type. *)
Definition unregistered_error (ty : string) : exn :=
  match NodeType_of ty with
  | Some _ => NotImplementedError (unregistered_message ty)
  | None => ValueError_NodeType ty
  end.

(** No channel object has been created. *)
Definition no_channels (t : topology) : Prop :=
  qchannels t = [] ∧ cchannels t = [].

(** [RouterNetTopo.NODE_TYPES], with a router class whose fresh instances
    run the static routing protocol. *)
Definition QuantumRouter : node_class :=
  {| cls_name := "QuantumRouter";
     cls_routing := Some (StaticRoutingProtocol ∅) |}.
Definition RouterNetTopo_NODE_TYPES : NODE_TYPES_t := {[ "QuantumRouter" := QuantumRouter ]}.

Definition plain_decl (nm ty : string) (sd : Z) : node_decl :=
  {| nd_name := nm; nd_type := ty; nd_seed := sd;
     nd_template := None; nd_memo_size := None; nd_data_memo_size := None |}.

Definition config_of_nodes (ns : list node_decl) : config :=
  {| cfg_nodes := ns;
     cfg_qconnections := []; cfg_cconnections := [];
     cfg_qchannels := Some []; cfg_cchannels := [];
     cfg_templates := ∅;
     cfg_local_memories := None; cfg_client_number := None;
     cfg_measurement_bases := None;
     cfg_memo_orch := no_flat_memo; cfg_memo_client := no_flat_memo |}.

(** A router followed by a node of the type "Widget", which is no member
    of [NodeType]. *)
Definition widget_config : config :=
  config_of_nodes [router_decl "r1" 0; plain_decl "w1" "Widget" 1].

(** A router followed by a node of the type "DQCNode", a member of
    [NodeType] that [RouterNetTopo] does not register. *)
Definition dqc_config : config :=
  config_of_nodes [router_decl "r1" 0; plain_decl "d1" "DQCNode" 1].

(** ** The quantum channels that end at a name *)

(** The sources of the declarations whose destination is [dst], in
    declaration order. *)
Definition sources_into (dst : string) (qcs : list qchannel_decl) : list string :=
  map qch_source (filter (fun qc => qch_destination qc = dst) qcs).

(** An explicit quantum channel between two routers, besides their
    connection: r2 is the destination of one declaration. *)
Definition c9_config : config :=
  {| cfg_nodes := [router_decl "r1" 0; router_decl "r2" 1];
     cfg_qconnections := [c3_qconnection];
     cfg_cconnections :=
       [{| ccn_node1 := "r1"; ccn_node2 := "r2";
           ccn_distance := None; ccn_delay := Some 1000000000%Q |}];
     cfg_qchannels :=
       Some [{| qch_name := None; qch_source := "r1"; qch_destination := "r2";
                qch_distance := 2000; qch_attenuation := 2 # 10000 |}];
     cfg_cchannels := [];
     cfg_templates := ∅;
     cfg_local_memories := None; cfg_client_number := None;
     cfg_measurement_bases := None;
     cfg_memo_orch := no_flat_memo; cfg_memo_client := no_flat_memo |}.

(** The expander adds quantum channels after the declared ones, two
    into each midpoint. *)
Definition declared_then_pairs (declared : list qchannel_decl) (c : config) : Prop :=
  ∃ derived,
    default [] (cfg_qchannels c) = declared ++ derived ∧
    ∀ dst, Nat.Even (length (sources_into dst derived)).

(** ** The two dialects of a QLAN config *)

(** [QlanStarTopo.NODE_TYPES] *)
Definition QlanStarTopo_NODE_TYPES : NODE_TYPES_t :=
  {[ "QlanOrchestratorNode" := {| cls_name := "QlanOrchestratorNode"; cls_routing := None |};
     "QlanClientNode" := {| cls_name := "QlanClientNode"; cls_routing := None |} ]}.

(** The memory parameters a QLAN node object was constructed with. *)
Definition constructed_memo (n : node) : option memo_params :=
  match built n with
  | QlanClientNode _ m => Some m
  | QlanOrchestratorNode _ _ m => Some m
  | _ => None
  end.

(** The hardware values of the example: they differ from the defaults
    0.9, 2000, 1, -1, 500. *)
Definition c1_orch_hw : memo_params :=
  {| fidelity := 95 # 100; frequency := 3000; efficiency := 8 # 10;
     coherence_time := 10; wavelength := 1550 |}.
Definition c1_client_hw : memo_params :=
  {| fidelity := 99 # 100; frequency := 1000; efficiency := 9 # 10;
     coherence_time := 20; wavelength := 1389 |}.

Definition default_memo : memo_params :=
  {| fidelity := 9 # 10; frequency := 2000; efficiency := 1;
     coherence_time := -1; wavelength := 500 |}.

Definition flat_of (m : memo_params) : flat_memo :=
  {| memo_fidelity := Some (fidelity m); memo_frequency := Some (frequency m);
     memo_efficiency := Some (efficiency m); memo_coherence := Some (coherence_time m);
     memo_wavelength := Some (wavelength m) |}.

Definition MemoryArray_of (m : memo_params) : template :=
  {[ "MemoryArray" :=
       ({[ "fidelity" := fidelity m; "frequency" := frequency m;
           "efficiency" := efficiency m; "coherence_time" := coherence_time m;
           "wavelength" := wavelength m ]} : gmap string Q) ]}.

(** The legacy flat dialect: top-level [memo_*] keys. The nodes and the
    structural values are those of [LEGACY_QLAN_CONFIG] in
    [config_format_demo.py]: an orchestrator with two local memories and
    three clients. *)
Definition c1_legacy_config : config :=
  {| cfg_nodes := [plain_decl "Orchestrator" "QlanOrchestratorNode" 0;
                   plain_decl "client1" "QlanClientNode" 1;
                   plain_decl "client2" "QlanClientNode" 2;
                   plain_decl "client3" "QlanClientNode" 3];
     cfg_qconnections := []; cfg_cconnections := [];
     cfg_qchannels := None; cfg_cchannels := [];
     cfg_templates := ∅;
     cfg_local_memories := Some 2%Z; cfg_client_number := Some 3%Z;
     cfg_measurement_bases := Some "xx";
     cfg_memo_orch := flat_of c1_orch_hw;
     cfg_memo_client := flat_of c1_client_hw |}.

(** The templated dialect for the same hardware values: per-node
    [MemoryArray] template entries, as in [CLEAN_QLAN_CONFIG]. *)
Definition c1_client_decl (nm : string) (sd : Z) : node_decl :=
  {| nd_name := nm; nd_type := "QlanClientNode"; nd_seed := sd;
     nd_template := Some "client_hw";
     nd_memo_size := None; nd_data_memo_size := None |}.

Definition c1_templated_config : config :=
  {| cfg_nodes :=
       [{| nd_name := "Orchestrator"; nd_type := "QlanOrchestratorNode"; nd_seed := 0;
           nd_template := Some "orch_hw";
           nd_memo_size := None; nd_data_memo_size := None |};
        c1_client_decl "client1" 1; c1_client_decl "client2" 2;
        c1_client_decl "client3" 3];
     cfg_qconnections := []; cfg_cconnections := [];
     cfg_qchannels := None; cfg_cchannels := [];
     cfg_templates :=
       {[ "orch_hw" := MemoryArray_of c1_orch_hw;
          "client_hw" := MemoryArray_of c1_client_hw ]};
     cfg_local_memories := Some 2%Z; cfg_client_number := Some 3%Z;
     cfg_measurement_bases := Some "xx";
     cfg_memo_orch := no_flat_memo;
     cfg_memo_client := no_flat_memo |}.

(** ** Link costs under the distributed discipline *)

(** The other endpoint of a midpoint whose entry lists two routers, one
    of them [nm]. *)
Definition other_endpoint (nm : string) (ci : cost_info) : option string :=
  match ci.1 with
  | [a; b] => if decide (a = nm) then Some b
              else if decide (b = nm) then Some a else None
  | _ => None
  end.

(** The link cost that the node called [nm] is given for one entry of
    [costs]: the other endpoint's name and the cost of the entry. *)
Definition link_cost_write (nm : string) (entry : string * cost_info)
  : option (string * cost_item) :=
  match other_endpoint nm entry.2 with
  | Some nb => Some (nb, Num entry.2.2)
  | None => None
  end.

(** The link costs that the node called [nm] is given, one for each
    midpoint whose entry includes [nm], in the order of [costs]. *)
Definition link_cost_writes (nm : string) (costs : list (string * cost_info))
  : list (string * cost_item) :=
  omap (link_cost_write nm) costs.

(** [link_cost[k] = v] for each [(k, v)] in turn. *)
Definition apply_writes (ws : list (string * cost_item)) (lc : gmap string cost_item)
  : gmap string cost_item :=
  fold_left (fun lc '(k, v) => <[k := v]> lc) ws lc.

Definition is_midpoint_type (ty : string) : bool :=
  match NodeType_of ty with
  | Some t => MIDPOINT_NODE_TYPES t
  | None => false
  end.

(** A node after its link costs are seeded and [init()] is called. *)
Definition seeded (init : routing_protocol → routing_protocol)
    (costs : list (string * cost_info)) (n : node) : node :=
  match network_manager n with
  | Some (DistributedRoutingProtocol lc i) =>
      with_routing
        (init (DistributedRoutingProtocol
                 (apply_writes (link_cost_writes (name n) costs) lc) i)) n
  | _ => n
  end.

Definition seeded_registry (init : routing_protocol → routing_protocol)
    (costs : list (string * cost_info)) (reg : registry) : registry :=
  map (fun '(ty, l) =>
         (ty, if is_midpoint_type ty then l else map (seeded init costs) l)) reg.

(** Every node of a type that is not a midpoint type runs the
    distributed protocol. *)
Definition distributed_discipline (reg : registry) : Prop :=
  ∀ ty l n, (ty, l) ∈ reg → is_midpoint_type ty = false → n ∈ l →
            ∃ lc i, network_manager n = Some (DistributedRoutingProtocol lc i).

(** The type strings are members of [NodeType]. *)
Definition known_types_cfg (c : config) : Prop :=
  ∀ nd, nd ∈ cfg_nodes c → is_Some (NodeType_of (nd_type nd)).
Definition known_types (reg : registry) : Prop :=
  ∀ ty l, (ty, l) ∈ reg → is_Some (NodeType_of ty).

(** [init()] leaves the link costs as they were seeded. *)
Definition init_keeps_link_cost (init : routing_protocol → routing_protocol) : Prop :=
  ∀ lc i, ∃ i', init (DistributedRoutingProtocol lc i) = DistributedRoutingProtocol lc i'.

(** The link costs of a node. *)
Definition link_cost_of (n : node) : option (gmap string cost_item) :=
  match network_manager n with
  | Some (DistributedRoutingProtocol lc _) => Some lc
  | _ => None
  end.

(** The quantum channel objects that end at [bsm], in creation order. *)
Definition channels_into (bsm : string) (qcs : list QuantumChannel) : list QuantumChannel :=
  filter (fun qc => qc_receiver qc = bsm) qcs.

(** The graph before the edges are added: the names of the declarations
    of a type that is not a midpoint type, in declaration order. *)
Definition declared_graph (c : config) : Graph :=
  fold_left (fun g nd => if is_midpoint_type (nd_type nd) then g
                         else add_node (nd_name nd) g)
            (cfg_nodes c) Graph_new.


(** The elements of a list in the order in which they first appear. *)
Fixpoint first_appearances (l : list string) : list string :=
  match l with
  | [] => []
  | x :: l' => x :: filter (fun y => y ≠ x) (first_appearances l')
  end.

(** The midpoints in the order in which their first quantum channel was
    created: the order of the entries of [costs]. *)
Definition midpoints_in_order (qcs : list QuantumChannel) : list string :=
  first_appearances (map qc_receiver qcs).

(** The entry of [costs] for the midpoint [bsm]: the senders of the
    channels into it, latest first, and the sum of their distances. *)
Definition cost_entry (bsm : string) (qcs : list QuantumChannel) : option cost_info :=
  match channels_into bsm qcs with
  | [] => None
  | q :: rest =>
      Some (rev (map qc_sender (q :: rest)),
            fold_left Qplus (map qc_distance rest) (qc_distance q))
  end.

(** A star: one spoke per leaf, a meet-in-the-middle connection between
    the center and the leaf, declared in either order, with its midpoint
    and the half distance of its two quantum channels. *)
Record spoke := {
  sp_leaf : string;
  sp_bsm : string;
  sp_half : Q;
  sp_attenuation : Q;
  sp_center_first : bool;
}.

Definition channel_object (src dst : string) (d att : Q) : QuantumChannel :=
  {| qc_name := "QC." +:+ src +:+ "." +:+ dst; qc_attenuation := att;
     qc_distance := d; qc_sender := src; qc_receiver := dst |}.

(** The two quantum channel objects of a spoke, in creation order. *)
Definition spoke_channels (center : string) (s : spoke) : list QuantumChannel :=
  let node1 := if sp_center_first s then center else sp_leaf s in
  let node2 := if sp_center_first s then sp_leaf s else center in
  [channel_object node1 (sp_bsm s) (sp_half s) (sp_attenuation s);
   channel_object node2 (sp_bsm s) (sp_half s) (sp_attenuation s)].

Definition star_channels (center : string) (spokes : list spoke) : list QuantumChannel :=
  flat_map (spoke_channels center) spokes.

(** The entry of [costs] for a spoke. *)
Definition spoke_entry (center : string) (s : spoke) : string * cost_info :=
  (sp_bsm s,
   (if sp_center_first s then [sp_leaf s; center] else [center; sp_leaf s],
    (sp_half s + sp_half s)%Q)).


(** A router class whose fresh instances run the distributed routing
    protocol, and an [init()] that marks the protocol as initialised. *)
Definition DistributedRouter : node_class :=
  {| cls_name := "QuantumRouter";
     cls_routing := Some (DistributedRoutingProtocol ∅ false) |}.
Definition distributed_NODE_TYPES : NODE_TYPES_t :=
  {[ "QuantumRouter" := DistributedRouter ]}.
Definition mark_initialised (r : routing_protocol) : routing_protocol :=
  match r with
  | DistributedRoutingProtocol lc _ => DistributedRoutingProtocol lc true
  | r => r
  end.

(** The star of [config_format_demo.py]: a center and two leaves, 500
    apart. *)
Definition star_qconnection (leaf : string) : qconnection :=
  {| qcn_node1 := "center"; qcn_node2 := leaf; qcn_attenuation := 1 # 100000;
     qcn_distance := 500; qcn_type := "meet_in_the_middle";
     qcn_seed := None; qcn_template := None |}.
Definition star_cconnection (leaf : string) : cconnection :=
  {| ccn_node1 := "center"; ccn_node2 := leaf;
     ccn_distance := None; ccn_delay := Some 500000000%Q |}.
Definition star_config : config :=
  {| cfg_nodes := [router_decl "center" 0; router_decl "end1" 1; router_decl "end2" 2];
     cfg_qconnections := [star_qconnection "end1"; star_qconnection "end2"];
     cfg_cconnections := [star_cconnection "end1"; star_cconnection "end2"];
     cfg_qchannels := Some [];
     cfg_cchannels := [];
     cfg_templates := ∅;
     cfg_local_memories := None; cfg_client_number := None;
     cfg_measurement_bases := None;
     cfg_memo_orch := no_flat_memo; cfg_memo_client := no_flat_memo |}.

Definition star_spokes : list spoke :=
  [{| sp_leaf := "end1"; sp_bsm := "BSM.center.end1.auto"; sp_half := 250;
      sp_attenuation := 1 # 100000; sp_center_first := true |};
   {| sp_leaf := "end2"; sp_bsm := "BSM.center.end2.auto"; sp_half := 250;
      sp_attenuation := 1 # 100000; sp_center_first := true |}].

Definition fresh_router (nm : string) : node :=
  new_node nm (FromNodeTypes DistributedRouter [] ∅)
           (Some (DistributedRoutingProtocol ∅ false)).

Definition star_registry : registry :=
  [("QuantumRouter", [fresh_router "center"; fresh_router "end1"; fresh_router "end2"])].

(** A partial network: the midpoints [mA] between r1 and r2 and [mB]
    between r1 and a router "ghost" that the config does not declare, so
    that only one quantum channel object ends at [mB]. *)
Definition partial_qchannel (src dst : string) (d : Q) : qchannel_decl :=
  {| qch_name := None; qch_source := src; qch_destination := dst;
     qch_distance := d; qch_attenuation := 1 # 100000 |}.

Definition partial_config : config :=
  {| cfg_nodes := [router_decl "r1" 0; router_decl "r2" 1;
                   plain_decl "mA" "BSMNode" 2; plain_decl "mB" "BSMNode" 3];
     cfg_qconnections := [];
     cfg_cconnections := [];
     cfg_qchannels :=
       Some [partial_qchannel "r1" "mA" 500; partial_qchannel "r2" "mA" 500;
             partial_qchannel "r1" "mB" 700; partial_qchannel "ghost" "mB" 700];
     cfg_cchannels := [];
     cfg_templates := ∅;
     cfg_local_memories := None; cfg_client_number := None;
     cfg_measurement_bases := None;
     cfg_memo_orch := no_flat_memo; cfg_memo_client := no_flat_memo |}.

(** Two midpoints between r1 and r2, the first with the total distance
    1000 and the second with 3000. *)
Definition twin_qconnection (n1 n2 : string) (d : Q) : qconnection :=
  {| qcn_node1 := n1; qcn_node2 := n2; qcn_attenuation := 1 # 100000;
     qcn_distance := d; qcn_type := "meet_in_the_middle";
     qcn_seed := None; qcn_template := None |}.

Definition twin_config : config :=
  {| cfg_nodes := [router_decl "r1" 0; router_decl "r2" 1];
     cfg_qconnections := [twin_qconnection "r1" "r2" 1000; twin_qconnection "r2" "r1" 3000];
     cfg_cconnections :=
       [{| ccn_node1 := "r1"; ccn_node2 := "r2";
           ccn_distance := None; ccn_delay := Some 500000000%Q |}];
     cfg_qchannels := Some [];
     cfg_cchannels := [];
     cfg_templates := ∅;
     cfg_local_memories := None; cfg_client_number := None;
     cfg_measurement_bases := None;
     cfg_memo_orch := no_flat_memo; cfg_memo_client := no_flat_memo |}.

(** ** Forwarding rules under the static discipline *)

(** The graph after [add_weighted_edges_from(costs.values())], when every
    entry lists two routers. *)
Definition with_edges (costs : list (string * cost_info)) (g : Graph) : Graph :=
  fold_left
    (fun g entry =>
       match entry.2.1 with
       | [u; v] => add_edge u v entry.2.2 g
       | _ => g
       end) costs g.

(** The cost graph of the generator. *)
Definition cost_graph (c : config) (qcs : list QuantumChannel) : Graph :=
  with_edges (BsmNetworkImpl.costs_of qcs) (declared_graph c).

(** A walk of the graph: a node, or nodes joined by edges. *)
Fixpoint is_walk (g : Graph) (p : list string) : Prop :=
  match p with
  | [] => False
  | [v] => v ∈ g_nodes g
  | u :: (v :: _) as p' => is_Some (edge_weight g u v) ∧ is_walk g p'
  end.

(** The total distance of a walk. *)
Fixpoint walk_weight (g : Graph) (p : list string) : Q :=
  match p with
  | u :: (v :: _) as p' => (default 0 (edge_weight g u v) + walk_weight g p')%Q
  | _ => 0%Q
  end.

Definition path_from_to (g : Graph) (s t : string) (p : list string) : Prop :=
  is_walk g p ∧ head p = Some s ∧ last p = Some t.

Definition reachable (g : Graph) (s t : string) : Prop :=
  ∃ p, path_from_to g s t p.

(** [p] leads from [s] to [t] and no walk from [s] to [t] is shorter. *)
Definition shortest_path (g : Graph) (s t : string) (p : list string) : Prop :=
  path_from_to g s t p ∧
  ∀ q, path_from_to g s t q → (walk_weight g p <= walk_weight g q)%Q.

(** What [networkx] documents of [dijkstra_path] on the graph [g], for
    nodes of [g]: it returns a shortest path by total weight, or raises
    [NetworkXNoPath] when the target cannot be reached. *)
Definition dijkstra_contract
    (dijkstra_path : Graph → string → string → outcome (list string))
    (g : Graph) : Prop :=
  ∀ s t, s ∈ g_nodes g → t ∈ g_nodes g →
    match dijkstra_path g s t with
    | Return p => shortest_path g s t p
    | Raise e => e = NetworkXNoPath ∧ ¬ reachable g s t
    end.

(** The second node of the path the generator computes from [src] to
    [dst]: the path from the smaller name to the greater one, reversed
    when [src] is the greater. *)
Definition next_hop (dijkstra_path : Graph → string → string → outcome (list string))
    (g : Graph) (src dst : string) : option string :=
  if decide (src = dst) then None
  else if String.ltb src dst then
    match dijkstra_path g src dst with
    | Return p => p !! 1%nat
    | Raise _ => None
    end
  else
    match dijkstra_path g dst src with
    | Return p => rev p !! 1%nat
    | Raise _ => None
    end.

(** The forwarding table after the rules for the destinations [dsts]. *)
Definition with_rules (dijkstra_path : Graph → string → string → outcome (list string))
    (g : Graph) (src : string) (dsts : list string) (tbl : gmap string string)
  : gmap string string :=
  fold_left
    (fun tbl dst =>
       match next_hop dijkstra_path g src dst with
       | Some hop => <[dst := hop]> tbl
       | None => tbl
       end) dsts tbl.

(** A node after the generator installed its rules. *)
Definition routed (dijkstra_path : Graph → string → string → outcome (list string))
    (g : Graph) (n : node) : node :=
  match network_manager n with
  | Some (StaticRoutingProtocol tbl) =>
      with_routing
        (StaticRoutingProtocol (with_rules dijkstra_path g (name n) (g_nodes g) tbl)) n
  | _ => n
  end.

Definition routed_registry
    (dijkstra_path : Graph → string → string → outcome (list string))
    (g : Graph) (reg : registry) : registry :=
  map (fun '(ty, l) =>
         (ty, if is_midpoint_type ty then l else map (routed dijkstra_path g) l)) reg.

(** Every node of a type that is not a midpoint type runs the static
    protocol. *)
Definition static_discipline (reg : registry) : Prop :=
  ∀ ty l n, (ty, l) ∈ reg → is_midpoint_type ty = false → n ∈ l →
            ∃ tbl, network_manager n = Some (StaticRoutingProtocol tbl).

(** The names that the config declares with a type that is not a
    midpoint type. *)
Definition endpoint_names (c : config) : list string :=
  map nd_name (filter (fun nd => is_midpoint_type (nd_type nd) = false) (cfg_nodes c)).

(** The endpoint node objects carry declared names. *)
Definition built_from (c : config) (reg : registry) : Prop :=
  ∀ ty l n, (ty, l) ∈ reg → is_midpoint_type ty = false → n ∈ l →
            name n ∈ endpoint_names c.

(** The forwarding table of a node. *)
Definition forwarding_table_of (n : node) : option (gmap string string) :=
  match network_manager n with
  | Some (StaticRoutingProtocol tbl) => Some tbl
  | _ => None
  end.

(** The edges of a graph go both ways with one weight, between nodes of
    the graph, and the nodes are listed once. *)
Definition well_formed (g : Graph) : Prop :=
  NoDup (g_nodes g) ∧
  (∀ u v, edge_weight g u v = edge_weight g v u) ∧
  (∀ u v, is_Some (edge_weight g u v) → u ∈ g_nodes g ∧ v ∈ g_nodes g).


(** The entry lists two routers, [u] and [v] in some order. *)
Definition joins (entry : string * cost_info) (u v : string) : Prop :=
  match entry.2.1 with
  | [a; b] => same_endpoints a b u v
  | _ => False
  end.

Global Instance joins_dec entry u v : Decision (joins entry u v).
Proof. unfold joins. destruct (entry.2.1) as [|a [|b [|? ?]]]; apply _. Defined.


(** The entries of [costs] between [u] and [v], in the order of
    [costs]. *)
Definition joining (costs : list (string * cost_info)) (u v : string)
  : list (string * cost_info) :=
  filter (fun e => joins e u v) costs.

(** A shortest-path routine to run the generator with: it enumerates the
    simple paths from [u] to [t] and keeps the first of the lightest. *)
Fixpoint simple_paths (g : Graph) (fuel : nat) (visited : list string) (u t : string)
  : list (list string) :=
  if decide (u = t) then [[t]]
  else
    match fuel with
    | O => []
    | S fuel =>
        flat_map
          (fun v =>
             if decide (is_Some (edge_weight g u v) ∧ v ∉ u :: visited)
             then map (cons u) (simple_paths g fuel (u :: visited) v t)
             else [])
          (g_nodes g)
    end.

Definition lighter (g : Graph) (best : option (list string)) (p : list string)
  : option (list string) :=
  match best with
  | None => Some p
  | Some b => if Qle_bool (walk_weight g b) (walk_weight g p) then Some b else Some p
  end.

Definition enumerate_shortest (g : Graph) (s t : string) : outcome (list string) :=
  if decide (s ∈ g_nodes g) then
    if decide (t ∈ g_nodes g) then
      match fold_left (lighter g) (simple_paths g (length (g_nodes g)) [] s t) None with
      | Some p => Return p
      | None => Raise NetworkXNoPath
      end
    else Raise (NodeNotFound t)
  else Raise (NodeNotFound s).

Definition bsm_impl_static : NetworkImpl :=
  BsmNetworkImpl.impl enumerate_shortest (fun r => r).

Definition mim_qconnection (n1 n2 : string) (d : Q) : qconnection :=
  {| qcn_node1 := n1; qcn_node2 := n2; qcn_attenuation := 1 # 100000;
     qcn_distance := d; qcn_type := "meet_in_the_middle";
     qcn_seed := None; qcn_template := None |}.
Definition delay_cconnection (n1 n2 : string) : cconnection :=
  {| ccn_node1 := n1; ccn_node2 := n2;
     ccn_distance := None; ccn_delay := Some 500000000%Q |}.

(** The chain A, B, C: A to B at distance 1000, B to C at distance
    2000. *)
Definition chain_config : config :=
  {| cfg_nodes := [router_decl "A" 0; router_decl "B" 1; router_decl "C" 2];
     cfg_qconnections := [mim_qconnection "A" "B" 1000; mim_qconnection "B" "C" 2000];
     cfg_cconnections := [delay_cconnection "A" "B"; delay_cconnection "B" "C"];
     cfg_qchannels := Some [];
     cfg_cchannels := [];
     cfg_templates := ∅;
     cfg_local_memories := None; cfg_client_number := None;
     cfg_measurement_bases := None;
     cfg_memo_orch := no_flat_memo; cfg_memo_client := no_flat_memo |}.

(** The quantum channel objects of the chain, in creation order. *)
Definition chain_channels : list QuantumChannel :=
  [channel_object "A" "BSM.A.B.auto" 500 (1 # 100000);
   channel_object "B" "BSM.A.B.auto" 500 (1 # 100000);
   channel_object "B" "BSM.B.C.auto" 1000 (1 # 100000);
   channel_object "C" "BSM.B.C.auto" 1000 (1 # 100000)].

Definition static_router (nm : string) : node :=
  new_node nm (FromNodeTypes QuantumRouter [] ∅) (Some (StaticRoutingProtocol ∅)).

Definition chain_registry : registry :=
  [("QuantumRouter", [static_router "A"; static_router "B"; static_router "C"])].

(** Two midpoints between r1 and r2, the first with the total distance
    1000 and the second with 3000, and a detour over r3 of 1000 + 1000. *)
Definition parallel_config : config :=
  {| cfg_nodes := [router_decl "r1" 0; router_decl "r2" 1; router_decl "r3" 2];
     cfg_qconnections :=
       [mim_qconnection "r1" "r2" 1000; mim_qconnection "r2" "r1" 3000;
        mim_qconnection "r1" "r3" 1000; mim_qconnection "r3" "r2" 1000];
     cfg_cconnections :=
       [delay_cconnection "r1" "r2"; delay_cconnection "r1" "r3";
        delay_cconnection "r3" "r2"];
     cfg_qchannels := Some [];
     cfg_cchannels := [];
     cfg_templates := ∅;
     cfg_local_memories := None; cfg_client_number := None;
     cfg_measurement_bases := None;
     cfg_memo_orch := no_flat_memo; cfg_memo_client := no_flat_memo |}.

(** Where the nodes of the chain lie along it. *)
Definition chain_position (x : string) : Q :=
  if decide (x = "A") then 0 else if decide (x = "B") then 1000 else 3000.

(** ** What a method leaves unchanged *)

(** [m] keeps [P], whether it returns or raises. *)
Definition keeps {S A} (P : S → Prop) (m : M S A) : Prop :=
  ∀ s, P s → P (m s).2.

(** Started in a state of [P], [m] raises, in a state of [P]. *)
Definition fails_from {S A} (P : S → Prop) (m : M S A) : Prop :=
  ∀ s, P s → ∃ e, (m s).1 = Raise e ∧ P (m s).2.

(** ** dqc_net_topo.py *)

(** [str(n)] for an int [n] *)
Definition str_of_int (n : Z) : string := NilZero.string_of_int (Z.to_int n).

Module DQCNetTopo.

(** A node declaration of a DQC config: the keys of every node
    declaration and the optional key "n_data". *)
Record dqc_node_decl := {
  dqc_decl : node_decl;
  nd_n_data : option Z;
}.

(** The body of [for _ in range(n_data)]; the state is [mapping] and
    [next_wire]. *)
Definition assign_wire (total_wires : Z) (nm : string)
  : M (list (Z * string) * Z) unit :=
  do st <- get;
  if decide (total_wires <= snd st)%Z then
    raise (ValueError ("Mapping overflow: more data qubits than "
                       +:+ str_of_int total_wires))
  else modify (fun '(mapping, next_wire) =>
                 (dict_set next_wire nm mapping, (next_wire + 1)%Z)).

(** [DQCNetTopo.infer_qubit_to_node]; [raw_nodes] is
    [self._raw_cfg["nodes"]]. *)
Definition infer_qubit_to_node (raw_nodes : list dqc_node_decl) (total_wires : Z)
  : outcome (list (Z * string)) :=
  match for_each raw_nodes
          (fun nd =>
             let nm := nd_name (dqc_decl nd) in
             let n_data := default 1%Z (nd_n_data nd) in
             for_each (replicate (Z.to_nat n_data) tt)
                      (fun _ => assign_wire total_wires nm))
          ([], 0%Z) with
  | (Return _, (mapping, next_wire)) =>
      if decide (next_wire ≠ total_wires) then
        Raise (ValueError ("Configured for " +:+ str_of_int next_wire
                           +:+ " wires but circuit has " +:+ str_of_int total_wires))
      else Return mapping
  | (Raise e, _) => Raise e
  end.

(** The body of [for q, owner in qubit_to_node.items()]. *)
Definition assign_slot (q : Z) (owner : string)
  : M (list (string * list (Z * Z))) unit :=
  do data_owners <- get;
  match dict_get owner data_owners with
  | None => raise (KeyError owner)
  | Some slots =>
      let slot := Z.of_nat (length slots) in
      modify (dict_set owner (dict_set q slot slots))
  end.

(** [DQCNetTopo.infer_memory_owners]; [nodes] is [self.nodes], whose keys
    are the type strings. [ancilla_inds] is not read. *)
Definition infer_memory_owners (raw_nodes : list dqc_node_decl) (nodes : registry)
    (total_wires : Z) (ancilla_inds : list Z)
  : outcome (list (string * list (Z * Z))) :=
  match infer_qubit_to_node raw_nodes total_wires with
  | Raise e => Raise e
  | Return qubit_to_node =>
      let data_owners : list (string * list (Z * Z)) :=
        fold_left (fun d nm => dict_set nm [] d) (map fst nodes) [] in
      match for_each qubit_to_node (fun '(q, owner) => assign_slot q owner)
                     data_owners with
      | (Return _, data_owners) => Return data_owners
      | (Raise e, _) => Raise e
      end
  end.

End DQCNetTopo.

(** The owner of each data qubit, in the order of the declarations. *)
Definition data_qubit_owners (raw_nodes : list DQCNetTopo.dqc_node_decl) : list string :=
  flat_map (fun nd => replicate (Z.to_nat (default 1%Z (DQCNetTopo.nd_n_data nd)))
                                (nd_name (DQCNetTopo.dqc_decl nd)))
           raw_nodes.

(** Wire [i] with the [i]-th owner, counting from [start]. *)
Fixpoint wires_from (start : Z) (owners : list string) : list (Z * string) :=
  match owners with
  | [] => []
  | o :: rest => (start, o) :: wires_from (start + 1)%Z rest
  end.

(** The wires of the node [ty] among the owners, from wire [start] on,
    each with its slot, the slots counted from [base]. *)
Fixpoint slots_from (ty : string) (start base : Z) (owners : list string)
  : list (Z * Z) :=
  match owners with
  | [] => []
  | o :: rest =>
      if decide (o = ty) then (start, base) :: slots_from ty (start + 1) (base + 1) rest
      else slots_from ty (start + 1) base rest
  end.

(** Two declarations with three data qubits, and the registry of a DQC
    network of two nodes with one midpoint. *)
Definition dqc_raw_nodes : list DQCNetTopo.dqc_node_decl :=
  [{| DQCNetTopo.dqc_decl := plain_decl "n1" "DQCNode" 0; DQCNetTopo.nd_n_data := Some 2%Z |};
   {| DQCNetTopo.dqc_decl := plain_decl "n2" "DQCNode" 1; DQCNetTopo.nd_n_data := None |}].

Definition DQCNode : node_class :=
  {| cls_name := "DQCNode"; cls_routing := Some (StaticRoutingProtocol ∅) |}.

Definition dqc_registry : registry :=
  [("DQCNode",
    [new_node "n1" (FromNodeTypes DQCNode [] ∅) (Some (StaticRoutingProtocol ∅));
     new_node "n2" (FromNodeTypes DQCNode [] ∅) (Some (StaticRoutingProtocol ∅))]);
   ("BSMNode", [new_node "BSM.n1.n2.auto" (BSMNode ["n1"; "n2"] ∅) None])].

(** ** const_topo.py: the check at import time *)

(** [frozenset(NodeType) - MIDPOINT_NODE_TYPES - ENDPOINT_NODE_TYPES] *)
Definition _unclassified : list NodeType :=
  filter (fun t => MIDPOINT_NODE_TYPES t = false ∧ ENDPOINT_NODE_TYPES t = false)
         all_NodeType.

(** ** network_impls.py: class [NoOpNetworkImpl] *)

Module NoOpNetworkImpl.

(** [NoOpNetworkImpl._create_node] *)
Definition _create_node (node_config : node_decl) (node_type : string)
    (tmpl : template) (tl : list string)
    (bsm_to_router_map : list (string * list string))
    (node_types : NODE_TYPES_t) : M (impl_state * registry) unit :=
  raise (NotImplementedError
           ("NoOpNetworkImpl does not create nodes. "
            +:+ "The topology must override _add_nodes itself.")).

(** The other methods are the no-ops of [NetworkImpl]. *)
Definition impl : NetworkImpl :=
  {| impl_add_parameters := fun _ _ => ret tt;
     impl_map_bsm_routers := fun _ => ret tt;
     impl_add_bsm_node_to_router := fun _ _ => ret tt;
     impl_handle_qconnection := fun _ _ => ret tt;
     impl_generate_forwarding_table := fun _ _ => ret tt;
     impl_ordered_node_dicts := fun node_list => node_list;
     impl_create_node := _create_node |}.

End NoOpNetworkImpl.

(** ** Definitions used to state further properties *)

(** The first quantum connection of the config that no classical
    channel and no classical connection of the config matches. *)
Definition first_unmatched (ar : arithmetic) (c : config) : option qconnection :=
  List.find (fun q => bool_decide (matching_delays ar c q = []))
            (cfg_qconnections c).

(** The family leaves quantum connections alone. *)
Definition ignores_qconnections (impl : NetworkImpl) : Prop :=
  ∀ q d c, impl_handle_qconnection impl q d c = (Return tt, c).

(** *** QLAN networks *)

(** A declaration of a client or of an orchestrator is in the config. *)
Definition has_qlan_node (c : config) : Prop :=
  ORCHESTRATOR_str ∈ map nd_type (cfg_nodes c) ∨ CLIENT_str ∈ map nd_type (cfg_nodes c).

Definition clients_of (c : config) : list node_decl :=
  filter (fun n => nd_type n = CLIENT_str) (cfg_nodes c).
Definition orchestrators_of (c : config) : list node_decl :=
  filter (fun n => nd_type n = ORCHESTRATOR_str) (cfg_nodes c).
Definition foreign_nodes_of (c : config) : list node_decl :=
  filter (fun n => nd_type n ∉ [CLIENT_str; ORCHESTRATOR_str]) (cfg_nodes c).

(** The "MemoryArray" entry of the template that a declaration names;
    empty when it names none, an undefined one, or one without the
    entry. *)
Definition memory_array_of (tpls : gmap string template) (nd : node_decl)
  : gmap string Q :=
  default ∅ (default ∅ (match nd_template nd with
                        | Some k => tpls !! k
                        | None => None
                        end) !! "MemoryArray").

(** The client node object of a declaration. *)
Definition client_object (tpls : gmap string template) (nd : node_decl) : node :=
  with_seed (nd_seed nd)
    (new_node (nd_name nd)
       (QlanClientNode 1 (Topology.memarray_params (memory_array_of tpls nd))) None).

(** The orchestrator node object of a declaration, given the local
    memory count, the measurement bases and the remote memories. *)
Definition orchestrator_object (tpls : gmap string template) (n_local : Z)
    (mb : string) (remote : list string) (nd : node_decl) : node :=
  with_seed (nd_seed nd)
    (with_bases mb
       (new_node (nd_name nd)
          (QlanOrchestratorNode n_local remote
             (Topology.memarray_params (memory_array_of tpls nd))) None)).

(** The entry of [nodes] for a type: none when no node of the type was
    appended. *)
Definition nodes_entry (ty : string) (l : list node) : registry :=
  match l with
  | [] => []
  | _ => [(ty, l)]
  end.

(** A QLAN config without template: a client and an orchestrator. *)
Definition qlan_pair_config : config :=
  {| cfg_nodes := [plain_decl "orch" "QlanOrchestratorNode" 0;
                   plain_decl "client1" "QlanClientNode" 1;
                   plain_decl "client2" "QlanClientNode" 2];
     cfg_qconnections := []; cfg_cconnections := [];
     cfg_qchannels := None; cfg_cchannels := [];
     cfg_templates := ∅;
     cfg_local_memories := Some 2%Z; cfg_client_number := Some 2%Z;
     cfg_measurement_bases := Some "xz";
     cfg_memo_orch := no_flat_memo; cfg_memo_client := no_flat_memo |}.

(** The same with a router in front. *)
Definition qlan_router_config : config :=
  set_cfg_nodes (fun l => l ++ [router_decl "r1" 3]) qlan_pair_config.

(** The implementor attributes after [QlanNetworkImpl._add_parameters]. *)
Definition qlan_impl_attrs (p : qlan_parameters) (i : impl_state) : impl_state :=
  {| _node_kwargs := _node_kwargs i;
     impl_n_local_memories := n_local_memories p;
     impl_meas_bases := meas_bases p;
     _remote_memories := [];
     orchestrator_nodes := [];
     client_nodes := [];
     remote_memories_array := [] |}.

(** The QLAN attributes that [Topology._add_qlan_parameters] resolves. *)
Definition resolved_qlan (c : config) (t : topology) : option qlan_parameters :=
  qlan (Topology._add_qlan_parameters c t).2.

(** *** Classical connections *)

(** The declaration of the classical channel from [src] to [dst] that a
    classical connection stands for: no name of its own. *)
Definition direction_of (cn : cconnection) (src dst : string) : cchannel_decl :=
  {| cch_name := None; cch_source := src; cch_destination := dst;
     cch_distance := ccn_distance cn; cch_delay := ccn_delay cn |}.

(** The two channel declarations that a classical connection stands
    for: from node1 to node2, then from node2 to node1. *)
Definition directions_of (cn : cconnection) : list cchannel_decl :=
  [direction_of cn (ccn_node1 cn) (ccn_node2 cn);
   direction_of cn (ccn_node2 cn) (ccn_node1 cn)].

(** The state of the pipeline of the QLAN family when the clients
    [clients] and then the orchestrators [orchs] have been constructed
    from the state [base]. *)
Definition qlan_built (base : topology) (clients orchs : list node_decl) : topology :=
  let i := impl_attrs base in
  {| raw_cfg := raw_cfg base;
     bsm_to_router_map := bsm_to_router_map base;
     nodes :=
       nodes_entry CLIENT_str (map (client_object (templates base)) clients)
       ++ nodes_entry ORCHESTRATOR_str
            (map (orchestrator_object (templates base) (impl_n_local_memories i)
                    (impl_meas_bases i) (_remote_memories i ++ map nd_name clients))
                 orchs);
     qchannels := qchannels base;
     cchannels := cchannels base;
     templates := templates base;
     qlan := qlan base;
     impl_attrs :=
       {| _node_kwargs := _node_kwargs i;
          impl_n_local_memories := impl_n_local_memories i;
          impl_meas_bases := impl_meas_bases i;
          _remote_memories := _remote_memories i ++ map nd_name clients;
          orchestrator_nodes := orchestrator_nodes i ++ map nd_name orchs;
          client_nodes := client_nodes i ++ map nd_name clients;
          remote_memories_array := remote_memories_array i ++ map nd_name clients |};
     tl_others := tl_others base |}.

(** The constructor of an orchestrator built after the clients
    [clients] accepts the local memory count: one less than the remote
    memories. *)
Definition memories_fit (base : topology) (clients : list node_decl) : Prop :=
  impl_n_local_memories (impl_attrs base)
  = (Z.of_nat (length (_remote_memories (impl_attrs base) ++ map nd_name clients)) - 1)%Z.

(** *** The wiring of midpoints and routers *)

(** What one entry of the midpoint map does to a node: at the first
    router the midpoint is registered under the second, and at the second
    under the first. *)
Definition wire_entry (bsm r0 r1 : string) (n : node) : node :=
  let n := if decide (name n = r0) then add_bsm_node bsm r1 n else n in
  if decide (name n = r1) then add_bsm_node bsm r0 n else n.

(** A node after the wiring of the map [m]. *)
Definition wired (m : list (string * list string)) (n : node) : node :=
  fold_left (fun n '(bsm, routers) =>
               match routers with
               | [r0; r1] => wire_entry bsm r0 r1 n
               | _ => n
               end) m n.

Definition map_nodes (f : node → node) (reg : registry) : registry :=
  map (fun '(ty, l) => (ty, map f l)) reg.

(** The entry of the midpoint map lists the node [nm] and the router [x],
    in either order. *)
Definition links_node (nm x : string) (e : string * list string) : Prop :=
  e.2 = [nm; x] ∨ e.2 = [x; nm].

Global Instance links_node_dec nm x e : Decision (links_node nm x e).
Proof. unfold links_node. apply _. Defined.

(** The midpoint that a node called [nm] knows under the router [x] after
    the wiring of the map [m], [old] being what it knew before: that of
    the last entry of [m] that lists the two. *)
Definition midpoint_towards (m : list (string * list string)) (nm x : string)
    (old : option string) : option string :=
  match last (filter (links_node nm x) m) with
  | Some e => Some e.1
  | None => old
  end.

(** *** The expansion of all the quantum connections *)

(** The config after the expansion of the connections [qs], each with
    the delay derived from the config as it stands when its turn comes. *)
Definition expand_all (ar : arithmetic) (qs : list qconnection) (c : config) : config :=
  fold_left (fun c q =>
               match derived_delay ar c q with
               | Some d => expanded q d c
               | None => c
               end) qs c.

(** The two quantum channels derived from a connection. *)
Definition derived_qchannels (q : qconnection) : list qchannel_decl :=
  [derived_qchannel q (qcn_node1 q); derived_qchannel q (qcn_node2 q)].

(** *** The demo of a new topology ([new_topology_demo.py]) *)

(** [YbRepeaterTopo.NODE_TYPES]; the demo's [YbNode] is [QuantumRouter]. *)
Definition YbRepeaterTopo_NODE_TYPES : NODE_TYPES_t := {[ "YbNode" := QuantumRouter ]}.

Definition yb_decl (nm : string) (sd : Z) : node_decl :=
  {| nd_name := nm; nd_type := "YbNode"; nd_seed := sd;
     nd_template := Some "yb_memory"; nd_memo_size := Some 10%Z;
     nd_data_memo_size := None |}.

Definition yb_qconnection (n1 n2 : string) : qconnection :=
  {| qcn_node1 := n1; qcn_node2 := n2; qcn_attenuation := 2 # 10000;
     qcn_distance := 10000; qcn_type := "meet_in_the_middle";
     qcn_seed := None; qcn_template := None |}.

Definition yb_cconnection (n1 n2 : string) : cconnection :=
  {| ccn_node1 := n1; ccn_node2 := n2;
     ccn_distance := None; ccn_delay := Some 50000000%Q |}.

(** The config that [build_yb_network_programmatic] hands to
    [CreateTopo]. *)
Definition yb_network_config : config :=
  {| cfg_nodes := [yb_decl "yb1" 0; yb_decl "yb2" 1; yb_decl "yb3" 2];
     cfg_qconnections := [yb_qconnection "yb1" "yb2"; yb_qconnection "yb2" "yb3"];
     cfg_cconnections := [yb_cconnection "yb1" "yb2"; yb_cconnection "yb2" "yb3"];
     cfg_qchannels := Some [];
     cfg_cchannels := [];
     cfg_templates :=
       {[ "yb_memory" :=
            MemoryArray_of {| fidelity := 99 # 100; frequency := 1000;
                              efficiency := 95 # 100; coherence_time := 20;
                              wavelength := 1389 |} ]};
     cfg_local_memories := None; cfg_client_number := None;
     cfg_measurement_bases := None;
     cfg_memo_orch := no_flat_memo; cfg_memo_client := no_flat_memo |}.

(** *** The node objects of the BSM family *)

(** The constructor arguments that [_add_parameters] harvests from a
    declaration. *)
Definition kwargs_of (nd : node_decl) : list (string * Z) :=
  match nd_memo_size nd with Some v => [(MEMO_ARRAY_SIZE, v)] | None => [] end
  ++ match nd_data_memo_size nd with Some v => [(DATA_MEMO_ARRAY_SIZE, v)] | None => [] end.

(** The template that a declaration names; empty when it names none or
    an undefined one. *)
Definition template_of (tpls : gmap string template) (nd : node_decl) : template :=
  default ∅ (match nd_template nd with
             | Some k => tpls !! k
             | None => None
             end).

(** The node object of a declaration, when the BSM family can construct
    it: a midpoint with the routers of its entry in the midpoint map, any
    other member of [NodeType] with its class of [NODE_TYPES] and the
    harvested arguments of its name. *)
Definition node_object (NODE_TYPES : NODE_TYPES_t)
    (kw : gmap string (list (string * Z))) (m : list (string * list string))
    (tpls : gmap string template) (nd : node_decl) : option node :=
  match NodeType_of (nd_type nd) with
  | Some BSM_NODE =>
      match assoc_lookup (nd_name nd) m with
      | Some others =>
          Some (with_seed (nd_seed nd)
                  (new_node (nd_name nd) (BSMNode others (template_of tpls nd)) None))
      | None => None
      end
  | Some _ =>
      match NODE_TYPES !! nd_type nd with
      | Some cls =>
          Some (with_seed (nd_seed nd)
                  (new_node (nd_name nd)
                     (FromNodeTypes cls (default [] (kw !! nd_name nd))
                        (template_of tpls nd))
                     (cls_routing cls)))
      | None => None
      end
  | None => None
  end.

(** [nodes] after the node objects of the declarations [decls] were
    appended to [reg]. *)
Definition registry_of (obj : node_decl → option node) (decls : list node_decl)
    (reg : registry) : registry :=
  fold_left (fun reg nd =>
               match obj nd with
               | Some n => registry_append (nd_type nd) n reg
               | None => reg
               end) decls reg.

Definition with_nodes (reg : registry) (t : topology) : topology :=
  {| raw_cfg := raw_cfg t; bsm_to_router_map := bsm_to_router_map t; nodes := reg;
     qchannels := qchannels t; cchannels := cchannels t;
     templates := templates t; qlan := qlan t; impl_attrs := impl_attrs t;
     tl_others := tl_others t |}.

(** The node object that the BSM family builds for a declaration when the
    constructor arguments are the ones of the declaration itself. *)
Definition declared_object (NODE_TYPES : NODE_TYPES_t) (m : list (string * list string))
    (tpls : gmap string template) (nd : node_decl) : option node :=
  node_object NODE_TYPES {[ nd_name nd := kwargs_of nd ]} m tpls nd.

(** The four routers and the midpoint of [create_topo_demo.py], with the
    midpoint map of its two explicit quantum channels. *)
Definition demo_nodes : list node_decl :=
  [{| nd_name := "e1"; nd_type := "QuantumRouter"; nd_seed := 0;
      nd_template := Some "perfect_memo"; nd_memo_size := Some 20%Z;
      nd_data_memo_size := None |};
   router_decl "e2" 1; router_decl "e3" 2; router_decl "e4" 3;
   plain_decl "bsm0" "BSMNode" 4].

Definition demo_templates : gmap string template :=
  {[ "perfect_memo" :=
       ({[ "MemoryArray" := ({[ "fidelity" := 1%Q ]} : gmap string Q) ]} : template) ]}.

(** The config with the classical connections [cns] in place of its
    own. *)
Definition with_cconnections (cns : list cconnection) (c : config) : config :=
  {| cfg_nodes := cfg_nodes c;
     cfg_qconnections := cfg_qconnections c;
     cfg_cconnections := cns;
     cfg_qchannels := cfg_qchannels c;
     cfg_cchannels := cfg_cchannels c;
     cfg_templates := cfg_templates c;
     cfg_local_memories := cfg_local_memories c;
     cfg_client_number := cfg_client_number c;
     cfg_measurement_bases := cfg_measurement_bases c;
     cfg_memo_orch := cfg_memo_orch c;
     cfg_memo_client := cfg_memo_client c |}.

(** Two routers and two classical connections between them, r1-r2 and
    r2-r1. *)
Definition cconnection_twice_config : config :=
  {| cfg_nodes := [router_decl "r1" 0; router_decl "r2" 1];
     cfg_qconnections := [];
     cfg_cconnections :=
       [{| ccn_node1 := "r1"; ccn_node2 := "r2";
           ccn_distance := Some 1000%Q; ccn_delay := None |};
        {| ccn_node1 := "r2"; ccn_node2 := "r1";
           ccn_distance := Some 1000%Q; ccn_delay := None |}];
     cfg_qchannels := Some [];
     cfg_cchannels := [];
     cfg_templates := ∅;
     cfg_local_memories := None; cfg_client_number := None;
     cfg_measurement_bases := None;
     cfg_memo_orch := no_flat_memo; cfg_memo_client := no_flat_memo |}.

(** * Properties *)

(** ** The monad *)

Lemma for_each_app {S B} (l1 l2 : list B) (body : B -> M S unit) (s : S) :
  for_each (l1 ++ l2) body s = (for_each l1 body >> for_each l2 body) s.
Proof.
  revert s. induction l1 as [|x l1 IH]; intros s; simpl.
  - reflexivity.
  - unfold bind in *. destruct (body x s) as [[[]|e] s']; [|reflexivity].
    apply IH.
Qed.

Lemma for_each_app_ok {S B} (l1 l2 : list B) (body : B -> M S unit) (s s1 : S) :
  for_each l1 body s = (Return tt, s1) →
  for_each (l1 ++ l2) body s = for_each l2 body s1.
Proof. intros H. rewrite for_each_app. unfold bind. by rewrite H. Qed.

Lemma for_each_cons {S B} (x : B) (l : list B) (body : B -> M S unit) (s : S) :
  for_each (x :: l) body s = (body x >> for_each l body) s.
Proof. reflexivity. Qed.

(** ** Frame lemmas *)

Lemma keeps_ret {S A} (P : S → Prop) (a : A) : keeps P (ret a).
Proof. by intros s. Qed.

Lemma keeps_raise {S A} (P : S → Prop) e : keeps P (raise (A := A) e).
Proof. by intros s. Qed.

Lemma keeps_lift {S A} (P : S → Prop) (o : outcome A) : keeps P (lift o).
Proof. by intros s. Qed.

Lemma keeps_get {S} (P : S → Prop) : keeps P get.
Proof. by intros s. Qed.

Lemma keeps_modify {S} (P : S → Prop) (f : S → S) :
  (∀ s, P s → P (f s)) → keeps P (modify f).
Proof. intros H s. apply H. Qed.

Lemma keeps_bind {S A B} (P : S → Prop) (m : M S A) (k : A → M S B) :
  keeps P m → (∀ a, keeps P (k a)) → keeps P (bind m k).
Proof.
  intros Hm Hk s Hs. unfold bind. specialize (Hm s Hs).
  destruct (m s) as [[a|e] s']; simpl in *; [by apply Hk|done].
Qed.

Lemma keeps_for_each {S B} (P : S → Prop) (l : list B) (body : B → M S unit) :
  (∀ x, x ∈ l → keeps P (body x)) → keeps P (for_each l body).
Proof.
  induction l as [|x l IH]; intros H; simpl.
  - apply keeps_ret.
  - apply keeps_bind; [apply H, list_elem_of_here|].
    intros _. apply IH. intros y Hy. apply H. by apply list_elem_of_further.
Qed.

Lemma keeps_zoom {S T A} (P : S → Prop) (Q : T → Prop)
    (proj : S → T) (upd : T → S → S) (m : M T A) :
  (∀ s, P s → Q (proj s)) →
  (∀ x s, P s → Q x → P (upd x s)) →
  keeps Q m → keeps P (zoom proj upd m).
Proof.
  intros Hp Hu Hm s Hs. unfold zoom.
  specialize (Hm (proj s) (Hp s Hs)).
  destruct (m (proj s)) as [r t']; simpl in *. by apply Hu.
Qed.

Lemma keeps_try_except {S} (P : S → Prop) (m : M S unit) catch :
  keeps P m → keeps P (try_except m catch).
Proof.
  intros Hm s Hs. unfold try_except. specialize (Hm s Hs).
  destruct (m s) as [[a|e] s']; simpl in *; [done|]. by destruct (catch e).
Qed.

Lemma keeps_True {S A} (m : M S A) : keeps (fun _ => True) m.
Proof. by intros s _. Qed.

Lemma fails_bind_l {S A B} (P : S → Prop) (m : M S A) (k : A → M S B) :
  fails_from P m → fails_from P (bind m k).
Proof.
  intros Hm s Hs. unfold bind. destruct (Hm s Hs) as (e & He & HP).
  destruct (m s) as [[a|e'] s']; simpl in *; [done|]. by exists e'.
Qed.

Lemma fails_bind_r {S A B} (P : S → Prop) (m : M S A) (k : A → M S B) :
  keeps P m → (∀ a, fails_from P (k a)) → fails_from P (bind m k).
Proof.
  intros Hm Hk s Hs. unfold bind. specialize (Hm s Hs).
  destruct (m s) as [[a|e'] s']; simpl in *; [by apply Hk|by exists e'].
Qed.

Lemma fails_bind_get {S B} (P : S → Prop) (k : S → M S B) :
  (∀ s, P s → ∃ e, (k s s).1 = Raise e ∧ P (k s s).2) →
  fails_from P (bind get k).
Proof. intros H s Hs. unfold bind, get. by apply H. Qed.

Lemma fails_for_each {S B} (P : S → Prop) (l : list B) (body : B → M S unit) (x : B) :
  x ∈ l →
  (∀ y, y ∈ l → keeps P (body y)) →
  fails_from P (body x) →
  fails_from P (for_each l body).
Proof.
  intros Hx Hk Hf. induction l as [|y l IH]; [by apply elem_of_nil in Hx|].
  simpl. apply elem_of_cons in Hx as [->|Hx].
  - by apply fails_bind_l.
  - apply fails_bind_r; [apply Hk, list_elem_of_here|].
    intros _. apply IH; [done|]. intros z Hz. apply Hk. by apply list_elem_of_further.
Qed.

Lemma fails_zoom {S T A} (P : S → Prop) (Q : T → Prop)
    (proj : S → T) (upd : T → S → S) (m : M T A) :
  (∀ s, P s → Q (proj s)) →
  (∀ x s, P s → Q x → P (upd x s)) →
  fails_from Q m → fails_from P (zoom proj upd m).
Proof.
  intros Hp Hu Hm s Hs. unfold zoom.
  destruct (Hm (proj s) (Hp s Hs)) as (e & He & HQ).
  destruct (m (proj s)) as [r t']; simpl in *. exists e. split; [done|]. by apply Hu.
Qed.

Ltac keeps_step :=
  lazymatch goal with
  | |- keeps _ (bind _ _) => apply keeps_bind; [|intros ?]
  | |- keeps _ get => apply keeps_get
  | |- keeps _ (ret _) => apply keeps_ret
  | |- keeps _ (raise _) => apply keeps_raise
  | |- keeps _ (lift _) => apply keeps_lift
  | |- keeps _ (try_except _ _) => apply keeps_try_except
  | |- keeps _ (for_each _ _) => apply keeps_for_each; intros ? ?
  | |- keeps _ (if ?b then _ else _) => destruct b
  | |- keeps _ (match ?x with _ => _ end) => destruct x
  end.

Lemma bind_returns {S A B} (m : M S A) (k : A → M S B) (s s' : S) (b : B) :
  bind m k s = (Return b, s') →
  ∃ a s1, m s = (Return a, s1) ∧ k a s1 = (Return b, s').
Proof.
  unfold bind. destruct (m s) as [[a|e] s1]; [|done]. intros H. by exists a, s1.
Qed.

Lemma keeps_zoom_frame {S T A} (P : S → Prop)
    (proj : S → T) (upd : T → S → S) (m : M T A) :
  (∀ x s, P s → P (upd x s)) → keeps P (zoom proj upd m).
Proof.
  intros H. apply (keeps_zoom P (fun _ => True)); [done| |apply keeps_True].
  intros x s Hs _. by apply H.
Qed.

Lemma keeps_run {S A} (P : S → Prop) (m : M S A) (s s' : S) (r : outcome A) :
  keeps P m → P s → m s = (r, s') → P s'.
Proof. intros H Hs E. specialize (H s Hs). by rewrite E in H. Qed.

(** The stages of the pipeline written over one attribute leave the
    others as they are. *)
Ltac frame_step :=
  first
    [ keeps_step
    | apply keeps_zoom_frame; intros ? [] ?; simpl in *; done
    | apply keeps_zoom_frame; intros [] [] ?; simpl in *; done
    | apply keeps_modify; intros [] ?; simpl in *; done ].

Ltac frame :=
  unfold Topology._get_templates, Topology._add_parameters,
    Topology._add_qlan_parameters, Topology._add_timeline, Topology._add_nodes,
    Topology._add_qchannels, Topology._add_cchannels, Topology._add_cconnections,
    Topology._add_protocols, on_config, on_bsm_to_router_map, on_nodes,
    Topology.install_qchannel, Topology._make_classical_channel,
    Topology.new_channel_entity, on_nodes_impl;
  repeat frame_step.


(** ** C6: the construction order of the QLAN family *)

Section FilterFacts.
Context {A : Type}.
Implicit Types (P Q : A -> Prop) (l : list A).

Lemma filter_filter_disjoint P Q `{!∀ x, Decision (P x)} `{!∀ x, Decision (Q x)} l :
  (∀ x, P x → Q x → False) → filter P (filter Q l) = [].
Proof.
  intros HPQ. induction l as [|x l IH]; [done|].
  rewrite (filter_cons Q). destruct (decide (Q x)) as [HQ|HQ]; [|done].
  rewrite filter_cons. destruct (decide (P x)); [|done].
  exfalso; eauto.
Qed.

Lemma filter_filter_same P `{!∀ x, Decision (P x)} l :
  filter P (filter P l) = filter P l.
Proof.
  induction l as [|x l IH]; [done|].
  rewrite (filter_cons P x l). destruct (decide (P x)) as [HP|HP]; [|done].
  rewrite filter_cons. destruct (decide (P x)); [|done]. by rewrite IH.
Qed.
End FilterFacts.

Lemma rank_client n : is_client n → construction_rank n = 1.
Proof. unfold is_client, construction_rank. intros ->. done. Qed.

Lemma rank_orchestrator n : is_orchestrator n → construction_rank n = 2.
Proof.
  unfold is_orchestrator, construction_rank. intros ->.
  rewrite decide_False; [|done]. by rewrite decide_True.
Qed.

Lemma rank_other n : is_other n → construction_rank n = 0.
Proof.
  unfold is_other, construction_rank. intros H.
  rewrite !decide_False; [done| |]; intros E; apply H; rewrite E.
  - apply list_elem_of_further, list_elem_of_here.
  - apply list_elem_of_here.
Qed.

Lemma three_groups n : is_other n ∨ is_client n ∨ is_orchestrator n.
Proof.
  unfold is_other, is_client, is_orchestrator.
  destruct (decide (nd_type n = CLIENT_str)); [by right; left|].
  destruct (decide (nd_type n = ORCHESTRATOR_str)); [by right; right|].
  left. intros [E|[E|[]%elem_of_nil]%elem_of_cons]%elem_of_cons; done.
Qed.

Lemma ordered_perm (l : list node_decl) : QlanNetworkImpl._ordered_node_dicts l ≡ₚ l.
Proof.
  unfold QlanNetworkImpl._ordered_node_dicts.
  induction l as [|a l IH]; [done|].
  rewrite !filter_cons.
  destruct (three_groups a) as [H|[H|H]].
  - pose proof H as H'. unfold is_other in H'.
    rewrite (decide_True (P := nd_type a ∉ _)); [|done].
    rewrite !decide_False; [by simpl; f_equiv| |]; intros E; apply H'; rewrite E.
    + apply list_elem_of_further, list_elem_of_here.
    + apply list_elem_of_here.
  - pose proof H as H'. unfold is_client in H'.
    rewrite (decide_True (P := nd_type a = CLIENT_str)); [|done].
    rewrite (decide_False (P := nd_type a = ORCHESTRATOR_str)); [|by rewrite H'].
    rewrite (decide_False (P := nd_type a ∉ _));
      [|rewrite H'; intros E; apply E, list_elem_of_here].
    symmetry. apply Permutation_cons_app. by symmetry.
  - pose proof H as H'. unfold is_orchestrator in H'.
    rewrite (decide_True (P := nd_type a = ORCHESTRATOR_str)); [|done].
    rewrite (decide_False (P := nd_type a = CLIENT_str)); [|by rewrite H'].
    rewrite (decide_False (P := nd_type a ∉ _));
      [|rewrite H'; intros E; apply E, list_elem_of_further, list_elem_of_here].
    symmetry. rewrite app_assoc. apply Permutation_cons_app.
    rewrite <- app_assoc. by symmetry.
Qed.

(** C6 (as amended): [QlanNetworkImpl._ordered_node_dicts], the order in
    which [_add_nodes] constructs the nodes of the QLAN family, is a
    rearrangement of the declarations that keeps the declaration order
    within the clients, within the orchestrators and within the other
    types, and that puts the declarations of every other type first, then
    the clients, then the orchestrators; so every client comes before
    every orchestrator. *)
Theorem C6_ordered_node_dicts (node_list : list node_decl) :
  let ordered := QlanNetworkImpl._ordered_node_dicts node_list in
  ordered ≡ₚ node_list ∧
  filter is_other ordered = filter is_other node_list ∧
  filter is_client ordered = filter is_client node_list ∧
  filter is_orchestrator ordered = filter is_orchestrator node_list ∧
  (∀ i j a b, ordered !! i = Some a → ordered !! j = Some b →
     construction_rank a < construction_rank b → i < j) ∧
  (∀ i j a b, ordered !! i = Some a → ordered !! j = Some b →
     is_client a → is_orchestrator b → i < j).
Proof.
  intros ordered.
  assert (Hsorted : ∀ i j a b, ordered !! i = Some a → ordered !! j = Some b →
     construction_rank a < construction_rank b → i < j).
  { subst ordered. unfold QlanNetworkImpl._ordered_node_dicts.
    fold is_client is_orchestrator is_other.
    intros i j a b Hi Hj Hr.
    assert (Hrk : ∀ k x, (filter is_other node_list ++ filter is_client node_list
                    ++ filter is_orchestrator node_list) !! k = Some x →
              (construction_rank x = 0 ∧ k < length (filter is_other node_list)) ∨
              (construction_rank x = 1 ∧ (length (filter is_other node_list) ≤ k
                 < length (filter is_other node_list) + length (filter is_client node_list))%nat) ∨
              (construction_rank x = 2 ∧
                 (length (filter is_other node_list) + length (filter is_client node_list) ≤ k)%nat)).
    { intros k x Hk.
      apply lookup_app_Some in Hk as [Hk|[Hge Hk]].
      - left. split; [|by eapply lookup_lt_Some].
        apply rank_other. apply list_elem_of_lookup_2 in Hk.
        by apply list_elem_of_filter in Hk as [? _].
      - apply lookup_app_Some in Hk as [Hk|[Hge' Hk]].
        + right; left. split.
          * apply rank_client. apply list_elem_of_lookup_2 in Hk.
            by apply list_elem_of_filter in Hk as [? _].
          * apply lookup_lt_Some in Hk. lia.
        + right; right. split; [|lia].
          apply rank_orchestrator. apply list_elem_of_lookup_2 in Hk.
          by apply list_elem_of_filter in Hk as [? _]. }
    destruct (Hrk _ _ Hi) as [[? ?]|[[? ?]|[? ?]]],
             (Hrk _ _ Hj) as [[? ?]|[[? ?]|[? ?]]]; lia. }
  split; [apply ordered_perm|].
  subst ordered. unfold QlanNetworkImpl._ordered_node_dicts in *.
  fold is_client is_orchestrator is_other in *.
  repeat split.
  - rewrite !filter_app, filter_filter_same.
    rewrite (filter_filter_disjoint is_other is_client),
            (filter_filter_disjoint is_other is_orchestrator);
      [by rewrite !app_nil_r| |]; intros x H1 H2.
    + apply rank_other in H1. apply rank_orchestrator in H2. congruence.
    + apply rank_other in H1. apply rank_client in H2. congruence.
  - rewrite !filter_app, filter_filter_same.
    rewrite (filter_filter_disjoint is_client is_other),
            (filter_filter_disjoint is_client is_orchestrator);
      [by rewrite app_nil_r| |]; intros x H1 H2.
    + apply rank_client in H1. apply rank_orchestrator in H2. congruence.
    + apply rank_client in H1. apply rank_other in H2. congruence.
  - rewrite !filter_app, filter_filter_same.
    rewrite (filter_filter_disjoint is_orchestrator is_other),
            (filter_filter_disjoint is_orchestrator is_client);
      [done| |]; intros x H1 H2.
    + apply rank_orchestrator in H1. apply rank_client in H2. congruence.
    + apply rank_orchestrator in H1. apply rank_other in H2. congruence.
  - exact Hsorted.
  - intros i j a b Hi Hj Ha Hb. eapply Hsorted; [done..|].
    rewrite (rank_client a Ha), (rank_orchestrator b Hb). lia.
Qed.

(** C6 (as stated) fails: a declaration of another type followed by a
    client is kept in that order, where the stated order puts the client
    first. *)
Lemma C6_stated_order_counterexample :
  QlanNetworkImpl._ordered_node_dicts [c6_router; c6_client] = [c6_router; c6_client] ∧
  clients_others_orchestrators [c6_router; c6_client] = [c6_client; c6_router] ∧
  QlanNetworkImpl._ordered_node_dicts [c6_router; c6_client]
    ≠ clients_others_orchestrators [c6_router; c6_client].
Proof. split; [|split]; [reflexivity|reflexivity|discriminate]. Qed.

(** ** C4: the expansion of a quantum connection *)

Lemma handle_qconnection_meet (q : qconnection) (cc_delay : Z) (c : config) :
  qcn_type q = MEET_IN_THE_MID →
  BsmNetworkImpl._handle_qconnection q cc_delay c = (Return tt, expanded q cc_delay c).
Proof.
  intros Hty. unfold BsmNetworkImpl._handle_qconnection.
  rewrite decide_True by done.
  destruct c as [ns qcn ccn qch cch tp lm cn mb mo mc].
  unfold expanded, bind, modify, for_each, ret, set_cfg_nodes, set_cfg_qchannels,
    set_cfg_cchannels, derived_qchannel, derived_cchannel, midpoint_decl,
    half_distance, bsm_name_of.
  cbn -[Qfloor Qdiv String.append inject_Z].
  by rewrite <- !app_assoc.
Qed.

Lemma handle_qconnection_other (q : qconnection) (cc_delay : Z) (c : config) :
  qcn_type q ≠ MEET_IN_THE_MID →
  BsmNetworkImpl._handle_qconnection q cc_delay c =
    (Raise (NotImplementedError
              ("Unknown quantum connection type '" +:+ qcn_type q +:+ "'")), c).
Proof.
  intros Hty. unfold BsmNetworkImpl._handle_qconnection.
  by rewrite decide_False by done.
Qed.

(** C4: for a quantum connection of kind "meet_in_the_middle" between [n1]
    and [n2], [BsmNetworkImpl._handle_qconnection] returns with the config
    extended by exactly one midpoint declaration of type "BSMNode" named
    "BSM.n1.n2.auto", the two quantum channels [n1] to midpoint and [n2]
    to midpoint, each with the integer half of the distance and the
    connection's attenuation, and the four classical channels between each
    endpoint and the midpoint in both directions, each with the derived
    delay; every other section is unchanged. For any other kind it raises
    [NotImplementedError] and the config is unchanged. *)
Theorem C4_handle_qconnection (q : qconnection) (cc_delay : Z) (c : config) :
  BsmNetworkImpl._handle_qconnection q cc_delay c =
    if decide (qcn_type q = "meet_in_the_middle")
    then (Return tt, expanded q cc_delay c)
    else (Raise (NotImplementedError
                   ("Unknown quantum connection type '" +:+ qcn_type q +:+ "'")), c).
Proof.
  destruct (decide (qcn_type q = "meet_in_the_middle")) as [H|H].
  - by apply handle_qconnection_meet.
  - by apply handle_qconnection_other.
Qed.

(** ** C3 and C10: the classical delay of a quantum connection *)

Lemma pair_set_eq (a b c d : string) :
  ({[ a; b ]} : gset string) = {[ c; d ]} ↔ same_endpoints a b c d.
Proof.
  unfold same_endpoints. split.
  - intros E.
    assert (Ha : a ∈ ({[ c; d ]} : gset string))
      by (rewrite <- E; apply elem_of_union; left; by apply elem_of_singleton).
    assert (Hb : b ∈ ({[ c; d ]} : gset string))
      by (rewrite <- E; apply elem_of_union; right; by apply elem_of_singleton).
    assert (Hc : c ∈ ({[ a; b ]} : gset string))
      by (rewrite E; apply elem_of_union; left; by apply elem_of_singleton).
    assert (Hd : d ∈ ({[ a; b ]} : gset string))
      by (rewrite E; apply elem_of_union; right; by apply elem_of_singleton).
    rewrite elem_of_union, !elem_of_singleton in Ha, Hb, Hc, Hd.
    destruct Ha, Hb, Hc, Hd;
    subst; auto.
  - intros [[-> ->]|[-> ->]]; [done|]. apply set_eq. intros x.
    rewrite !elem_of_union, !elem_of_singleton. tauto.
Qed.

Lemma cc_get_delay_contribution ar delay distance :
  cc_get_delay ar delay distance = contribution ar delay distance.
Proof. by destruct delay, distance. Qed.

Lemma scan_section_spec {D} ar (src_key dst_key : D → string)
    (delay distance : D → option Q) (a b : string) (section : list D) (acc : list Q) :
  scan_section ar src_key dst_key delay distance {[ a; b ]} section acc =
  acc ++ map (fun cc => contribution ar (delay cc) (distance cc))
             (filter (fun cc => same_endpoints (src_key cc) (dst_key cc) a b) section).
Proof.
  unfold scan_section. revert acc.
  induction section as [|cc section IH]; intros acc; simpl.
  - by rewrite app_nil_r.
  - rewrite IH, filter_cons.
    destruct (decide (({[src_key cc; dst_key cc]} : gset string) = {[a; b]})) as [E|E].
    + rewrite decide_True by (by apply pair_set_eq).
      simpl. by rewrite <- app_assoc, cc_get_delay_contribution.
    + rewrite decide_False; [done|]. intros H. by apply E, pair_set_eq.
Qed.

(** The list collected by the two loops is the list of the contributions
    of the matching declarations. *)
Lemma collect_cc_delay_spec ar (q : qconnection) (c : config) :
  collect_cc_delay ar q c = matching_delays ar c q.
Proof.
  unfold collect_cc_delay, matching_delays.
  by rewrite !scan_section_spec.
Qed.

Lemma expand_qconnection_spec ar impl (q : qconnection) (c : config) :
  Topology.expand_qconnection ar impl q c =
    match derived_delay ar c q with
    | None => (Raise (AssertionError q), c)
    | Some d => impl_handle_qconnection impl q d c
    end.
Proof.
  unfold Topology.expand_qconnection, derived_delay, bind, get.
  rewrite collect_cc_delay_spec.
  destruct (matching_delays ar c q) as [|d ds] eqn:E; [done|].
  rewrite decide_False by done. reflexivity.
Qed.

(** C3: when [_add_qconnections] comes to the quantum connection [q],
    the declarations before it having been expanded into the config [c_i],
    the delay it hands to the family for the derived classical channels is
    the integer half of the arithmetic mean of the contributions of every
    classical channel and classical connection of [c_i] between the
    endpoints of [q] (in either order), each contributing its explicit
    delay or else its distance divided by the propagation-speed constant;
    when [c_i] has no such declaration the expansion stops with the
    assertion error on [q]. The quotient and the mean are those of the
    arithmetic [ar] that computes them, whatever they round to; the half
    of the mean is cut down to an integer without rounding. With
    [BsmNetworkImpl] and a connection of kind "meet_in_the_middle", the
    config then is [c_i] expanded with that delay on its four derived
    classical channels. *)
Theorem C3_derived_delay (ar : arithmetic) (impl : NetworkImpl) (c c_i : config)
    (pre post : list qconnection) (q : qconnection) :
  cfg_qconnections c = pre ++ q :: post →
  for_each pre (Topology.expand_qconnection ar impl) c = (Return tt, c_i) →
  Topology._add_qconnections ar impl c =
    match matching_delays ar c_i q with
    | [] => (Raise (AssertionError q), c_i)
    | ds =>
        (impl_handle_qconnection impl q (Qfloor (np_mean ar ds / 2)) >>
         for_each post (Topology.expand_qconnection ar impl)) c_i
    end
  ∧ (∀ dij init ds,
       impl = BsmNetworkImpl.impl dij init →
       qcn_type q = "meet_in_the_middle" →
       matching_delays ar c_i q = ds → ds ≠ [] →
       for_each (pre ++ [q]) (Topology.expand_qconnection ar impl) c
         = (Return tt, expanded q (Qfloor (np_mean ar ds / 2)) c_i)).
Proof.
  intros Hq Hpre. split.
  - unfold Topology._add_qconnections, bind at 1, get.
    rewrite Hq, (for_each_app_ok _ _ _ _ _ Hpre), for_each_cons.
    unfold bind at 1. rewrite expand_qconnection_spec. unfold derived_delay.
    by destruct (matching_delays ar c_i q).
  - intros dij init ds -> Hty Hd Hne.
    rewrite (for_each_app_ok _ _ _ _ _ Hpre). simpl. unfold bind.
    rewrite expand_qconnection_spec. unfold derived_delay. rewrite Hd.
    destruct ds as [|d ds]; [done|]. simpl.
    by rewrite handle_qconnection_meet.
Qed.

(** A run of C3 in binary64 arithmetic: the connection r1-r2 with one
    classical connection r2-r1 of distance 1.2 and no delay, at the
    constant 2e-4. The quotient of the two floats is the float just below
    6000 and the derived delay is 2999. *)
Lemma C3_witness :
  matching_delays binary64 c3_float_config c3_qconnection
  = [div64 float_1_2 float_2e_4]
  ∧ (div64 float_1_2 float_2e_4 < 6000)%Q
  ∧ Topology._add_qconnections binary64 bsm_impl0 c3_float_config
    = (Return tt, expanded c3_qconnection 2999 c3_float_config).
Proof.
  split; [reflexivity|]. split; [by vm_compute|].
  destruct (C3_derived_delay binary64 bsm_impl0 c3_float_config
              c3_float_config [] [] c3_qconnection eq_refl eq_refl) as [H _].
  rewrite H. vm_compute. reflexivity.
Defined.

(** The same derivation with an explicit delay: the classical connection
    r2-r1 of delay 1e9 gives the derived delay 5e8. *)
Lemma C3_explicit_delay_example :
  Topology._add_qconnections binary64 bsm_impl0 c3_config
  = (Return tt, expanded c3_qconnection 500000000 c3_config).
Proof. vm_compute. reflexivity. Qed.

(** C10: a classical channel or classical connection between the
    endpoints of [q] that declares neither a delay nor a distance
    contributes 1000 divided by the propagation-speed constant to the list
    whose mean is halved: the list is not empty, so there is no error, and
    for a positive constant the contribution is positive, not zero. The
    quotient is the one the arithmetic [ar] computes; it is positive when
    the division rounds the exact quotient with a relative error of at
    most one half, as the division of floats does unless it underflows. *)
Theorem C10_default_distance (ar : arithmetic) (c : config) (q : qconnection) :
  (0 < SPEED_OF_LIGHT ar)%Q →
  (Qabs (truediv ar 1000 (SPEED_OF_LIGHT ar) - 1000 / SPEED_OF_LIGHT ar)
   <= (1 # 2) * (1000 / SPEED_OF_LIGHT ar))%Q →
  (∃ cc, cc ∈ cfg_cchannels c ∧
         same_endpoints (cch_source cc) (cch_destination cc) (qcn_node1 q) (qcn_node2 q) ∧
         cch_delay cc = None ∧ cch_distance cc = None)
  ∨ (∃ cn, cn ∈ cfg_cconnections c ∧
           same_endpoints (ccn_node1 cn) (ccn_node2 cn) (qcn_node1 q) (qcn_node2 q) ∧
           ccn_delay cn = None ∧ ccn_distance cn = None) →
  ∃ before after,
    collect_cc_delay ar q c
      = before ++ truediv ar 1000 (SPEED_OF_LIGHT ar) :: after ∧
    (0 < truediv ar 1000 (SPEED_OF_LIGHT ar))%Q ∧
    ∀ impl,
      Topology.expand_qconnection ar impl q c =
        impl_handle_qconnection impl q
          (Qfloor (np_mean ar (before ++ truediv ar 1000 (SPEED_OF_LIGHT ar) :: after) / 2))
          c.
Proof.
  intros Hpos Hround Hdecl.
  assert (Hin : truediv ar 1000 (SPEED_OF_LIGHT ar) ∈ collect_cc_delay ar q c).
  { rewrite collect_cc_delay_spec. unfold matching_delays.
    apply elem_of_app.
    destruct Hdecl as [(cc & Hcc & Hm & Hd & Hx)|(cn & Hcn & Hm & Hd & Hx)];
      [left|right]; apply list_elem_of_In, in_map_iff.
    - exists cc. split; [by rewrite Hd, Hx|].
      by apply list_elem_of_In, list_elem_of_filter.
    - exists cn. split; [by rewrite Hd, Hx|].
      by apply list_elem_of_In, list_elem_of_filter. }
  apply list_elem_of_split in Hin as (before & after & Hsplit).
  exists before, after. split; [done|]. split.
  - assert (Hq : (0 < 1000 / SPEED_OF_LIGHT ar)%Q)
      by (apply Qlt_shift_div_l; [done|lra]).
    apply Qabs_Qle_condition in Hround as [Hlow _]. lra.
  - intros impl. unfold Topology.expand_qconnection, halved_mean, bind, get.
    rewrite Hsplit. rewrite decide_False.
    + reflexivity.
    + rewrite length_app. simpl. lia.
Qed.

(** A run of C10 in binary64 arithmetic at the constant 2e-4: the
    classical connection r1-r2 declares neither delay nor distance and
    contributes 5000000, which makes the derived delay 2500000. *)
Lemma C10_witness :
  truediv binary64 1000 (SPEED_OF_LIGHT binary64) = 5000000%Q
  ∧ Topology.expand_qconnection binary64 bsm_impl0 c3_qconnection c10_config
    = (Return tt, expanded c3_qconnection 2500000 c10_config)
  ∧ ∃ before after,
    collect_cc_delay binary64 c3_qconnection c10_config
      = before ++ truediv binary64 1000 (SPEED_OF_LIGHT binary64) :: after ∧
    (0 < truediv binary64 1000 (SPEED_OF_LIGHT binary64))%Q ∧
    ∀ impl,
      Topology.expand_qconnection binary64 impl c3_qconnection c10_config =
        impl_handle_qconnection impl c3_qconnection
          (Qfloor (np_mean binary64
                     (before ++ truediv binary64 1000 (SPEED_OF_LIGHT binary64) :: after) / 2))
          c10_config.
Proof.
  split; [by vm_compute|]. split; [by vm_compute|].
  apply (C10_default_distance binary64 c10_config c3_qconnection).
  - reflexivity.
  - apply Qle_bool_imp_le. vm_compute. reflexivity.
  - right. eexists. split; [apply list_elem_of_here|].
    split; [left; split; reflexivity|]. split; reflexivity.
Defined.
(** ** C8: channel installation *)

Lemma get_entity_by_name_name (reg : registry) (tl : list string) (nm : string)
    (n : node) :
  get_entity_by_name reg tl nm = Some (NodeEntity n) → name n = nm.
Proof.
  unfold get_entity_by_name. intros H.
  destruct (List.find _ _) as [n'|] eqn:E.
  - injection H as <-. apply find_some in E as [_ E].
    by apply bool_decide_eq_true in E.
  - by destruct (bool_decide _).
Qed.

Lemma node_called_name (t : topology) (nm : string) (n : node) :
  node_called t nm = Some n → name n = nm.
Proof.
  unfold node_called. intros H.
  destruct (get_entity_by_name _ _ _) as [[n'|x]|] eqn:E; try done.
  injection H as <-. by eapply get_entity_by_name_name.
Qed.

(** A name that resolves to a node object still does when the timeline
    has gained other entities. *)
Lemma get_entity_by_name_node (reg : registry) (tl tl' : list string) (nm : string)
    (n : node) :
  get_entity_by_name reg tl nm = Some (NodeEntity n) →
  get_entity_by_name reg tl' nm = Some (NodeEntity n).
Proof.
  unfold get_entity_by_name. destruct (List.find _ _); [done|].
  by destruct (bool_decide _).
Qed.

Lemma get_entity_by_name_None (reg : registry) (tl : list string) (nm : string) :
  get_entity_by_name reg tl nm = None ↔ entity_name_taken reg tl nm = false.
Proof.
  unfold get_entity_by_name, entity_name_taken. split.
  - intros H. apply bool_decide_eq_false. intros [Hin|Hin]%elem_of_app.
    + apply list_elem_of_In, in_map_iff in Hin as (n & Hn & Hin).
      destruct (List.find _ _) eqn:E; [done|].
      eapply find_none in E; [|exact Hin].
      apply bool_decide_eq_false in E. done.
    + destruct (List.find _ _); [done|]. by rewrite bool_decide_eq_true_2 in H.
  - intros H. apply bool_decide_eq_false in H.
    destruct (List.find _ _) as [n|] eqn:E.
    + exfalso. apply H, elem_of_app. left. apply find_some in E as [Hin E].
      apply bool_decide_eq_true in E. subst nm.
      apply list_elem_of_In, in_map. exact Hin.
    + rewrite bool_decide_eq_false_2; [done|]. intros Hin. apply H, elem_of_app. by right.
Qed.

(** The two installers as one step on the state. *)
Lemma install_qchannel_step (qc : qchannel_decl) (t : topology) :
  Topology.install_qchannel qc t =
  match get_entity_by_name (nodes t) (tl_others t) (qch_source qc) with
  | None => (Return tt, t)
  | Some e =>
      if entity_name_taken (nodes t) (tl_others t) (qchannel_name qc)
      then (Raise (AssertionError_exists (qchannel_name qc)), t)
      else match e with
           | NodeEntity n => (Return tt, with_qchannel (qchannel_object n qc) t)
           | OtherEntity _ =>
               (Raise (AttributeError "assign_qchannel"),
                set_tl_others (tl_others t ++ [qchannel_name qc]) t)
           end
  end.
Proof.
  unfold Topology.install_qchannel, Topology.new_channel_entity, bind, get, modify,
    raise, ret.
  destruct (get_entity_by_name _ _ _) as [e|]; [|done].
  fold (qchannel_name qc).
  replace (default ("qc-" +:+ qch_source qc +:+ "-" +:+ qch_destination qc) (qch_name qc))
    with (qchannel_name qc) by (unfold qchannel_name; by destruct (qch_name qc)).
  destruct (entity_name_taken _ _ _); [done|]. by destruct e.
Qed.

Lemma make_classical_channel_step (cc : cchannel_decl) (t : topology) :
  Topology._make_classical_channel (cch_source cc) (cch_destination cc)
    (default (-1)%Q (cch_distance cc)) (default (-1)%Q (cch_delay cc)) (cch_name cc) t =
  match get_entity_by_name (nodes t) (tl_others t) (cch_source cc) with
  | None => (Return tt, t)
  | Some e =>
      if entity_name_taken (nodes t) (tl_others t) (cchannel_name cc)
      then (Raise (AssertionError_exists (cchannel_name cc)), t)
      else match e with
           | NodeEntity n => (Return tt, with_cchannel (cchannel_object n cc) t)
           | OtherEntity _ =>
               (Raise (AttributeError "assign_cchannel"),
                set_tl_others (tl_others t ++ [cchannel_name cc]) t)
           end
  end.
Proof.
  unfold Topology._make_classical_channel, Topology.new_channel_entity, bind, get,
    modify, raise, ret.
  destruct (get_entity_by_name _ _ _) as [e|]; [|done].
  fold (cchannel_name cc).
  destruct (entity_name_taken _ _ _); [done|]. by destruct e.
Qed.

(** *** A loop of installations *)

Section Installer.

Context {D : Type}.
Variables (src nm : D → string) (attr : string).
Variable put : node → D → topology → topology.
Variable step : D → M topology unit.

Hypothesis put_nodes : ∀ n d t, nodes (put n d t) = nodes t.
Hypothesis put_others : ∀ n d t, tl_others (put n d t) = tl_others t ++ [nm d].
Hypothesis step_eq : ∀ d t,
  step d t =
  match get_entity_by_name (nodes t) (tl_others t) (src d) with
  | None => (Return tt, t)
  | Some e =>
      if entity_name_taken (nodes t) (tl_others t) (nm d)
      then (Raise (AssertionError_exists (nm d)), t)
      else match e with
           | NodeEntity n => (Return tt, put n d t)
           | OtherEntity _ =>
               (Raise (AttributeError attr), set_tl_others (tl_others t ++ [nm d]) t)
           end
  end.

Lemma node_called_put (n : node) (d : D) (t : topology) (x : string) :
  entity_name_taken (nodes t) (tl_others t) (nm d) = false →
  node_called (put n d t) x = node_called t x.
Proof.
  intros Hfree. unfold node_called, get_entity_by_name.
  rewrite put_nodes, put_others.
  destruct (List.find _ _); [done|].
  destruct (bool_decide (x ∈ tl_others t)) eqn:E1,
           (bool_decide (x ∈ tl_others t ++ [nm d])) eqn:E2; done.
Qed.

Lemma installable_tail (t : topology) (d : D) (decls : list D) :
  installable src nm t (d :: decls) →
  match node_called t (src d) with
  | Some n => installable src nm (put n d t) decls
  | None => installable src nm t decls
  end.
Proof.
  unfold installable. cbn zeta. rewrite filter_cons.
  intros (Hother & Hnd & Hfree & Hsrc).
  destruct (node_called t (src d)) as [n|] eqn:En.
  - rewrite decide_True in Hnd, Hfree, Hsrc by done. cbn [map] in *.
    apply NoDup_cons in Hnd as [Hd Hnd].
    assert (Hd_free : entity_name_taken (nodes t) (tl_others t) (nm d) = false)
      by apply Hfree, list_elem_of_here.
    assert (Hsame : ∀ x, node_called (put n d t) x = node_called t x)
      by (intros x; by apply node_called_put).
    assert (Hfilter : filter (fun d0 => is_Some (node_called (put n d t) (src d0))) decls
                      = filter (fun d0 => is_Some (node_called t (src d0))) decls).
    { apply list_filter_iff. intros x. by rewrite Hsame. }
    rewrite Hfilter. repeat split.
    + intros d' Hin [x Hx]. unfold get_entity_by_name in Hx.
      rewrite put_nodes, put_others in Hx.
      destruct (List.find _ _) as [n'|] eqn:Ef; [done|].
      destruct (bool_decide (src d' ∈ tl_others t ++ [nm d])) eqn:Eb; [|done].
      apply bool_decide_eq_true in Eb. apply elem_of_app in Eb as [Eb|Eb].
      * apply (Hother d'); [by apply list_elem_of_further|].
        exists (src d'). unfold get_entity_by_name. rewrite Ef.
        by rewrite bool_decide_eq_true_2.
      * apply elem_of_cons in Eb as [Eb|Eb]; [|by apply elem_of_nil in Eb].
        destruct (Hsrc d') as [n'' Hn'']; [by apply list_elem_of_further| |].
        { rewrite Eb. apply list_elem_of_here. }
        unfold node_called, get_entity_by_name in Hn''. rewrite Ef in Hn''.
        by destruct (bool_decide _).
    + done.
    + intros x Hx. unfold entity_name_taken. rewrite put_nodes, put_others.
      apply bool_decide_eq_false. intros Hin.
      assert (Hx_free := Hfree x (list_elem_of_further _ _ _ Hx)).
      apply bool_decide_eq_false in Hx_free. apply Hx_free.
      rewrite (assoc_L (++)) in Hin. apply elem_of_app in Hin as [Hin|Hin]; [done|].
      apply elem_of_cons in Hin as [->|Hin]; [done|by apply elem_of_nil in Hin].
    + intros d' Hin Hc. rewrite Hsame. apply Hsrc; [by apply list_elem_of_further|].
      by apply list_elem_of_further.
  - rewrite decide_False in Hnd, Hfree, Hsrc by (intros [? ?]; done).
    repeat split; try done.
    + intros d' Hin. apply Hother. by apply list_elem_of_further.
    + intros d' Hin. apply Hsrc. by apply list_elem_of_further.
Qed.

(** Installable declarations are installed one after the other without
    an error. *)
Lemma install_all (decls : list D) (t : topology) :
  installable src nm t decls →
  for_each decls step t = (Return tt, installed src put t decls).
Proof.
  revert t. induction decls as [|d decls IH]; intros t Hok; [done|].
  pose proof (installable_tail t d decls Hok) as Htail.
  destruct Hok as (Hother & Hnd & Hfree & Hsrc). cbn zeta in Hnd, Hfree, Hsrc.
  rewrite for_each_cons. unfold installed. cbn [fold_left].
  unfold bind. rewrite step_eq. unfold node_called in *.
  destruct (get_entity_by_name (nodes t) (tl_others t) (src d)) as [[n|x]|] eqn:E.
  - rewrite filter_cons, decide_True in Hfree by (unfold node_called; by rewrite E).
    rewrite (Hfree (nm d)) by apply list_elem_of_here.
    by apply IH.
  - exfalso. apply (Hother d); [apply list_elem_of_here|]. by exists x.
  - by apply IH.
Qed.

(** The loop at one declaration: [pre] was installed without an error
    and left the state [t_i]. *)
Lemma install_at (pre post : list D) (d : D) (t t_i : topology) :
  for_each pre step t = (Return tt, t_i) →
  for_each (pre ++ d :: post) step t =
  match get_entity_by_name (nodes t_i) (tl_others t_i) (src d) with
  | None => for_each post step t_i
  | Some e =>
      if entity_name_taken (nodes t_i) (tl_others t_i) (nm d)
      then (Raise (AssertionError_exists (nm d)), t_i)
      else match e with
           | NodeEntity n => for_each post step (put n d t_i)
           | OtherEntity _ =>
               (Raise (AttributeError attr), set_tl_others (tl_others t_i ++ [nm d]) t_i)
           end
  end.
Proof.
  intros Hpre. rewrite (for_each_app_ok _ _ _ _ _ Hpre), for_each_cons.
  unfold bind. rewrite step_eq.
  destruct (get_entity_by_name _ _ _) as [[n|x]|]; [|by destruct (entity_name_taken _ _ _)|done].
  by destruct (entity_name_taken _ _ _).
Qed.

End Installer.

Lemma node_called_with_qchannel (ch : QuantumChannel) (t : topology) (x : string) :
  entity_name_taken (nodes t) (tl_others t) (qc_name ch) = false →
  node_called (with_qchannel ch t) x = node_called t x.
Proof.
  intros Hfree. unfold node_called, get_entity_by_name, with_qchannel. cbn.
  destruct (List.find _ _); [done|].
  destruct (bool_decide (x ∈ tl_others t)) eqn:E1,
           (bool_decide (x ∈ tl_others t ++ [qc_name ch])) eqn:E2; done.
Qed.

Lemma node_called_with_cchannel (ch : ClassicalChannel) (t : topology) (x : string) :
  entity_name_taken (nodes t) (tl_others t) (cc_name ch) = false →
  node_called (with_cchannel ch t) x = node_called t x.
Proof.
  intros Hfree. unfold node_called, get_entity_by_name, with_cchannel. cbn.
  destruct (List.find _ _); [done|].
  destruct (bool_decide (x ∈ tl_others t)) eqn:E1,
           (bool_decide (x ∈ tl_others t ++ [cc_name ch])) eqn:E2; done.
Qed.

Lemma created_qchannels_ext (t t' : topology) (decls : list qchannel_decl) :
  (∀ x, node_called t' x = node_called t x) →
  created_qchannels t' decls = created_qchannels t decls.
Proof.
  intros H. unfold created_qchannels. induction decls as [|d decls IH]; [done|].
  cbn [omap list_omap]. by rewrite H, IH.
Qed.

Lemma created_cchannels_ext (t t' : topology) (decls : list cchannel_decl) :
  (∀ x, node_called t' x = node_called t x) →
  created_cchannels t' decls = created_cchannels t decls.
Proof.
  intros H. unfold created_cchannels. induction decls as [|d decls IH]; [done|].
  cbn [omap list_omap]. by rewrite H, IH.
Qed.

Lemma installed_cons {D} (src : D → string) (put : node → D → topology → topology)
    (t : topology) (d : D) (decls : list D) :
  installed src put t (d :: decls)
  = installed src put (match node_called t (src d) with
                       | Some n => put n d t
                       | None => t
                       end) decls.
Proof. reflexivity. Qed.

(** The state that installable quantum channel declarations leave. *)
Lemma installed_qchannels (decls : list qchannel_decl) (t : topology) :
  installable qch_source qchannel_name t decls →
  installed qch_source (fun n qc => with_qchannel (qchannel_object n qc)) t decls
  = set_qchannels (qchannels t ++ created_qchannels t decls)
      (set_tl_others (tl_others t ++ map qc_name (created_qchannels t decls)) t).
Proof.
  revert t. induction decls as [|d decls IH]; intros t Hok.
  - unfold installed, created_qchannels. cbn. rewrite !app_nil_r. by destruct t.
  - pose proof (installable_tail qch_source qchannel_name
                  (fun n qc => with_qchannel (qchannel_object n qc))
                  (fun _ _ _ => eq_refl) (fun _ _ _ => eq_refl) t d decls Hok) as Htail.
    destruct Hok as (_ & _ & Hfree & _). cbn zeta in Hfree.
    rewrite installed_cons.
    unfold created_qchannels at 1 2. cbn [omap list_omap].
    fold (created_qchannels t decls).
    destruct (node_called t (qch_source d)) as [n|] eqn:En; cbn [fmap option_fmap option_map].
    + rewrite filter_cons, decide_True in Hfree by (by rewrite En).
      specialize (Hfree _ (list_elem_of_here _ _)).
      rewrite (IH _ Htail).
      rewrite (created_qchannels_ext t) by (intros x; by apply node_called_with_qchannel).
      unfold with_qchannel, set_qchannels, set_tl_others. cbn.
      by rewrite <- !(assoc_L (++)).
    + by apply IH.
Qed.

Lemma installed_cchannels (decls : list cchannel_decl) (t : topology) :
  installable cch_source cchannel_name t decls →
  installed cch_source (fun n cc => with_cchannel (cchannel_object n cc)) t decls
  = set_cchannels (cchannels t ++ created_cchannels t decls)
      (set_tl_others (tl_others t ++ map cc_name (created_cchannels t decls)) t).
Proof.
  revert t. induction decls as [|d decls IH]; intros t Hok.
  - unfold installed, created_cchannels. cbn. rewrite !app_nil_r. by destruct t.
  - pose proof (installable_tail cch_source cchannel_name
                  (fun n cc => with_cchannel (cchannel_object n cc))
                  (fun _ _ _ => eq_refl) (fun _ _ _ => eq_refl) t d decls Hok) as Htail.
    destruct Hok as (_ & _ & Hfree & _). cbn zeta in Hfree.
    rewrite installed_cons.
    unfold created_cchannels at 1 2. cbn [omap list_omap].
    fold (created_cchannels t decls).
    destruct (node_called t (cch_source d)) as [n|] eqn:En; cbn [fmap option_fmap option_map].
    + rewrite filter_cons, decide_True in Hfree by (by rewrite En).
      specialize (Hfree _ (list_elem_of_here _ _)).
      rewrite (IH _ Htail).
      rewrite (created_cchannels_ext t) by (intros x; by apply node_called_with_cchannel).
      unfold with_cchannel, set_cchannels, set_tl_others. cbn.
      by rewrite <- !(assoc_L (++)).
    + by apply IH.
Qed.

(** *** The claim *)


(** A run of the installers: the connection r1-r2 of [c3_config] is
    expanded into two quantum and four classical channel declarations and
    its classical connection stands for two more channels; every source is
    a node object and the eight names differ, so eight channel objects
    exist at the end. *)
Lemma C8_installation_example :
  match CreateTopo binary64 bsm_impl0 RouterNetTopo_NODE_TYPES c3_config with
  | Return t =>
      map (fun ch => (qc_name ch, qc_sender ch, qc_receiver ch)) (qchannels t)
      = [("QC.r1.BSM.r1.r2.auto", "r1", "BSM.r1.r2.auto");
         ("QC.r2.BSM.r1.r2.auto", "r2", "BSM.r1.r2.auto")]
      ∧ map (fun ch => (cc_name ch, cc_sender ch, cc_receiver ch)) (cchannels t)
        = [("CC.r1.BSM.r1.r2.auto", "r1", "BSM.r1.r2.auto");
           ("CC.BSM.r1.r2.auto.r1", "BSM.r1.r2.auto", "r1");
           ("CC.r2.BSM.r1.r2.auto", "r2", "BSM.r1.r2.auto");
           ("CC.BSM.r1.r2.auto.r2", "BSM.r1.r2.auto", "r2");
           ("cc-r2-r1", "r2", "r1"); ("cc-r1-r2", "r1", "r2")]
      ∧ tl_others t = map qc_name (qchannels t) ++ map cc_name (cchannels t)
  | Raise _ => False
  end.
Proof. vm_compute. repeat split; reflexivity. Qed.

(** C8 (as stated) fails in two ways. The two classical channels of
    [c8_twice_config] have the source r1, which resolves to a node object,
    and no name: the second would be another entity called cc-r1-r2, the
    timeline refuses it and the pipeline stops with one channel object
    where the claim has two and no error. In [c8_channel_source_config]
    the source of the second channel is the name of the first channel: it
    does not resolve to a node object, yet the declaration is not skipped,
    the pipeline stops with the attribute error of [set_ends]. *)
Lemma C8_refused_channel_counterexample :
  (Topology._run_pipeline binary64 bsm_impl0 RouterNetTopo_NODE_TYPES
     (_setup c8_twice_config)).1
  = Raise (AssertionError_exists "cc-r1-r2")
  ∧ map name
      (all_nodes
         (nodes (Topology._run_pipeline binary64 bsm_impl0 RouterNetTopo_NODE_TYPES
                   (_setup c8_twice_config)).2))
    = ["r1"; "r2"]
  ∧ map cc_name
      (cchannels (Topology._run_pipeline binary64 bsm_impl0 RouterNetTopo_NODE_TYPES
                    (_setup c8_twice_config)).2)
    = ["cc-r1-r2"]
  ∧ (Topology._run_pipeline binary64 bsm_impl0 RouterNetTopo_NODE_TYPES
       (_setup c8_channel_source_config)).1
    = Raise (AttributeError "assign_cchannel")
  ∧ map name
      (all_nodes
         (nodes (Topology._run_pipeline binary64 bsm_impl0 RouterNetTopo_NODE_TYPES
                   (_setup c8_channel_source_config)).2))
    = ["r1"; "r2"]
  ∧ map cc_name
      (cchannels (Topology._run_pipeline binary64 bsm_impl0 RouterNetTopo_NODE_TYPES
                    (_setup c8_channel_source_config)).2)
    = ["link"].
Proof. vm_compute. repeat split; reflexivity. Qed.

(** ** C5: unregistered node types *)

Lemma NodeType_of_BSM (ty : string) :
  NodeType_of ty = Some BSM_NODE → ty = "BSMNode".
Proof.
  unfold NodeType_of. intros H. apply find_some in H as [_ H].
  apply bool_decide_eq_true in H. by rewrite <- H.
Qed.

Lemma create_node_unregistered (NODE_TYPES : NODE_TYPES_t) (nd : node_decl)
    (tmpl : template) (tl : list string) (m : list (string * list string))
    (st : impl_state * registry) :
  nd_type nd ≠ "BSMNode" → NODE_TYPES !! nd_type nd = None →
  BsmNetworkImpl._create_node nd (nd_type nd) tmpl tl m NODE_TYPES st
  = (Raise (unregistered_error (nd_type nd)), st).
Proof.
  intros Hb Hn. unfold BsmNetworkImpl._create_node, unregistered_error, as_NodeType.
  destruct (NodeType_of (nd_type nd)) as [t|] eqn:E; [|reflexivity].
  unfold bind at 1, ret.
  destruct t; try (unfold bind; rewrite Hn; reflexivity).
  by apply NodeType_of_BSM in E.
Qed.

Lemma handle_qconnection_keeps_nodes (nd : node_decl) q d :
  keeps (fun c => nd ∈ cfg_nodes c) (BsmNetworkImpl._handle_qconnection q d).
Proof.
  intros c Hc. destruct (decide (qcn_type q = MEET_IN_THE_MID)) as [H|H].
  - rewrite handle_qconnection_meet by done. simpl. apply elem_of_app. by left.
  - by rewrite handle_qconnection_other by done.
Qed.

Section UnregisteredType.

Variable ar : arithmetic.
Variable dijkstra_path : Graph → string → string → outcome (list string).
Variable init : routing_protocol → routing_protocol.
Variable NODE_TYPES : NODE_TYPES_t.
Variable nd : node_decl.
Hypothesis not_midpoint : nd_type nd ≠ "BSMNode".
Hypothesis unregistered : NODE_TYPES !! nd_type nd = None.

Let impl := BsmNetworkImpl.impl dijkstra_path init.

(** The declaration is in the config and no channel object exists. *)
Let P (t : topology) : Prop := nd ∈ cfg_nodes (raw_cfg t) ∧ no_channels t.

Lemma add_parameters_keeps : ∀ c, keeps P (Topology._add_parameters impl c).
Proof.
  intros c. unfold Topology._add_parameters, Topology._add_qlan_parameters.
  repeat keeps_step; try (apply keeps_modify; intros s Hs; exact Hs).
  all: apply (keeps_zoom P (fun _ => True)); [done|by intros ? ? ? _|apply keeps_True].
Qed.

Lemma add_qconnections_keeps : keeps P (on_config (Topology._add_qconnections ar impl)).
Proof.
  apply (keeps_zoom P (fun c => nd ∈ cfg_nodes c)).
  - by intros s [H _].
  - intros c s [_ H] Hc. by split.
  - unfold Topology._add_qconnections, Topology.expand_qconnection.
    repeat keeps_step. apply handle_qconnection_keeps_nodes.
Qed.

Lemma create_node_fails (t0 : topology) (tmpl : template) :
  fails_from P
    (on_nodes_impl
       (impl_create_node impl nd (nd_type nd) tmpl (tl_others t0)
                         (bsm_to_router_map t0) NODE_TYPES)).
Proof.
  intros s Hs. unfold on_nodes_impl, zoom. simpl.
  rewrite create_node_unregistered by done. simpl.
  eexists. split; [reflexivity|]. by destruct s.
Qed.

Lemma add_nodes_fails :
  fails_from P (do t <- get; Topology._add_nodes impl NODE_TYPES (raw_cfg t)).
Proof.
  apply fails_bind_get. intros s Hs.
  unfold Topology._add_nodes. simpl.
  eapply (fails_for_each P _ _ nd); [by destruct Hs| |idtac|exact Hs].
  - intros y _. keeps_step; [apply keeps_get|].
    apply (keeps_zoom P (fun _ => True)); [done| |apply keeps_True].
    intros [i r] s' Hs' _. exact Hs'.
  - apply fails_bind_get. intros s' Hs'. by apply create_node_fails.
Qed.

Lemma run_pipeline_fails :
  fails_from P (Topology._run_pipeline ar impl NODE_TYPES).
Proof.
  unfold Topology._run_pipeline.
  apply fails_bind_r.
  { keeps_step; [apply keeps_get|]. apply keeps_modify. by intros s Hs. }
  intros _. apply fails_bind_r.
  { keeps_step; [apply keeps_get|]. apply add_parameters_keeps. }
  intros _. apply fails_bind_r; [apply add_qconnections_keeps|].
  intros _. apply fails_bind_r.
  { keeps_step; [apply keeps_get|]. apply keeps_modify. by intros [] ?. }
  intros _. apply fails_bind_r.
  { keeps_step; [apply keeps_get|].
    apply (keeps_zoom P (fun _ => True)); [done|by intros ? ? ? _|apply keeps_True]. }
  intros _. apply fails_bind_l, add_nodes_fails.
Qed.

End UnregisteredType.

(** C5 (as amended): a node declaration whose type is not "BSMNode" and
    has no entry in [NODE_TYPES] makes [BsmNetworkImpl._create_node] raise
    at once, leaving the nodes untouched: [NotImplementedError] with the
    message that names the type and tells to register it when the type is
    a member of [NodeType], and the [ValueError] of [NodeType(...)] on
    that type string when it is not. A config that contains such a
    declaration yields no topology: the pipeline raises, [CreateTopo]
    returns no object, and at that point no channel object has been
    created. *)
Theorem C5_unregistered_node_type (ar : arithmetic)
    (dijkstra_path : Graph → string → string → outcome (list string))
    (init : routing_protocol → routing_protocol)
    (NODE_TYPES : NODE_TYPES_t) (c : config) (nd : node_decl) :
  nd ∈ cfg_nodes c → nd_type nd ≠ "BSMNode" → NODE_TYPES !! nd_type nd = None →
  (∀ tmpl tl m st,
     BsmNetworkImpl._create_node nd (nd_type nd) tmpl tl m NODE_TYPES st
     = (Raise (match NodeType_of (nd_type nd) with
               | Some _ => NotImplementedError (unregistered_message (nd_type nd))
               | None => ValueError_NodeType (nd_type nd)
               end), st))
  ∧ ∃ e t,
      Topology._run_pipeline ar (BsmNetworkImpl.impl dijkstra_path init)
                             NODE_TYPES (_setup c) = (Raise e, t)
      ∧ qchannels t = [] ∧ cchannels t = []
      ∧ CreateTopo ar (BsmNetworkImpl.impl dijkstra_path init) NODE_TYPES c = Raise e.
Proof.
  intros Hin Hb Hn. split.
  - intros tmpl tl m st. by apply create_node_unregistered.
  - destruct (run_pipeline_fails ar dijkstra_path init NODE_TYPES nd Hb Hn (_setup c))
      as (e & He & _ & Hq & Hc); [by split|].
    unfold CreateTopo.
    destruct (Topology._run_pipeline _ _ _ _) as [r t]; simpl in *. subst r.
    by exists e, t.
Qed.

(** A run of C5: "DQCNode" is a member of [NodeType] that the router
    topology does not register. *)
Lemma C5_witness :
  CreateTopo binary64 bsm_impl0 RouterNetTopo_NODE_TYPES dqc_config
  = Raise (NotImplementedError (unregistered_message "DQCNode")).
Proof.
  destruct (C5_unregistered_node_type binary64 no_dijkstra (fun r => r)
              RouterNetTopo_NODE_TYPES dqc_config (plain_decl "d1" "DQCNode" 1))
    as [_ (e & t & Hrun & _ & _ & Hc)].
  - apply list_elem_of_further, list_elem_of_here.
  - discriminate.
  - reflexivity.
  - vm_compute. reflexivity.
Defined.

(** C5 (as stated) fails: for the type "Widget" the error is the
    [ValueError] of [NodeType("Widget")], which tells nothing about
    registration; and the router declared before it has been constructed
    when the error is raised. *)
Lemma C5_widget_counterexample :
  (Topology._run_pipeline binary64 bsm_impl0 RouterNetTopo_NODE_TYPES
                          (_setup widget_config)).1
  = Raise (ValueError_NodeType "Widget")
  ∧ ValueError_NodeType "Widget" ≠ NotImplementedError (unregistered_message "Widget")
  ∧ map name
      (all_nodes
         (nodes (Topology._run_pipeline binary64 bsm_impl0 RouterNetTopo_NODE_TYPES
                                        (_setup widget_config)).2))
    = ["r1"].
Proof.
  split; [vm_compute; reflexivity|]. split; [discriminate|vm_compute; reflexivity].
Qed.

(** ** C9: two quantum channels into every destination *)

Lemma record_router_lookup (dst src k : string) (m : list (string * list string)) :
  assoc_lookup k (BsmNetworkImpl.record_router dst src m) =
    if decide (k = dst)
    then Some (default [] (assoc_lookup dst m) ++ [src])
    else assoc_lookup k m.
Proof.
  induction m as [|[k' v] m IH]; simpl.
  - repeat case_decide; simplify_eq; done.
  - destruct (decide (k' = dst)) as [->|Hne]; simpl.
    + repeat case_decide; simplify_eq; done.
    + rewrite IH. repeat case_decide; simplify_eq; done.
Qed.

Lemma map_bsm_routers_from (qcs : list qchannel_decl) (m : list (string * list string)) :
  ∃ m',
    for_each qcs
      (fun qc => modify (BsmNetworkImpl.record_router (qch_destination qc) (qch_source qc))) m
    = (Return tt, m') ∧
    ∀ dst, assoc_lookup dst m' =
      match assoc_lookup dst m, sources_into dst qcs with
      | None, [] => None
      | o, l => Some (default [] o ++ l)
      end.
Proof.
  revert m. induction qcs as [|qc qcs IH]; intros m.
  - exists m. split; [done|]. intros dst. unfold sources_into. simpl.
    destruct (assoc_lookup dst m); simpl; by rewrite ?app_nil_r.
  - destruct (IH (BsmNetworkImpl.record_router (qch_destination qc) (qch_source qc) m))
      as (m' & Hrun & Hm').
    exists m'. split; [exact Hrun|].
    intros dst. rewrite Hm', record_router_lookup. unfold sources_into.
    rewrite filter_cons.
    destruct (decide (dst = qch_destination qc)) as [->|Hne].
    + rewrite decide_True by done. simpl.
      destruct (assoc_lookup (qch_destination qc) m); simpl.
      all: by rewrite <- ?app_assoc.
    + rewrite decide_False by done. done.
Qed.

Lemma assoc_lookup_elem {V} (k : string) (v : V) (m : list (string * V)) :
  assoc_lookup k m = Some v → (k, v) ∈ m.
Proof.
  induction m as [|[k' v'] m IH]; simpl; [done|].
  destruct (decide (k' = k)) as [->|].
  - intros [= ->]. apply list_elem_of_here.
  - intros H. apply list_elem_of_further. by apply IH.
Qed.

(** The wiring returns only when every entry has two routers. *)
Lemma add_bsm_node_to_router_returns (m : list (string * list string))
    (tl : list string) (reg reg' : registry) :
  BsmNetworkImpl._add_bsm_node_to_router m tl reg = (Return tt, reg') →
  ∀ bsm routers, (bsm, routers) ∈ m → length routers = 2%nat.
Proof.
  unfold BsmNetworkImpl._add_bsm_node_to_router.
  revert reg. induction m as [|[b rs] m IH]; intros reg Hrun bsm routers Hin.
  - by apply elem_of_nil in Hin.
  - rewrite for_each_cons in Hrun. apply bind_returns in Hrun as (a & reg1 & H1 & H2).
    apply elem_of_cons in Hin as [[= -> ->]|Hin].
    + destruct rs as [|r0 [|r1 [|r2 rs]]]; try done.
    + by eapply IH.
Qed.

Lemma get_entity_by_name_not_other (reg : registry) (tl : list string) (nm x : string) :
  nm ∉ tl → get_entity_by_name reg tl nm ≠ Some (OtherEntity x).
Proof.
  intros Hnm. unfold get_entity_by_name. destruct (List.find _ _); [done|].
  by rewrite bool_decide_eq_false_2.
Qed.

(** The wiring raises the unpacking error at the first entry that has not
    two routers, when no router of the map names an entity of the timeline
    that is no node. *)
Lemma add_bsm_node_to_router_raises (m : list (string * list string))
    (tl : list string) (reg : registry) (bsm : string) (routers : list string) :
  (∀ b rs r, (b, rs) ∈ m → r ∈ rs → r ∉ tl) →
  (bsm, routers) ∈ m → length routers ≠ 2%nat →
  ∃ k reg', BsmNetworkImpl._add_bsm_node_to_router m tl reg
            = (Raise (ValueError_unpack 2 k), reg') ∧ k ≠ 2%nat.
Proof.
  unfold BsmNetworkImpl._add_bsm_node_to_router.
  revert reg. induction m as [|[b rs] m IH]; intros reg Htl Hin Hlen.
  - by apply elem_of_nil in Hin.
  - rewrite for_each_cons. unfold bind at 1.
    destruct (decide (length rs = 2%nat)) as [E|E].
    + apply elem_of_cons in Hin as [[= -> ->]|Hin]; [done|].
      destruct rs as [|r0 [|r1 [|r2 rs]]]; try done.
      match goal with |- context [let (_, _) := ?x in _] => destruct x as [[[]|e] reg1] eqn:E1 end.
      * apply IH; [|done..]. intros b' rs' r Hb'. apply (Htl b' rs' r).
        by apply list_elem_of_further.
      * exfalso. revert E1. unfold bind, get, modify, ret, raise.
        pose proof (get_entity_by_name_not_other reg tl r0) as H0.
        pose proof (get_entity_by_name_not_other reg tl r1) as H1.
        destruct (get_entity_by_name reg tl r0) as [[?|x0]|];
          destruct (get_entity_by_name reg tl r1) as [[?|x1]|]; try discriminate.
        all: first [ exfalso; apply (H0 x0); [|done];
                     apply (Htl b [r0; r1] r0); [apply list_elem_of_here|apply list_elem_of_here]
                   | exfalso; apply (H1 x1); [|done];
                     apply (Htl b [r0; r1] r1); [apply list_elem_of_here|];
                     apply list_elem_of_further, list_elem_of_here ].
    + exists (length rs), reg.
      destruct rs as [|r0 [|r1 [|r2 rs]]]; try done.
Qed.

Section TwoChannels.

Variable ar : arithmetic.
Variable dijkstra_path : Graph → string → string → outcome (list string).
Variable init : routing_protocol → routing_protocol.
Variable NODE_TYPES : NODE_TYPES_t.

Let impl := BsmNetworkImpl.impl dijkstra_path init.

(** When the pipeline returns, the config holds a quantum-channel
    section and every destination named in it is the destination of
    exactly two declarations. *)
Lemma run_pipeline_returns (t0 t : topology) :
  bsm_to_router_map t0 = [] →
  Topology._run_pipeline ar impl NODE_TYPES t0 = (Return tt, t) →
  ∃ qcs, cfg_qchannels (raw_cfg t) = Some qcs ∧
         ∀ dst, dst ∈ map qch_destination qcs →
                length (sources_into dst qcs) = 2%nat.
Proof.
  intros Hm0 Hrun. unfold Topology._run_pipeline in Hrun.
  apply bind_returns in Hrun as ([] & t1 & H1 & Hrun).
  apply bind_returns in Hrun as ([] & t2 & H2 & Hrun).
  apply bind_returns in Hrun as ([] & t3 & H3 & Hrun).
  apply bind_returns in Hrun as ([] & t4 & H4 & Hrun).
  apply bind_returns in Hrun as ([] & t5 & H5 & Hrun).
  apply bind_returns in Hrun as ([] & t6 & H6 & Hrun).
  apply bind_returns in Hrun as ([] & t7 & H7 & Hrun).
  assert (Hm1 : bsm_to_router_map t1 = []).
  { eapply (keeps_run (fun t => bsm_to_router_map t = [])); [|exact Hm0|exact H1]. frame. }
  assert (Hm2 : bsm_to_router_map t2 = []).
  { eapply (keeps_run (fun t => bsm_to_router_map t = [])); [|exact Hm1|exact H2]. frame. }
  assert (Hm3 : bsm_to_router_map t3 = []).
  { eapply (keeps_run (fun t => bsm_to_router_map t = [])); [|exact Hm2|exact H3]. frame. }
  assert (Hm4 : bsm_to_router_map t4 = []).
  { eapply (keeps_run (fun t => bsm_to_router_map t = [])); [|exact Hm3|exact H4]. frame. }
  (* the map is built from the whole quantum-channel section *)
  unfold bind at 1, get in H5. unfold on_bsm_to_router_map, zoom in H5. simpl in H5.
  unfold BsmNetworkImpl._map_bsm_routers in H5.
  destruct (cfg_qchannels (raw_cfg t4)) as [qcs|] eqn:Hqcs; [|done].
  destruct (map_bsm_routers_from qcs (bsm_to_router_map t4)) as (m' & Hmap & Hlook).
  rewrite Hmap in H5. injection H5 as <-.
  (* node construction leaves the config and the map alone *)
  assert (K6 : keeps (fun t => raw_cfg t = raw_cfg t4 ∧ bsm_to_router_map t = m')
                 (do t <- get; Topology._add_nodes impl NODE_TYPES (raw_cfg t)))
    by frame.
  apply (keeps_run _ _ _ _ _ K6) in H6 as [Hc6 Hb6]; [|split; reflexivity].
  (* the wiring returned *)
  unfold bind at 1, get in H7. unfold on_nodes, zoom in H7. simpl in H7.
  destruct (BsmNetworkImpl._add_bsm_node_to_router (bsm_to_router_map t6)
              (tl_others t6) (nodes t6))
    as [r reg'] eqn:Hwire.
  injection H7 as -> <-.
  pose proof (add_bsm_node_to_router_returns _ _ _ _ Hwire) as Hlen.
  (* the later stages leave the config alone *)
  assert (Hc : raw_cfg t = raw_cfg t4).
  { match type of Hrun with ?m _ = _ =>
      assert (K : keeps (fun t => raw_cfg t = raw_cfg t4) m) by frame end.
    by apply (keeps_run _ _ _ _ _ K) in Hrun. }
  exists qcs. split; [by rewrite Hc|].
  intros dst Hdst. apply (Hlen dst). rewrite Hb6.
  apply assoc_lookup_elem. rewrite Hlook, Hm4. simpl.
  destruct (sources_into dst qcs) eqn:E; [|done].
  exfalso. apply list_elem_of_In, in_map_iff in Hdst as (qc & Hq & Hin).
  assert (Hs : qch_source qc ∈ sources_into dst qcs).
  { unfold sources_into. apply list_elem_of_In, in_map.
    apply list_elem_of_In, list_elem_of_filter. split; [done|by apply list_elem_of_In]. }
  rewrite E in Hs. by apply elem_of_nil in Hs.
Qed.

(** What holds of the config all along the pipeline, once the
    connection expander keeps it. *)
Lemma run_pipeline_keeps_config (P : config → Prop) :
  keeps P (Topology._add_qconnections ar impl) →
  keeps (fun t => P (raw_cfg t)) (Topology._run_pipeline ar impl NODE_TYPES).
Proof.
  intros HP. unfold Topology._run_pipeline.
  apply keeps_bind; [by frame|intros _].
  apply keeps_bind; [by frame|intros _].
  apply keeps_bind.
  { apply (keeps_zoom _ P); [done|by intros ? [] ?|done]. }
  intros _. frame.
Qed.

Lemma sources_into_app dst l1 l2 :
  sources_into dst (l1 ++ l2) = sources_into dst l1 ++ sources_into dst l2.
Proof. unfold sources_into. by rewrite filter_app, map_app. Qed.

Lemma add_qconnections_keeps_pairs (declared : list qchannel_decl) :
  keeps (declared_then_pairs declared) (Topology._add_qconnections ar impl).
Proof.
  unfold Topology._add_qconnections.
  keeps_step; [apply keeps_get|]. keeps_step.
  intros c (derived & Hd & Heven).
  rewrite expand_qconnection_spec.
  destruct (derived_delay ar c x) as [d|]; [|by exists derived].
  simpl. destruct (decide (qcn_type x = MEET_IN_THE_MID)) as [Hty|Hty].
  - rewrite handle_qconnection_meet by done.
    exists (derived ++ [derived_qchannel x (qcn_node1 x);
                        derived_qchannel x (qcn_node2 x)]).
    split.
    { change (default [] (cfg_qchannels (Return (), expanded x d c).2))
        with (default [] (cfg_qchannels c)
              ++ [derived_qchannel x (qcn_node1 x); derived_qchannel x (qcn_node2 x)]).
      by rewrite Hd, app_assoc. }
    intros dst. rewrite sources_into_app, length_app.
    destruct (Heven dst) as [n Hn]. rewrite Hn.
    unfold sources_into at 1. rewrite !filter_cons, filter_nil.
    change (qch_destination (derived_qchannel x (qcn_node1 x)))
      with (nd_name (midpoint_decl x)).
    change (qch_destination (derived_qchannel x (qcn_node2 x)))
      with (nd_name (midpoint_decl x)).
    destruct (decide (nd_name (midpoint_decl x) = dst)).
    + exists (n + 1)%nat. cbn [map length]. lia.
    + exists n. cbn [map length]. lia.
  - rewrite handle_qconnection_other by done. by exists derived.
Qed.

(** When the pipeline returns, every name is the destination of no
    declared quantum channel or of exactly two. *)
Lemma run_pipeline_returns_declared (c : config) (t : topology) (dst : string) :
  Topology._run_pipeline ar impl NODE_TYPES (_setup c) = (Return tt, t) →
  length (sources_into dst (default [] (cfg_qchannels c))) = 0%nat ∨
  length (sources_into dst (default [] (cfg_qchannels c))) = 2%nat.
Proof.
  intros Hrun.
  pose proof (run_pipeline_keeps_config _
                (add_qconnections_keeps_pairs (default [] (cfg_qchannels c)))) as K.
  assert (Hfin : declared_then_pairs (default [] (cfg_qchannels c)) (raw_cfg t)).
  { apply (keeps_run _ _ (_setup c) t (Return tt) K); [|exact Hrun].
    exists []. split; [by rewrite app_nil_r|]. intros ?. by exists 0%nat. }
  destruct Hfin as (derived & Hd & Heven).
  destruct (run_pipeline_returns (_setup c) t eq_refl Hrun) as (qcs & Hq & Htwo).
  rewrite Hq in Hd. simpl in Hd. subst qcs.
  destruct (sources_into dst (default [] (cfg_qchannels c))) as [|s0 l] eqn:E;
    [by left|right].
  assert (Hin : dst ∈ map qch_destination (default [] (cfg_qchannels c) ++ derived)).
  { assert (Hs : s0 ∈ sources_into dst (default [] (cfg_qchannels c)))
      by (rewrite E; apply list_elem_of_here).
    unfold sources_into in Hs.
    apply list_elem_of_In, in_map_iff in Hs as (qc & _ & Hqc).
    apply list_elem_of_In, list_elem_of_filter in Hqc as [Hdst Hqc].
    rewrite map_app. apply elem_of_app. left.
    apply list_elem_of_In, in_map_iff. exists qc. split; [done|].
    by apply list_elem_of_In. }
  specialize (Htwo dst Hin).
  rewrite sources_into_app, length_app, E in Htwo.
  destruct (Heven dst) as [n Hn]. rewrite Hn in Htwo. simpl in *. lia.
Qed.

End TwoChannels.

(** C9: [_map_bsm_routers] enters every quantum-channel declaration of
    the config under its destination name, midpoint or not, so that the
    entry of a name lists the sources of all the declarations that end
    there; [_add_bsm_node_to_router] unpacks every entry into two names and
    raises the unpacking [ValueError] at an entry of any other length
    (unless a router named before it is an entity of the timeline that is
    no node, which raises [AttributeError] there). So
    the pipeline of the BSM family returns only when every destination
    named in the quantum-channel section, as the expander leaves it, has
    exactly two declarations; and a config in which some name is the
    destination of one declared quantum channel, or of three or more, never
    completes: construction raises. *)
Theorem C9_two_channels_per_destination (ar : arithmetic)
    (dijkstra_path : Graph → string → string → outcome (list string))
    (init : routing_protocol → routing_protocol)
    (NODE_TYPES : NODE_TYPES_t) (c : config) :
  (∀ qcs, cfg_qchannels c = Some qcs →
     ∃ m, BsmNetworkImpl._map_bsm_routers c [] = (Return tt, m) ∧
          ∀ dst, assoc_lookup dst m =
                 match sources_into dst qcs with
                 | [] => None
                 | srcs => Some srcs
                 end)
  ∧ (∀ m tl reg bsm routers,
       (∀ b rs r, (b, rs) ∈ m → r ∈ rs → r ∉ tl) →
       (bsm, routers) ∈ m → length routers ≠ 2%nat →
       ∃ k reg', BsmNetworkImpl._add_bsm_node_to_router m tl reg
                 = (Raise (ValueError_unpack 2 k), reg') ∧ k ≠ 2%nat)
  ∧ (∀ t,
       Topology._run_pipeline ar (BsmNetworkImpl.impl dijkstra_path init)
                              NODE_TYPES (_setup c) = (Return tt, t) →
       ∃ qcs, cfg_qchannels (raw_cfg t) = Some qcs ∧
              ∀ dst, dst ∈ map qch_destination qcs →
                     length (sources_into dst qcs) = 2%nat)
  ∧ (∀ dst,
       length (sources_into dst (default [] (cfg_qchannels c))) ≠ 0%nat →
       length (sources_into dst (default [] (cfg_qchannels c))) ≠ 2%nat →
       ∃ e t,
         Topology._run_pipeline ar (BsmNetworkImpl.impl dijkstra_path init)
                                NODE_TYPES (_setup c) = (Raise e, t)
         ∧ CreateTopo ar (BsmNetworkImpl.impl dijkstra_path init) NODE_TYPES c
           = Raise e).
Proof.
  split; [|split; [|split]].
  - intros qcs Hq. unfold BsmNetworkImpl._map_bsm_routers. rewrite Hq.
    destruct (map_bsm_routers_from qcs []) as (m & Hrun & Hlook).
    exists m. split; [done|]. intros dst. rewrite Hlook. simpl.
    by destruct (sources_into dst qcs).
  - intros m tl reg bsm routers Htl Hin Hlen. by eapply add_bsm_node_to_router_raises.
  - intros t Hrun. by apply (run_pipeline_returns ar dijkstra_path init NODE_TYPES (_setup c) t).
  - intros dst H0 H2. unfold CreateTopo.
    destruct (Topology._run_pipeline ar _ NODE_TYPES (_setup c)) as [[[]|e] t] eqn:Hrun.
    + destruct (run_pipeline_returns_declared ar dijkstra_path init NODE_TYPES
                  c t dst Hrun); done.
    + by exists e, t.
Qed.

(** A run of C9: besides the connection r1-r2, the config declares one
    quantum channel from r1 to r2; r2 is then an entry with one source and
    the wiring raises the unpacking error. *)
Lemma C9_explicit_channel_example :
  CreateTopo binary64 bsm_impl0 RouterNetTopo_NODE_TYPES c9_config
  = Raise (ValueError_unpack 2 1).
Proof. vm_compute. reflexivity. Qed.

(** The same config without the explicit channel completes. *)
Lemma C9_connection_only_example :
  match CreateTopo binary64 bsm_impl0 RouterNetTopo_NODE_TYPES c3_config with
  | Return t => bsm_to_router_map t = [("BSM.r1.r2.auto", ["r1"; "r2"])]
  | Raise _ => False
  end.
Proof. vm_compute. reflexivity. Qed.

(** ** C1: the two dialects of a QLAN config *)

(** C1 (the code at the failing input, an orchestrator with two local
    memories and three clients): for the same hardware values in the two
    dialects, [Topology._add_qlan_parameters] resolves the same
    values onto the topology, but [QlanNetworkImpl._create_node] reads the
    node's template only: the nodes of the templated config are
    constructed with the declared values, those of the legacy config with
    the built-in defaults 0.9, 2000, 1, -1, 500. *)
Theorem C1_flat_values_do_not_reach_the_nodes :
  match CreateTopo binary64 QlanNetworkImpl.impl QlanStarTopo_NODE_TYPES
                   c1_legacy_config,
        CreateTopo binary64 QlanNetworkImpl.impl QlanStarTopo_NODE_TYPES
                   c1_templated_config with
  | Return legacy, Return templated =>
      qlan legacy = qlan templated
      ∧ option_map memo_orch (qlan legacy) = Some c1_orch_hw
      ∧ option_map memo_client (qlan legacy) = Some c1_client_hw
      ∧ map (fun n => (name n, constructed_memo n)) (all_nodes (nodes templated))
        = [("client1", Some c1_client_hw); ("client2", Some c1_client_hw);
           ("client3", Some c1_client_hw); ("Orchestrator", Some c1_orch_hw)]
      ∧ map (fun n => (name n, constructed_memo n)) (all_nodes (nodes legacy))
        = [("client1", Some default_memo); ("client2", Some default_memo);
           ("client3", Some default_memo); ("Orchestrator", Some default_memo)]
  | _, _ => False
  end.
Proof. vm_compute. repeat split; reflexivity. Qed.

(** ** The forwarding-table generator: what both disciplines share *)

Lemma for_each_in_map {S} (body : M S unit) (f : S → S) (xs : list S) :
  (∀ x, x ∈ xs → body x = (Return tt, f x)) →
  for_each_in body xs = (Return tt, map f xs).
Proof.
  induction xs as [|x xs IH]; intros H; simpl; [done|].
  rewrite (H x) by apply list_elem_of_here.
  rewrite IH; [done|]. intros y Hy. apply H. by apply list_elem_of_further.
Qed.

Lemma for_each_item_map (body : string → M (list node) unit)
    (f : string → list node → list node) (reg : registry) :
  (∀ ty l, (ty, l) ∈ reg → body ty l = (Return tt, f ty l)) →
  for_each_item body reg = (Return tt, map (fun '(ty, l) => (ty, f ty l)) reg).
Proof.
  induction reg as [|[ty l] reg IH]; intros H; simpl; [done|].
  rewrite (H ty l) by apply list_elem_of_here.
  rewrite IH; [done|]. intros ty' l' Hin. apply H. by apply list_elem_of_further.
Qed.

Lemma graph_of_nodes_from (ns : list node_decl) (g : Graph) :
  (∀ nd, nd ∈ ns → is_Some (NodeType_of (nd_type nd))) →
  fold_left
    (fun og nd =>
       match og with
       | Return g =>
           match NodeType_of (nd_type nd) with
           | Some t => if MIDPOINT_NODE_TYPES t then Return g
                       else Return (add_node (nd_name nd) g)
           | None => Raise (ValueError_NodeType (nd_type nd))
           end
       | Raise e => Raise e
       end) ns (Return g)
  = Return (fold_left
              (fun g nd => if is_midpoint_type (nd_type nd) then g
                           else add_node (nd_name nd) g) ns g).
Proof.
  revert g. induction ns as [|nd ns IH]; intros g H; simpl; [done|].
  destruct (H nd) as [t Ht]; [apply list_elem_of_here|].
  unfold is_midpoint_type at 2. rewrite Ht.
  destruct (MIDPOINT_NODE_TYPES t); apply IH; intros; apply H;
    by apply list_elem_of_further.
Qed.

Lemma graph_of_nodes_returns (c : config) :
  known_types_cfg c → BsmNetworkImpl.graph_of_nodes c = Return (declared_graph c).
Proof. intros H. by apply graph_of_nodes_from. Qed.

Lemma with_routing_twice r1 r2 n : with_routing r2 (with_routing r1 n) = with_routing r2 n.
Proof. reflexivity. Qed.

Lemma with_routing_same r n : network_manager n = Some r → with_routing r n = n.
Proof. destruct n; simpl. by intros ->. Qed.

Lemma name_with_routing r n : name (with_routing r n) = name n.
Proof. reflexivity. Qed.

(** *** The entries of [costs] *)

Lemma record_cost_lookup (bsm router k : string) (d : Q) (costs : list (string * cost_info)) :
  assoc_lookup k (BsmNetworkImpl.record_cost bsm router d costs) =
    if decide (k = bsm)
    then Some (match assoc_lookup bsm costs with
               | Some (rs, total) => (router :: rs, (total + d)%Q)
               | None => ([router], d)
               end)
    else assoc_lookup k costs.
Proof.
  induction costs as [|[k' [rs tot]] costs IH]; simpl.
  - repeat case_decide; simplify_eq; done.
  - destruct (decide (k' = bsm)) as [->|Hne]; simpl.
    + repeat case_decide; simplify_eq; done.
    + rewrite IH. repeat case_decide; simplify_eq; done.
Qed.

Lemma record_cost_keys (bsm router : string) (d : Q) (costs : list (string * cost_info)) :
  map fst (BsmNetworkImpl.record_cost bsm router d costs) =
    if decide (bsm ∈ map fst costs) then map fst costs else map fst costs ++ [bsm].
Proof.
  induction costs as [|[k' [rs tot]] costs IH].
  - cbn [BsmNetworkImpl.record_cost map fst app].
    destruct (decide (bsm ∈ [])) as [H|H]; [by apply elem_of_nil in H|done].
  - cbn [BsmNetworkImpl.record_cost map fst].
    destruct (decide (k' = bsm)) as [->|Hne]; cbn [map fst].
    + destruct (decide (bsm ∈ bsm :: map fst costs)) as [H|H]; [done|].
      exfalso. apply H, list_elem_of_here.
    + rewrite IH. destruct (decide (bsm ∈ map fst costs)) as [Hin|Hin];
        destruct (decide (bsm ∈ k' :: map fst costs)) as [H|H]; try done.
      * exfalso. by apply H, list_elem_of_further.
      * apply elem_of_cons in H as [E|H]; [congruence|done].
Qed.

Lemma costs_from_keys_NoDup (qcs : list QuantumChannel) (costs : list (string * cost_info)) :
  NoDup (map fst costs) →
  NoDup (map fst
    (fold_left (fun costs qc =>
        BsmNetworkImpl.record_cost (qc_receiver qc) (qc_sender qc) (qc_distance qc) costs)
       qcs costs)).
Proof.
  revert costs. induction qcs as [|qc qcs IH]; intros costs Hnd; simpl; [done|].
  apply IH. rewrite record_cost_keys. case_decide; [done|].
  apply NoDup_app. split; [done|]. split.
  - intros x Hx [->|[]%elem_of_nil]%elem_of_cons. done.
  - apply NoDup_singleton.
Qed.

Lemma costs_of_keys_NoDup (qcs : list QuantumChannel) :
  NoDup (map fst (BsmNetworkImpl.costs_of qcs)).
Proof. apply costs_from_keys_NoDup. constructor. Qed.

Lemma elem_assoc_lookup {V} (k : string) (v : V) (m : list (string * V)) :
  NoDup (map fst m) → (k, v) ∈ m → assoc_lookup k m = Some v.
Proof.
  induction m as [|[k' v'] m IH]; simpl; intros Hnd Hin.
  - by apply elem_of_nil in Hin.
  - apply NoDup_cons in Hnd as [Hk Hnd].
    apply elem_of_cons in Hin as [[= -> ->]|Hin].
    + by rewrite decide_True.
    + rewrite decide_False; [by apply IH|].
      intros ->. apply Hk. apply list_elem_of_In, in_map_iff.
      exists (k, v). split; [done|]. by apply list_elem_of_In.
Qed.

Lemma costs_from_lookup (bsm : string) (qcs : list QuantumChannel)
    (costs : list (string * cost_info)) :
  assoc_lookup bsm
    (fold_left (fun costs qc =>
        BsmNetworkImpl.record_cost (qc_receiver qc) (qc_sender qc) (qc_distance qc) costs)
       qcs costs)
  = match assoc_lookup bsm costs with
    | Some (rs, total) =>
        Some (rev (map qc_sender (channels_into bsm qcs)) ++ rs,
              fold_left Qplus (map qc_distance (channels_into bsm qcs)) total)
    | None => cost_entry bsm qcs
    end.
Proof.
  revert costs. induction qcs as [|qc qcs IH]; intros costs; simpl.
  - unfold cost_entry, channels_into. simpl. by destruct (assoc_lookup bsm costs) as [[? ?]|].
  - rewrite IH, record_cost_lookup. unfold cost_entry, channels_into.
    rewrite filter_cons.
    destruct (decide (qc_receiver qc = bsm)) as [E|E].
    + rewrite decide_True by done. rewrite E.
      destruct (assoc_lookup bsm costs) as [[rs tot]|]; simpl.
      * by rewrite <- app_assoc.
      * done.
    + rewrite decide_False by done.
      by destruct (assoc_lookup bsm costs) as [[rs tot]|].
Qed.

(** The entry of a midpoint holds the senders of the channels into it
    and the sum of their distances. *)
Lemma costs_of_lookup (bsm : string) (qcs : list QuantumChannel) :
  assoc_lookup bsm (BsmNetworkImpl.costs_of qcs) = cost_entry bsm qcs.
Proof. unfold BsmNetworkImpl.costs_of. by rewrite costs_from_lookup. Qed.

Lemma costs_of_elem (bsm : string) (ci : cost_info) (qcs : list QuantumChannel) :
  (bsm, ci) ∈ BsmNetworkImpl.costs_of qcs ↔ cost_entry bsm qcs = Some ci.
Proof.
  rewrite <- costs_of_lookup. split.
  - apply elem_assoc_lookup, costs_of_keys_NoDup.
  - apply assoc_lookup_elem.
Qed.

Lemma cost_entry_two (bsm : string) (qcs : list QuantumChannel) q1 q2 :
  channels_into bsm qcs = [q1; q2] →
  cost_entry bsm qcs
  = Some ([qc_sender q2; qc_sender q1], (qc_distance q1 + qc_distance q2)%Q).
Proof. unfold cost_entry. by intros ->. Qed.

(** When two channels end at every midpoint, every entry lists two
    routers. *)
Lemma costs_of_two (qcs : list QuantumChannel) :
  (∀ qc, qc ∈ qcs → length (channels_into (qc_receiver qc) qcs) = 2%nat) →
  ∀ bsm ci, (bsm, ci) ∈ BsmNetworkImpl.costs_of qcs → length ci.1 = 2%nat.
Proof.
  intros H bsm ci Hin. apply costs_of_elem in Hin. unfold cost_entry in Hin.
  destruct (channels_into bsm qcs) as [|q rest] eqn:E; [done|].
  assert (Hq : q ∈ channels_into bsm qcs) by (rewrite E; apply list_elem_of_here).
  apply list_elem_of_filter in Hq as [Hr Hq].
  specialize (H q Hq). rewrite Hr, E in H.
  injection Hin as <-. simpl. rewrite length_app, length_rev, length_map. simpl in *. lia.
Qed.

(** The entries of [costs] come in the order in which the midpoints first
    appear among the channels. *)
Lemma costs_from_keys (qcs : list QuantumChannel) (costs : list (string * cost_info)) :
  map fst
    (fold_left (fun costs qc =>
        BsmNetworkImpl.record_cost (qc_receiver qc) (qc_sender qc) (qc_distance qc) costs)
       qcs costs)
  = map fst costs
    ++ filter (fun y => y ∉ map fst costs) (first_appearances (map qc_receiver qcs)).
Proof.
  revert costs. induction qcs as [|qc qcs IH]; intros costs.
  - cbn. by rewrite app_nil_r.
  - cbn [fold_left map first_appearances]. rewrite IH, record_cost_keys. clear IH.
    rewrite filter_cons.
    destruct (decide (qc_receiver qc ∈ map fst costs)) as [Hin|Hin].
    + rewrite decide_False by (intros H; by apply H).
      f_equal. rewrite list_filter_filter. apply list_filter_iff.
      intros x. split; [|by intros [H _]]. intros H. split; [done|]. by intros ->.
    + rewrite decide_True by done. rewrite <- (assoc_L (++)). cbn [app]. do 2 f_equal.
      rewrite list_filter_filter. apply list_filter_iff.
      intros x. rewrite elem_of_app, elem_of_cons, elem_of_nil. split.
      * intros H. split.
        -- intros Hx. apply H. by left.
        -- intros ->. apply H. right. by left.
      * intros [H1 H2] [H|[H|[]]]; done.
Qed.

Lemma costs_of_keys (qcs : list QuantumChannel) :
  map fst (BsmNetworkImpl.costs_of qcs) = midpoints_in_order qcs.
Proof.
  unfold BsmNetworkImpl.costs_of, midpoints_in_order.
  rewrite costs_from_keys. cbn [map app].
  induction (first_appearances (map qc_receiver qcs)) as [|x l IH]; [done|].
  rewrite filter_cons, decide_True by apply not_elem_of_nil. by rewrite IH.
Qed.

(** ** C7: link costs under the distributed discipline *)

Lemma seed_link_cost_two (a b : string) (d : Q) (n : node) lc i :
  network_manager n = Some (DistributedRoutingProtocol lc i) →
  BsmNetworkImpl.seed_link_cost ([a; b], d) n =
    (Return tt,
     match other_endpoint (name n) ([a; b], d) with
     | Some nb => with_routing (DistributedRoutingProtocol (<[nb := Num d]> lc) i) n
     | None => n
     end).
Proof.
  intros Hn. unfold BsmNetworkImpl.seed_link_cost, other_endpoint.
  unfold bind at 1, get. cbn [fst snd].
  destruct (decide (a = name n)) as [Ha|Ha].
  - rewrite bool_decide_eq_true_2 by (rewrite Ha; apply list_elem_of_here).
    unfold as_list, index, bind, ret, item_is. cbn.
    rewrite bool_decide_eq_true_2 by done. cbn.
    unfold BsmNetworkImpl.set_link_cost, BsmNetworkImpl.get_routing_protocol,
      bind, get, ret, modify. by rewrite Hn.
  - destruct (decide (b = name n)) as [Hb|Hb].
    + rewrite bool_decide_eq_true_2
        by (rewrite Hb; apply list_elem_of_further, list_elem_of_here).
      unfold as_list, index, bind, ret, item_is. cbn.
      rewrite bool_decide_eq_false_2 by done. cbn.
      unfold BsmNetworkImpl.set_link_cost, BsmNetworkImpl.get_routing_protocol,
        bind, get, ret, modify. by rewrite Hn.
    + rewrite bool_decide_eq_false_2; [done|].
      intros [E|[E|E%elem_of_nil]%elem_of_cons]%elem_of_cons; congruence.
Qed.

Lemma seed_all (costs : list (string * cost_info)) (n : node) lc i :
  (∀ bsm ci, (bsm, ci) ∈ costs → length ci.1 = 2%nat) →
  network_manager n = Some (DistributedRoutingProtocol lc i) →
  for_each costs (fun '(bsm, ci) => BsmNetworkImpl.seed_link_cost ci) n =
    (Return tt,
     with_routing
       (DistributedRoutingProtocol (apply_writes (link_cost_writes (name n) costs) lc) i) n).
Proof.
  revert n lc. induction costs as [|[bsm [rs d]] costs IH]; intros n lc Htwo Hn.
  - simpl. unfold ret. by rewrite with_routing_same.
  - rewrite for_each_cons. unfold bind.
    assert (Hrs : length rs = 2%nat) by (apply (Htwo bsm (rs, d)), list_elem_of_here).
    destruct rs as [|a [|b [|? ?]]]; try done.
    rewrite (seed_link_cost_two a b d n lc i Hn).
    assert (Htwo' : ∀ bsm ci, (bsm, ci) ∈ costs → length ci.1 = 2%nat)
      by (intros ? ? ?; eapply Htwo; by apply list_elem_of_further).
    unfold link_cost_writes. cbn [omap list_omap].
    fold (link_cost_writes (name n) costs).
    unfold link_cost_write. cbn [fst snd].
    destruct (other_endpoint (name n) ([a; b], d)) as [nb|].
    + rewrite (IH _ (<[nb := Num d]> lc)); [|done|done].
      by rewrite name_with_routing, with_routing_twice.
    + by apply IH.
Qed.

Lemma seed_node (init : routing_protocol → routing_protocol)
    (costs : list (string * cost_info)) (n : node) lc i :
  (∀ bsm ci, (bsm, ci) ∈ costs → length ci.1 = 2%nat) →
  network_manager n = Some (DistributedRoutingProtocol lc i) →
  (BsmNetworkImpl.get_routing_protocol >>
   for_each costs (fun '(bsm, ci) => BsmNetworkImpl.seed_link_cost ci) >>
   BsmNetworkImpl.call_init init) n
  = (Return tt, seeded init costs n).
Proof.
  intros Htwo Hn. unfold bind at 1.
  unfold BsmNetworkImpl.get_routing_protocol at 1, bind at 1, get. rewrite Hn.
  unfold ret at 1. unfold bind at 1. rewrite (seed_all costs n lc i Htwo Hn).
  unfold BsmNetworkImpl.call_init, BsmNetworkImpl.get_routing_protocol, bind, get, ret,
    modify, seeded. cbn. by rewrite Hn.
Qed.

Lemma is_midpoint_type_as_NodeType (ty : string) t :
  NodeType_of ty = Some t → is_midpoint_type ty = MIDPOINT_NODE_TYPES t.
Proof. unfold is_midpoint_type. by intros ->. Qed.

Lemma distributed_costs_returns (init : routing_protocol → routing_protocol)
    (costs : list (string * cost_info)) (reg : registry) :
  known_types reg →
  distributed_discipline reg →
  (∀ bsm ci, (bsm, ci) ∈ costs → length ci.1 = 2%nat) →
  BsmNetworkImpl.distributed_costs init costs reg
  = (Return tt, seeded_registry init costs reg).
Proof.
  intros Hk Hd Htwo. unfold BsmNetworkImpl.distributed_costs, seeded_registry.
  apply (for_each_item_map _
           (fun ty l => if is_midpoint_type ty then l else map (seeded init costs) l)).
  intros ty l Hin. destruct (Hk ty l Hin) as [t Ht].
  unfold bind at 1, as_NodeType. rewrite Ht. unfold ret at 1.
  rewrite (is_midpoint_type_as_NodeType ty t Ht).
  destruct (MIDPOINT_NODE_TYPES t) eqn:Hm; [done|].
  apply for_each_in_map. intros n Hn.
  destruct (Hd ty l n Hin) as (lc & i & Hnm); [|done|].
  - by rewrite (is_midpoint_type_as_NodeType ty t Ht).
  - by apply (seed_node init costs n lc i).
Qed.

(** The discipline read off the registry of a distributed network. *)
Lemma first_routing_protocol_distributed (reg : registry) :
  known_types reg → distributed_discipline reg →
  (BsmNetworkImpl.first_routing_protocol reg = Return None ∧
   ∀ ty l, (ty, l) ∈ reg → is_midpoint_type ty = false → l = [])
  ∨ ∃ lc i, BsmNetworkImpl.first_routing_protocol reg
            = Return (Some (DistributedRoutingProtocol lc i)).
Proof.
  induction reg as [|[ty l] reg IH]; intros Hk Hd.
  - left. split; [done|]. intros ? ? H. by apply elem_of_nil in H.
  - assert (Hk' : known_types reg)
      by (intros ? ? ?; eapply Hk; by apply list_elem_of_further).
    assert (Hd' : distributed_discipline reg)
      by (intros ? ? ? ? ? ?; eapply Hd; [by apply list_elem_of_further|done..]).
    destruct (Hk ty l) as [t Ht]; [apply list_elem_of_here|].
    simpl. rewrite Ht.
    pose proof (is_midpoint_type_as_NodeType ty t Ht) as Hmt.
    destruct (MIDPOINT_NODE_TYPES t) eqn:Hm.
    + destruct (IH Hk' Hd') as [[H1 H2]|H]; [left|by right].
      split; [done|]. intros ty' l' [[= -> ->]|Hin]%elem_of_cons Hf; [congruence|].
      by eapply H2.
    + destruct l as [|n l].
      * destruct (IH Hk' Hd') as [[H1 H2]|H]; [left|by right].
        split; [done|]. intros ty' l' [[= -> ->]|Hin]%elem_of_cons Hf; [done|].
        by eapply H2.
      * right. destruct (Hd ty (n :: l) n) as (lc & i & Hn);
          [apply list_elem_of_here|by rewrite Hmt|apply list_elem_of_here|].
        rewrite Hn. by exists lc, i.
Qed.

Lemma seeded_registry_no_endpoints init costs (reg : registry) :
  (∀ ty l, (ty, l) ∈ reg → is_midpoint_type ty = false → l = []) →
  seeded_registry init costs reg = reg.
Proof.
  unfold seeded_registry. induction reg as [|[ty l] reg IH]; intros H; [done|].
  simpl. rewrite IH by (intros ? ? ?; apply H; by apply list_elem_of_further).
  destruct (is_midpoint_type ty) eqn:E; [done|].
  by rewrite (H ty l (list_elem_of_here _ _) E).
Qed.

(** The generator returns, with every endpoint node seeded. *)
Lemma generate_distributed (dijkstra_path : Graph → string → string → outcome (list string))
    (init : routing_protocol → routing_protocol)
    (c : config) (qcs : list QuantumChannel) (reg : registry) :
  known_types_cfg c → known_types reg → distributed_discipline reg →
  (∀ bsm ci, (bsm, ci) ∈ BsmNetworkImpl.costs_of qcs → length ci.1 = 2%nat) →
  BsmNetworkImpl._generate_forwarding_table dijkstra_path init c qcs reg
  = (Return tt, seeded_registry init (BsmNetworkImpl.costs_of qcs) reg).
Proof.
  intros Hc Hk Hd Htwo. unfold BsmNetworkImpl._generate_forwarding_table.
  unfold bind at 1, lift at 1. rewrite (graph_of_nodes_returns c Hc).
  unfold bind at 1, get. unfold bind at 1, lift at 1.
  destruct (first_routing_protocol_distributed reg Hk Hd) as [[-> Hno]|(lc & i & ->)].
  - unfold ret. by rewrite seeded_registry_no_endpoints.
  - by apply distributed_costs_returns.
Qed.

(** *** What the writes leave in [link_cost] *)

Lemma apply_writes_lookup (ws : list (string * cost_item)) (lc : gmap string cost_item)
    (k : string) (v : cost_item) :
  lc !! k = Some v ∨ (k, v) ∈ ws →
  (∀ v', (k, v') ∈ ws → v' = v) →
  apply_writes ws lc !! k = Some v.
Proof.
  unfold apply_writes. revert lc. induction ws as [|[k1 v1] ws IH]; intros lc Hin Huniq.
  - destruct Hin as [H|H]; [done|by apply elem_of_nil in H].
  - simpl. apply IH.
    + destruct (decide (k1 = k)) as [->|Hne].
      * left. rewrite (Huniq v1) by apply list_elem_of_here. apply lookup_insert_eq.
      * destruct Hin as [H|[[= ? ?]|H]%elem_of_cons]; [left|congruence|by right].
        by rewrite lookup_insert_ne.
    + intros v' Hv'. apply Huniq. by apply list_elem_of_further.
Qed.

(** Of the writes under one key the last one stays. *)
Lemma apply_writes_last (ws : list (string * cost_item)) (lc : gmap string cost_item)
    (k : string) :
  apply_writes ws lc !! k
  = match last (filter (fun w => w.1 = k) ws) with
    | Some w => Some w.2
    | None => lc !! k
    end.
Proof.
  unfold apply_writes. revert lc. induction ws as [|[k1 v1] ws IH]; intros lc; [done|].
  cbn [fold_left]. rewrite IH, filter_cons. cbn [fst].
  destruct (decide (k1 = k)) as [->|Hne].
  - destruct (filter _ ws) as [|w l] eqn:E.
    + cbn. apply lookup_insert_eq.
    + rewrite last_cons_cons. destruct (last (w :: l)) eqn:El; [done|].
      by apply last_None in El.
  - destruct (last (filter _ ws)); [done|]. by apply lookup_insert_ne.
Qed.

Lemma apply_writes_other (ws : list (string * cost_item)) (lc : gmap string cost_item)
    (k : string) :
  k ∉ map fst ws → apply_writes ws lc !! k = lc !! k.
Proof.
  unfold apply_writes. revert lc. induction ws as [|[k1 v1] ws IH]; intros lc Hk; [done|].
  simpl. rewrite IH.
  - apply lookup_insert_ne. intros ->. apply Hk. apply list_elem_of_here.
  - intros H. apply Hk. by apply list_elem_of_further.
Qed.

Lemma apply_writes_dom (ws : list (string * cost_item)) (lc : gmap string cost_item) :
  dom (apply_writes ws lc) = list_to_set (map fst ws) ∪ dom lc.
Proof.
  unfold apply_writes. revert lc. induction ws as [|[k1 v1] ws IH]; intros lc.
  - apply set_eq. intros x. cbn [fold_left map].
    rewrite elem_of_union, elem_of_list_to_set, elem_of_nil. tauto.
  - cbn [fold_left map fst]. rewrite IH. apply set_eq. intros x.
    rewrite dom_insert_L, !elem_of_union, !elem_of_list_to_set, elem_of_cons,
      elem_of_singleton. tauto.
Qed.

Lemma apply_writes_size (ws : list (string * cost_item)) :
  NoDup (map fst ws) → size (apply_writes ws ∅) = length ws.
Proof.
  intros Hnd. rewrite <- size_dom, apply_writes_dom, dom_empty_L.
  assert (E : list_to_set (map fst ws) ∪ ∅ =@{gset string} list_to_set (map fst ws)).
  { apply set_eq. intros x. rewrite elem_of_union, elem_of_empty. tauto. }
  rewrite E, size_list_to_set by done. by rewrite length_map.
Qed.

Lemma link_cost_writes_elem (nm nb bsm : string) (ci : cost_info)
    (costs : list (string * cost_info)) :
  (bsm, ci) ∈ costs → other_endpoint nm ci = Some nb →
  (nb, Num ci.2) ∈ link_cost_writes nm costs.
Proof.
  intros Hin Ho. unfold link_cost_writes. apply list_elem_of_omap.
  exists (bsm, ci). split; [done|]. unfold link_cost_write. cbn [snd]. by rewrite Ho.
Qed.

Lemma link_cost_of_seeded init costs (n : node) lc i :
  init_keeps_link_cost init →
  network_manager n = Some (DistributedRoutingProtocol lc i) →
  name (seeded init costs n) = name n ∧
  link_cost_of (seeded init costs n)
  = Some (apply_writes (link_cost_writes (name n) costs) lc).
Proof.
  intros Hinit Hn. unfold seeded, link_cost_of. rewrite Hn.
  destruct (Hinit (apply_writes (link_cost_writes (name n) costs) lc) i) as [i' ->].
  done.
Qed.

(** *** The star *)

Lemma record_cost_fresh bsm r d (costs : list (string * cost_info)) :
  bsm ∉ map fst costs →
  BsmNetworkImpl.record_cost bsm r d costs = costs ++ [(bsm, ([r], d))].
Proof.
  induction costs as [|[k [rs t]] costs IH]; intros H; simpl; [done|].
  rewrite decide_False.
  - rewrite IH; [done|]. intros Hin. apply H. by apply list_elem_of_further.
  - intros ->. apply H. apply list_elem_of_here.
Qed.

Lemma record_cost_last bsm r d rs t (costs : list (string * cost_info)) :
  bsm ∉ map fst costs →
  BsmNetworkImpl.record_cost bsm r d (costs ++ [(bsm, (rs, t))])
  = costs ++ [(bsm, (r :: rs, (t + d)%Q))].
Proof.
  induction costs as [|[k [rs' t']] costs IH]; intros H; simpl.
  - by rewrite decide_True.
  - rewrite decide_False.
    + rewrite IH; [done|]. intros Hin. apply H. by apply list_elem_of_further.
    + intros ->. apply H. apply list_elem_of_here.
Qed.

Lemma spoke_costs (center : string) (s : spoke) (costs : list (string * cost_info)) :
  sp_bsm s ∉ map fst costs →
  fold_left (fun costs qc =>
      BsmNetworkImpl.record_cost (qc_receiver qc) (qc_sender qc) (qc_distance qc) costs)
    (spoke_channels center s) costs
  = costs ++ [spoke_entry center s].
Proof.
  intros Hfresh. unfold spoke_channels, spoke_entry.
  cbn [fold_left channel_object qc_receiver qc_sender qc_distance].
  rewrite (record_cost_fresh (sp_bsm s) _ _ costs) by exact Hfresh.
  rewrite record_cost_last by exact Hfresh.
  by destruct (sp_center_first s).
Qed.

Lemma star_costs_from (center : string) (spokes : list spoke)
    (costs : list (string * cost_info)) :
  NoDup (map fst costs ++ map sp_bsm spokes) →
  fold_left (fun costs qc =>
      BsmNetworkImpl.record_cost (qc_receiver qc) (qc_sender qc) (qc_distance qc) costs)
    (star_channels center spokes) costs
  = costs ++ map (spoke_entry center) spokes.
Proof.
  revert costs. induction spokes as [|s spokes IH]; intros costs Hnd.
  - simpl. by rewrite app_nil_r.
  - assert (Hfresh : sp_bsm s ∉ map fst costs).
    { apply NoDup_app in Hnd as (_ & Hd & _). intros Hin.
      apply (Hd _ Hin). apply list_elem_of_here. }
    unfold star_channels. cbn [flat_map]. rewrite fold_left_app.
    rewrite spoke_costs by done.
    fold (star_channels center spokes). rewrite IH.
    + by rewrite <- app_assoc.
    + rewrite map_app. cbn [map fst spoke_entry]. rewrite <- app_assoc. exact Hnd.
Qed.

Lemma star_costs (center : string) (spokes : list spoke) :
  NoDup (map sp_bsm spokes) →
  BsmNetworkImpl.costs_of (star_channels center spokes) = map (spoke_entry center) spokes.
Proof. intros H. unfold BsmNetworkImpl.costs_of. by rewrite star_costs_from. Qed.

Lemma omap_all_None {A B} (f : A → option B) (l : list A) :
  (∀ x, x ∈ l → f x = None) → omap f l = [].
Proof.
  induction l as [|x l IH]; intros H; [done|]. cbn [omap list_omap].
  rewrite (H x) by apply list_elem_of_here.
  apply IH. intros y Hy. apply H. by apply list_elem_of_further.
Qed.

Lemma other_endpoint_leaf (center leaf : string) (s : spoke) :
  leaf ≠ center →
  other_endpoint leaf (spoke_entry center s).2
  = if decide (sp_leaf s = leaf) then Some center else None.
Proof.
  intros Hne. unfold other_endpoint, spoke_entry. cbn [fst snd].
  destruct (sp_center_first s); repeat case_decide; simplify_eq; done.
Qed.

Lemma other_endpoint_center (center : string) (s : spoke) :
  other_endpoint center (spoke_entry center s).2 = Some (sp_leaf s).
Proof.
  unfold other_endpoint, spoke_entry. cbn [fst snd].
  destruct (sp_center_first s); repeat case_decide; simplify_eq; done.
Qed.

Lemma link_cost_write_leaf (center leaf : string) (s : spoke) :
  leaf ≠ center →
  link_cost_write leaf (spoke_entry center s)
  = if decide (sp_leaf s = leaf) then Some (center, Num (sp_half s + sp_half s))
    else None.
Proof.
  intros Hne. unfold link_cost_write. rewrite other_endpoint_leaf by done.
  by case_decide.
Qed.

Lemma link_cost_write_center (center : string) (s : spoke) :
  link_cost_write center (spoke_entry center s)
  = Some (sp_leaf s, Num (sp_half s + sp_half s)).
Proof. unfold link_cost_write. by rewrite other_endpoint_center. Qed.

Lemma star_writes_leaf (center : string) (spokes : list spoke) (s : spoke) :
  NoDup (map sp_leaf spokes) → center ∉ map sp_leaf spokes → s ∈ spokes →
  link_cost_writes (sp_leaf s) (map (spoke_entry center) spokes)
  = [(center, Num (sp_half s + sp_half s))].
Proof.
  intros Hnd Hc Hs.
  assert (Hne : ∀ s', s' ∈ spokes → sp_leaf s' ≠ center).
  { intros s' Hs' E. apply Hc. rewrite <- E.
    apply list_elem_of_In, in_map. by apply list_elem_of_In. }
  unfold link_cost_writes.
  induction spokes as [|s0 spokes IH]; [by apply elem_of_nil in Hs|].
  cbn [map omap list_omap]. apply NoDup_cons in Hnd as [Hfresh Hnd].
  rewrite link_cost_write_leaf by (apply Hne, Hs).
  apply elem_of_cons in Hs as [->|Hs].
  - rewrite decide_True by done. f_equal.
    apply omap_all_None. intros e Hin.
    apply list_elem_of_In, in_map_iff in Hin as (s' & <- & Hs'). apply list_elem_of_In in Hs'.
    rewrite link_cost_write_leaf by (apply Hne, list_elem_of_here).
    rewrite decide_False; [done|]. intros E'. apply Hfresh. rewrite <- E'.
    apply list_elem_of_In, in_map. by apply list_elem_of_In.
  - rewrite decide_False.
    + apply IH; [done| |done|].
      * intros H. apply Hc. by apply list_elem_of_further.
      * intros s' Hs'. apply Hne. by apply list_elem_of_further.
    + intros E. apply Hfresh. rewrite E.
      apply list_elem_of_In, in_map. by apply list_elem_of_In.
Qed.

Lemma star_writes_center (center : string) (spokes : list spoke) :
  link_cost_writes center (map (spoke_entry center) spokes)
  = map (fun s => (sp_leaf s, Num (sp_half s + sp_half s))) spokes.
Proof.
  unfold link_cost_writes. induction spokes as [|s spokes IH]; [done|].
  cbn [map omap list_omap]. rewrite link_cost_write_center.
  f_equal. exact IH.
Qed.

Lemma star_two_channels (center : string) (spokes : list spoke) :
  NoDup (map sp_bsm spokes) →
  ∀ bsm ci, (bsm, ci) ∈ BsmNetworkImpl.costs_of (star_channels center spokes) →
            length ci.1 = 2%nat.
Proof.
  intros Hnd bsm ci. rewrite star_costs by done. intros Hin.
  apply list_elem_of_In, in_map_iff in Hin as (s & E & _).
  unfold spoke_entry in E. injection E as _ <-. cbn [fst].
  by destruct (sp_center_first s).
Qed.


(** Membership in a list that is written out. *)
Ltac each_member H :=
  repeat (apply elem_of_cons in H as [H|H]; [subst|]);
  [..|apply elem_of_nil in H; destruct H].


(** The same star through the whole pipeline, with a router class whose
    instances run the distributed protocol. *)
Lemma C7_star_pipeline_example :
  match CreateTopo binary64
          (BsmNetworkImpl.impl no_dijkstra mark_initialised)
          distributed_NODE_TYPES star_config with
  | Return t =>
      map (fun n => (name n, link_cost_of n)) (all_nodes (nodes t))
      = [("center", Some (<["end2" := Num (250 + 250)]> (<["end1" := Num (250 + 250)]> ∅)));
         ("end1", Some (<["center" := Num (250 + 250)]> ∅));
         ("end2", Some (<["center" := Num (250 + 250)]> ∅));
         ("BSM.center.end1.auto", None);
         ("BSM.center.end2.auto", None)]
  | Raise _ => False
  end.
Proof. vm_compute. reflexivity. Qed.

(** C7 (as stated) fails in two ways. In [partial_config] the midpoint mA
    lies between r1 and r2, and one channel object only ends at mB: the
    entry of mB has no third element, the generator stops with
    [IndexError] at r1, and r2, whose name is in the entry of mA, is never
    given a link cost. In [twin_config] two midpoints lie between r1 and
    r2, with the sums 1000 and 3000: at the end r1 holds 3000 for r2, not
    the sum of the first midpoint. *)
Lemma C7_partial_network_counterexample :
  (Topology._run_pipeline binary64 (BsmNetworkImpl.impl no_dijkstra mark_initialised)
     distributed_NODE_TYPES (_setup partial_config)).1
  = Raise IndexError
  ∧ (let t := (Topology._run_pipeline binary64
                 (BsmNetworkImpl.impl no_dijkstra mark_initialised)
                 distributed_NODE_TYPES (_setup partial_config)).2 in
     BsmNetworkImpl.costs_of (qchannels t)
     = [("mA", (["r2"; "r1"], 500 + 500)%Q); ("mB", (["r1"], 700%Q))]
     ∧ map (fun n => (name n, link_cost_of n)) (all_nodes (nodes t))
       = [("r1", Some (<["r2" := Num (500 + 500)]> ∅)); ("r2", Some ∅);
          ("mA", None); ("mB", None)])
  ∧ match CreateTopo binary64 (BsmNetworkImpl.impl no_dijkstra mark_initialised)
            distributed_NODE_TYPES twin_config with
    | Return t =>
        BsmNetworkImpl.costs_of (qchannels t)
        = [("BSM.r1.r2.auto", (["r2"; "r1"], 500 + 500)%Q);
           ("BSM.r2.r1.auto", (["r1"; "r2"], 1500 + 1500)%Q)]
        ∧ map (fun n => (name n, link_cost_of n)) (all_nodes (nodes t))
          = [("r1", Some (<["r2" := Num (1500 + 1500)]> ∅));
             ("r2", Some (<["r1" := Num (1500 + 1500)]> ∅));
             ("BSM.r1.r2.auto", None); ("BSM.r2.r1.auto", None)]
    | Raise _ => False
    end.
Proof. vm_compute. repeat split; reflexivity. Qed.

(** ** C2: forwarding rules under the static discipline *)

(** *** The cost graph *)

Lemma edge_weight_add_node (n u v : string) (g : Graph) :
  edge_weight (add_node n g) u v = edge_weight g u v.
Proof. unfold add_node. by case_decide. Qed.

Lemma edge_weight_add_edge (a b u v : string) (d : Q) (g : Graph) :
  edge_weight (add_edge a b d g) u v =
    if decide ((u, v) = (a, b) ∨ (u, v) = (b, a)) then Some d else edge_weight g u v.
Proof.
  unfold add_edge, edge_weight. cbn [g_adj].
  destruct (decide ((u, v) = (b, a))) as [->|Hba].
  - rewrite lookup_insert_eq. rewrite decide_True; [done|by right].
  - rewrite lookup_insert_ne by done.
    destruct (decide ((u, v) = (a, b))) as [->|Hab].
    + rewrite lookup_insert_eq. rewrite decide_True; [done|by left].
    + rewrite lookup_insert_ne by done.
      rewrite decide_False; [|intros [?|?]; done].
      fold (edge_weight (add_node b (add_node a g)) u v).
      by rewrite !edge_weight_add_node.
Qed.

Lemma g_nodes_add_node (n x : string) (g : Graph) :
  x ∈ g_nodes (add_node n g) ↔ x = n ∨ x ∈ g_nodes g.
Proof.
  unfold add_node. case_decide; cbn [g_nodes].
  - split; [by right|]. by intros [->|?].
  - rewrite elem_of_app, elem_of_cons, elem_of_nil. tauto.
Qed.

Lemma g_nodes_add_edge (a b x : string) (d : Q) (g : Graph) :
  x ∈ g_nodes (add_edge a b d g) ↔ x = a ∨ x = b ∨ x ∈ g_nodes g.
Proof. unfold add_edge. cbn [g_nodes]. rewrite !g_nodes_add_node. tauto. Qed.

Lemma NoDup_add_node (n : string) (g : Graph) :
  NoDup (g_nodes g) → NoDup (g_nodes (add_node n g)).
Proof.
  intros H. unfold add_node. case_decide; [done|]. cbn [g_nodes].
  apply NoDup_app. split; [done|]. split; [|apply NoDup_singleton].
  intros x Hx [->|[]%elem_of_nil]%elem_of_cons. done.
Qed.

Lemma NoDup_add_edge (a b : string) (d : Q) (g : Graph) :
  NoDup (g_nodes g) → NoDup (g_nodes (add_edge a b d g)).
Proof. intros H. unfold add_edge. cbn [g_nodes]. by do 2 apply NoDup_add_node. Qed.

Lemma well_formed_new : well_formed Graph_new.
Proof.
  split; [constructor|]. split; [done|].
  intros u v [w H]. unfold edge_weight in H. cbn in H. by rewrite lookup_empty in H.
Qed.

Lemma well_formed_add_node (n : string) (g : Graph) :
  well_formed g → well_formed (add_node n g).
Proof.
  intros (Hnd & Hsym & Hin). split; [by apply NoDup_add_node|]. split.
  - intros u v. by rewrite !edge_weight_add_node.
  - intros u v. rewrite edge_weight_add_node, !g_nodes_add_node.
    intros H. destruct (Hin u v H). tauto.
Qed.

Lemma well_formed_add_edge (a b : string) (d : Q) (g : Graph) :
  well_formed g → well_formed (add_edge a b d g).
Proof.
  intros (Hnd & Hsym & Hin). split; [by apply NoDup_add_edge|]. split.
  - intros u v. rewrite !edge_weight_add_edge.
    destruct (decide ((u, v) = (a, b) ∨ (u, v) = (b, a))) as [H|H].
    + rewrite decide_True; [done|]. destruct H as [[= -> ->]|[= -> ->]]; tauto.
    + rewrite decide_False; [apply Hsym|].
      intros [[= -> ->]|[= -> ->]]; apply H; tauto.
  - intros u v. rewrite edge_weight_add_edge, !g_nodes_add_edge.
    case_decide as H.
    + intros _. destruct H as [[= -> ->]|[= -> ->]]; tauto.
    + intros H'. destruct (Hin u v H'). tauto.
Qed.

Lemma well_formed_declared (c : config) : well_formed (declared_graph c).
Proof.
  unfold declared_graph. generalize well_formed_new. generalize Graph_new.
  induction (cfg_nodes c) as [|nd ns IH]; intros g Hg; [done|]. simpl.
  apply IH. case_match; [done|]. by apply well_formed_add_node.
Qed.

Lemma well_formed_with_edges (costs : list (string * cost_info)) (g : Graph) :
  well_formed g → well_formed (with_edges costs g).
Proof.
  unfold with_edges. revert g. induction costs as [|[bsm [rs d]] costs IH]; intros g Hg;
    [done|]. simpl. apply IH.
  destruct rs as [|u [|v [|? ?]]]; try done. by apply well_formed_add_edge.
Qed.

Lemma well_formed_cost_graph (c : config) (qcs : list QuantumChannel) :
  well_formed (cost_graph c qcs).
Proof. apply well_formed_with_edges, well_formed_declared. Qed.

Lemma edge_weight_declared (c : config) (u v : string) :
  edge_weight (declared_graph c) u v = None.
Proof.
  unfold declared_graph.
  assert (H : edge_weight Graph_new u v = None) by apply lookup_empty.
  revert H. generalize Graph_new.
  induction (cfg_nodes c) as [|nd ns IH]; intros g Hg; [done|]. simpl.
  apply IH. case_match; [done|]. by rewrite edge_weight_add_node.
Qed.

Lemma g_nodes_declared (c : config) (x : string) :
  x ∈ g_nodes (declared_graph c) ↔ x ∈ endpoint_names c.
Proof.
  unfold declared_graph, endpoint_names.
  assert (H : x ∈ g_nodes Graph_new ↔ False) by apply elem_of_nil.
  transitivity (x ∈ g_nodes Graph_new ∨
                x ∈ map nd_name (filter (fun nd => is_midpoint_type (nd_type nd) = false)
                                        (cfg_nodes c))); [|tauto].
  clear H. generalize Graph_new.
  induction (cfg_nodes c) as [|nd ns IH]; intros g.
  - simpl. rewrite elem_of_nil. tauto.
  - cbn [fold_left]. rewrite IH, filter_cons.
    destruct (is_midpoint_type (nd_type nd)) eqn:E.
    + rewrite decide_False by done. tauto.
    + rewrite decide_True by done. cbn [map].
      rewrite g_nodes_add_node, elem_of_cons. tauto.
Qed.

Lemma g_nodes_with_edges (costs : list (string * cost_info)) (g : Graph) (x : string) :
  x ∈ g_nodes g → x ∈ g_nodes (with_edges costs g).
Proof.
  unfold with_edges. revert g. induction costs as [|[bsm [rs d]] costs IH]; intros g Hg;
    [done|]. simpl. apply IH.
  destruct rs as [|u [|v [|? ?]]]; try done. apply g_nodes_add_edge. tauto.
Qed.

(** *** The weights of the edges *)

Lemma with_edges_weight (costs : list (string * cost_info)) (g : Graph)
    (u v : string) (d : Q) :
  edge_weight g u v = Some d ∨ (∃ e, e ∈ costs ∧ joins e u v ∧ e.2.2 = d) →
  (∀ e, e ∈ costs → joins e u v → e.2.2 = d) →
  edge_weight (with_edges costs g) u v = Some d.
Proof.
  unfold with_edges. revert g.
  induction costs as [|[bsm [rs t]] costs IH]; intros g Hin Huniq.
  - destruct Hin as [H|(e & He & _)]; [done|by apply elem_of_nil in He].
  - cbn [fold_left snd fst].
    assert (Huniq' : ∀ e, e ∈ costs → joins e u v → e.2.2 = d)
      by (intros e He; apply Huniq; by apply list_elem_of_further).
    apply IH; [|done].
    destruct (decide (joins (bsm, (rs, t)) u v)) as [Hj|Hj].
    + left. pose proof (Huniq _ (list_elem_of_here _ _) Hj) as Ht. cbn in Ht. subst t.
      unfold joins in Hj. cbn [fst snd] in Hj.
      destruct rs as [|a [|b [|? ?]]]; try done.
      rewrite edge_weight_add_edge. rewrite decide_True; [done|].
      destruct Hj as [[-> ->]|[-> ->]]; tauto.
    + destruct Hin as [H|(e & [->|He]%elem_of_cons & Hje & Hd)];
        [left|done|right; by exists e].
      destruct rs as [|a [|b [|? ?]]]; try done.
      rewrite edge_weight_add_edge. rewrite decide_False; [done|].
      intros Hab. apply Hj. unfold joins. cbn [fst snd].
      destruct Hab as [[= -> ->]|[= -> ->]]; [by left|by right].
Qed.

Lemma with_edges_origin (costs : list (string * cost_info)) (g : Graph)
    (u v : string) (w : Q) :
  edge_weight (with_edges costs g) u v = Some w →
  edge_weight g u v = Some w ∨ ∃ e, e ∈ costs ∧ joins e u v ∧ e.2.2 = w.
Proof.
  unfold with_edges. revert g.
  induction costs as [|[bsm [rs t]] costs IH]; intros g H; [by left|].
  cbn [fold_left snd fst] in H. apply IH in H as [H|(e & He & Hj & Hw)].
  - destruct rs as [|a [|b [|? ?]]]; try (by left).
    rewrite edge_weight_add_edge in H. case_decide as Hab; [|by left].
    right. exists (bsm, ([a; b], t)). split; [apply list_elem_of_here|].
    split; [|by injection H].
    unfold joins. cbn [fst snd].
    destruct Hab as [[= -> ->]|[= -> ->]]; [by left|by right].
  - right. exists e. split; [by apply list_elem_of_further|done].
Qed.

(** *** Walks *)

Lemma is_walk_snoc (g : Graph) (p : list string) (u v : string) :
  well_formed g → is_walk g p → last p = Some u → is_Some (edge_weight g u v) →
  is_walk g (p ++ [v]) ∧
  (walk_weight g (p ++ [v]) == walk_weight g p + default 0 (edge_weight g u v))%Q.
Proof.
  intros (_ & _ & Hin) Hp Hl He.
  induction p as [|x p IH]; [done|].
  destruct p as [|y p].
  - cbn in Hl. injection Hl as ->. cbn [app is_walk walk_weight].
    split; [split; [done|by apply (Hin u v)]|]. lra.
  - rewrite last_cons_cons in Hl. destruct Hp as [Hxy Hp].
    destruct (IH Hp Hl) as [Hw Hq].
    change ((x :: y :: p) ++ [v]) with (x :: ((y :: p) ++ [v])).
    change ((y :: p) ++ [v]) with (y :: (p ++ [v])) in *.
    cbn [is_walk walk_weight] in *. split; [done|].
    rewrite Hq. lra.
Qed.

Lemma head_app_nonempty {A} (l l' : list A) : l ≠ [] → head (l ++ l') = head l.
Proof. by destruct l. Qed.

Lemma rev_nonempty {A} (x : A) (l : list A) : rev (x :: l) ≠ [].
Proof. simpl. by destruct (rev l). Qed.

Lemma is_walk_rev (g : Graph) (p : list string) :
  well_formed g → is_walk g p →
  is_walk g (rev p) ∧ head (rev p) = last p ∧ last (rev p) = head p ∧
  (walk_weight g (rev p) == walk_weight g p)%Q.
Proof.
  intros Hwf Hp. induction p as [|x p IH]; [done|].
  destruct p as [|y p].
  - cbn. repeat split; done.
  - destruct Hp as [Hxy Hp]. destruct (IH Hp) as (Hw & Hh & Hl & Hq).
    assert (Hyx : is_Some (edge_weight g y x)).
    { destruct Hwf as (_ & Hsym & _). by rewrite Hsym. }
    change (rev (x :: y :: p)) with (rev (y :: p) ++ [x]).
    destruct (is_walk_snoc g (rev (y :: p)) y x Hwf Hw Hl Hyx) as [Hw' Hq'].
    split; [done|]. split.
    { rewrite head_app_nonempty by apply rev_nonempty.
      by rewrite Hh, last_cons_cons. }
    split; [by rewrite last_snoc|].
    rewrite Hq', Hq. cbn [walk_weight].
    destruct Hwf as (_ & Hsym & _). rewrite (Hsym y x). lra.
Qed.

Lemma path_from_to_rev (g : Graph) (s t : string) (p : list string) :
  well_formed g → path_from_to g s t p →
  path_from_to g t s (rev p) ∧ (walk_weight g (rev p) == walk_weight g p)%Q.
Proof.
  intros Hwf (Hp & Hh & Hl).
  destruct (is_walk_rev g p Hwf Hp) as (Hw & Hh' & Hl' & Hq).
  split; [|done]. split; [done|]. split; congruence.
Qed.

Lemma rev_rev {A} (l : list A) : rev (rev l) = l.
Proof. apply rev_involutive. Qed.

Lemma shortest_path_rev (g : Graph) (s t : string) (p : list string) :
  well_formed g → shortest_path g s t p → shortest_path g t s (rev p).
Proof.
  intros Hwf [Hp Hmin]. destruct (path_from_to_rev g s t p Hwf Hp) as [Hr Hq].
  split; [done|]. intros q Hqp.
  destruct (path_from_to_rev g t s q Hwf Hqp) as [Hqr Hqq].
  specialize (Hmin _ Hqr). rewrite Hq, <- Hqq. exact Hmin.
Qed.

Lemma reachable_sym (g : Graph) (s t : string) :
  well_formed g → reachable g s t → reachable g t s.
Proof.
  intros Hwf [p Hp]. exists (rev p). by apply path_from_to_rev.
Qed.

Lemma path_second (g : Graph) (s t : string) (p : list string) :
  path_from_to g s t p → s ≠ t → is_Some (p !! 1%nat).
Proof.
  intros (Hp & Hh & Hl) Hne. destruct p as [|x [|y p]]; [done| |by eexists].
  cbn in Hh, Hl. congruence.
Qed.

(** A potential [h] that no edge undercuts bounds every walk from
    below. *)
Lemma potential_bound (g : Graph) (h : string → Q) (q : list string) (u t : string) :
  (∀ a b w, edge_weight g a b = Some w → (h b <= h a + w)%Q) →
  is_walk g q → head q = Some u → last q = Some t →
  (h t <= h u + walk_weight g q)%Q.
Proof.
  intros Hh. revert u. induction q as [|x q IH]; intros u Hq Hhd Hl; [done|].
  cbn in Hhd. injection Hhd as Hx. subst u.
  destruct q as [|y q].
  - cbn in Hl. injection Hl as Hx. subst t. cbn [walk_weight]. lra.
  - destruct Hq as [[w Hxy] Hq]. rewrite last_cons_cons in Hl.
    specialize (IH y Hq eq_refl Hl).
    change (walk_weight g (x :: y :: q))
      with (default 0 (edge_weight g x y) + walk_weight g (y :: q))%Q.
    rewrite Hxy. cbn [default from_option id].
    pose proof (Hh x y w Hxy). lra.
Qed.

(** *** The rules of one node *)

Section StaticRules.

Variable dijkstra_path : Graph → string → string → outcome (list string).
Variable g : Graph.
Hypothesis g_well_formed : well_formed g.
Hypothesis contract : dijkstra_contract dijkstra_path g.

(** The path the generator computes is a shortest path from [src] to
    [dst]; there is none when [dst] cannot be reached. *)
Lemma next_hop_spec (src dst : string) :
  src ∈ g_nodes g → dst ∈ g_nodes g → src ≠ dst →
  (reachable g src dst →
     ∃ p hop, shortest_path g src dst p ∧ p !! 1%nat = Some hop ∧
              next_hop dijkstra_path g src dst = Some hop)
  ∧ (¬ reachable g src dst → next_hop dijkstra_path g src dst = None)
  ∧ ((if String.ltb src dst then dijkstra_path g src dst
      else dijkstra_path g dst src) = Raise NetworkXNoPath
     ∨ ∃ p, (if String.ltb src dst then dijkstra_path g src dst
             else dijkstra_path g dst src) = Return p
            ∧ is_Some ((if String.ltb src dst then p else rev p) !! 1%nat)).
Proof.
  intros Hs Hd Hne. unfold next_hop. rewrite decide_False by done.
  destruct (String.ltb src dst).
  - pose proof (contract src dst Hs Hd) as Hc.
    destruct (dijkstra_path g src dst) as [p|e].
    + destruct (path_second g src dst p (proj1 Hc) Hne) as [hop Hhop].
      split; [intros _; by exists p, hop|].
      split; [intros Hnr; exfalso; apply Hnr; exists p; apply Hc|].
      right. exists p. split; [done|by exists hop].
    + destruct Hc as [-> Hnr]. split; [done|]. split; [done|by left].
  - pose proof (contract dst src Hd Hs) as Hc.
    destruct (dijkstra_path g dst src) as [p|e].
    + apply shortest_path_rev in Hc; [|done].
      destruct (path_second g src dst (rev p) (proj1 Hc) Hne) as [hop Hhop].
      split; [intros _; by exists (rev p), hop|].
      split; [intros Hnr; exfalso; apply Hnr; exists (rev p); apply Hc|].
      right. exists p. split; [done|by exists hop].
    + destruct Hc as [-> Hnr]. split; [|split; [done|by left]].
      intros Hr. exfalso. apply Hnr. by apply reachable_sym.
Qed.

Lemma install_rule_static (dst : string) (n : node) (tbl : gmap string string) :
  network_manager n = Some (StaticRoutingProtocol tbl) →
  name n ∈ g_nodes g → dst ∈ g_nodes g →
  BsmNetworkImpl.install_rule dijkstra_path g dst n
  = (Return tt,
     with_routing
       (StaticRoutingProtocol
          match next_hop dijkstra_path g (name n) dst with
          | Some hop => <[dst := hop]> tbl
          | None => tbl
          end) n).
Proof.
  intros Hn Hs Hd. unfold BsmNetworkImpl.install_rule. unfold bind at 1, get.
  destruct (decide (name n = dst)) as [E|Hne].
  { unfold next_hop. rewrite decide_True by done. unfold ret.
    by rewrite with_routing_same. }
  destruct (next_hop_spec (name n) dst Hs Hd Hne) as (_ & _ & Hrun).
  unfold next_hop. rewrite decide_False by done.
  unfold try_except, bind, lift, ret, index, BsmNetworkImpl.add_forwarding_rule,
    BsmNetworkImpl.get_routing_protocol, bind, get, ret, modify.
  destruct (String.ltb (name n) dst).
  - destruct Hrun as [->|(p & -> & [hop Hhop])].
    + by rewrite with_routing_same.
    + rewrite Hn, Hhop. cbn. by rewrite Hn.
  - destruct Hrun as [->|(p & -> & [hop Hhop])].
    + by rewrite with_routing_same.
    + rewrite Hn, Hhop. cbn. by rewrite Hn.
Qed.

Lemma install_rules_static (dsts : list string) (n : node) (tbl : gmap string string) :
  network_manager n = Some (StaticRoutingProtocol tbl) →
  name n ∈ g_nodes g → (∀ dst, dst ∈ dsts → dst ∈ g_nodes g) →
  for_each dsts (BsmNetworkImpl.install_rule dijkstra_path g) n
  = (Return tt,
     with_routing
       (StaticRoutingProtocol (with_rules dijkstra_path g (name n) dsts tbl)) n).
Proof.
  revert n tbl. induction dsts as [|dst dsts IH]; intros n tbl Hn Hs Hd.
  - cbn. unfold ret. by rewrite with_routing_same.
  - rewrite for_each_cons. unfold bind.
    rewrite (install_rule_static dst n tbl Hn Hs) by (apply Hd, list_elem_of_here).
    rewrite (IH _ (match next_hop dijkstra_path g (name n) dst with
                   | Some hop => <[dst := hop]> tbl
                   | None => tbl
                   end)); [done|done|done|].
    intros d Hin. apply Hd. by apply list_elem_of_further.
Qed.

Lemma routed_static (n : node) (tbl : gmap string string) :
  network_manager n = Some (StaticRoutingProtocol tbl) →
  name n ∈ g_nodes g →
  for_each (g_nodes g) (BsmNetworkImpl.install_rule dijkstra_path g) n
  = (Return tt, routed dijkstra_path g n).
Proof.
  intros Hn Hs. unfold routed. rewrite Hn. by apply install_rules_static.
Qed.

(** What the table holds for a destination after the rules. *)
Lemma with_rules_lookup (src : string) (dsts : list string)
    (tbl : gmap string string) (dst : string) :
  NoDup dsts →
  with_rules dijkstra_path g src dsts tbl !! dst =
    if decide (dst ∈ dsts) then
      match next_hop dijkstra_path g src dst with
      | Some hop => Some hop
      | None => tbl !! dst
      end
    else tbl !! dst.
Proof.
  unfold with_rules. revert tbl. induction dsts as [|d dsts IH]; intros tbl Hnd.
  - cbn. rewrite decide_False; [done|apply not_elem_of_nil].
  - apply NoDup_cons in Hnd as [Hd Hnd]. cbn [fold_left]. rewrite IH by done.
    destruct (decide (dst = d)) as [->|Hne].
    + rewrite (decide_False (P := d ∈ dsts)) by done.
      rewrite decide_True by apply list_elem_of_here.
      destruct (next_hop dijkstra_path g src d); [apply lookup_insert_eq|done].
    + assert (Hother : match next_hop dijkstra_path g src d with
                       | Some hop => <[d:=hop]> tbl
                       | None => tbl
                       end !! dst = tbl !! dst).
      { destruct (next_hop dijkstra_path g src d); [|done].
        by apply lookup_insert_ne. }
      destruct (decide (dst ∈ dsts)) as [Hin|Hin].
      * rewrite decide_True by (by apply list_elem_of_further).
        by rewrite Hother.
      * rewrite decide_False; [done|].
        intros [?|?]%elem_of_cons; done.
Qed.

End StaticRules.

(** *** The generator under the static discipline *)

Lemma add_weighted_edges_from_two (costs : list (string * cost_info)) (g : Graph) :
  (∀ bsm ci, (bsm, ci) ∈ costs → length ci.1 = 2%nat) →
  add_weighted_edges_from (map snd costs) g = Return (with_edges costs g).
Proof.
  unfold with_edges. revert g.
  induction costs as [|[bsm [rs d]] costs IH]; intros g Htwo; [done|].
  pose proof (Htwo bsm (rs, d) (list_elem_of_here _ _)) as Hlen. cbn [fst] in Hlen.
  destruct rs as [|u [|v [|? ?]]]; try done.
  cbn [map snd add_weighted_edges_from unpack3 fst fold_left].
  apply IH. intros b ci Hin. apply (Htwo b). by apply list_elem_of_further.
Qed.

Lemma first_routing_protocol_static (reg : registry) :
  known_types reg → static_discipline reg →
  (BsmNetworkImpl.first_routing_protocol reg = Return None ∧
   ∀ ty l, (ty, l) ∈ reg → is_midpoint_type ty = false → l = [])
  ∨ ∃ tbl, BsmNetworkImpl.first_routing_protocol reg
           = Return (Some (StaticRoutingProtocol tbl)).
Proof.
  induction reg as [|[ty l] reg IH]; intros Hk Hd.
  - left. split; [done|]. intros ? ? H. by apply elem_of_nil in H.
  - assert (Hk' : known_types reg)
      by (intros ? ? ?; eapply Hk; by apply list_elem_of_further).
    assert (Hd' : static_discipline reg)
      by (intros ? ? ? ? ? ?; eapply Hd; [by apply list_elem_of_further|done..]).
    destruct (Hk ty l) as [t Ht]; [apply list_elem_of_here|].
    simpl. rewrite Ht.
    pose proof (is_midpoint_type_as_NodeType ty t Ht) as Hmt.
    destruct (MIDPOINT_NODE_TYPES t) eqn:Hm.
    + destruct (IH Hk' Hd') as [[H1 H2]|H]; [left|by right].
      split; [done|]. intros ty' l' [[= -> ->]|Hin]%elem_of_cons Hf; [congruence|].
      by eapply H2.
    + destruct l as [|n l].
      * destruct (IH Hk' Hd') as [[H1 H2]|H]; [left|by right].
        split; [done|]. intros ty' l' [[= -> ->]|Hin]%elem_of_cons Hf; [done|].
        by eapply H2.
      * right. destruct (Hd ty (n :: l) n) as (tbl & Hn);
          [apply list_elem_of_here|by rewrite Hmt|apply list_elem_of_here|].
        rewrite Hn. by exists tbl.
Qed.

Lemma routed_registry_no_endpoints dijkstra_path g (reg : registry) :
  (∀ ty l, (ty, l) ∈ reg → is_midpoint_type ty = false → l = []) →
  routed_registry dijkstra_path g reg = reg.
Proof.
  unfold routed_registry. induction reg as [|[ty l] reg IH]; intros H; [done|].
  simpl. rewrite IH by (intros ? ? ?; apply H; by apply list_elem_of_further).
  destruct (is_midpoint_type ty) eqn:E; [done|].
  by rewrite (H ty l (list_elem_of_here _ _) E).
Qed.

Lemma static_rules_returns
    (dijkstra_path : Graph → string → string → outcome (list string))
    (g : Graph) (reg : registry) :
  well_formed g → dijkstra_contract dijkstra_path g →
  known_types reg → static_discipline reg →
  (∀ ty l n, (ty, l) ∈ reg → is_midpoint_type ty = false → n ∈ l → name n ∈ g_nodes g) →
  BsmNetworkImpl.static_rules dijkstra_path g reg
  = (Return tt, routed_registry dijkstra_path g reg).
Proof.
  intros Hwf Hdp Hk Hd Hnames. unfold BsmNetworkImpl.static_rules, routed_registry.
  apply (for_each_item_map _
           (fun ty l => if is_midpoint_type ty then l
                        else map (routed dijkstra_path g) l)).
  intros ty l Hin. destruct (Hk ty l Hin) as [t Ht].
  unfold bind at 1, as_NodeType. rewrite Ht. unfold ret at 1.
  rewrite (is_midpoint_type_as_NodeType ty t Ht).
  destruct (MIDPOINT_NODE_TYPES t) eqn:Hm; [done|].
  assert (Hty : is_midpoint_type ty = false)
    by (by rewrite (is_midpoint_type_as_NodeType ty t Ht)).
  apply for_each_in_map. intros n Hn.
  destruct (Hd ty l n Hin Hty Hn) as (tbl & Hnm).
  apply (routed_static dijkstra_path g Hwf Hdp n tbl Hnm).
  by apply (Hnames ty l).
Qed.

(** The generator returns, with the rules of every endpoint node
    installed. *)
Lemma generate_static (dijkstra_path : Graph → string → string → outcome (list string))
    (init : routing_protocol → routing_protocol)
    (c : config) (qcs : list QuantumChannel) (reg : registry) :
  known_types_cfg c → known_types reg → static_discipline reg → built_from c reg →
  (∀ bsm ci, (bsm, ci) ∈ BsmNetworkImpl.costs_of qcs → length ci.1 = 2%nat) →
  dijkstra_contract dijkstra_path (cost_graph c qcs) →
  BsmNetworkImpl._generate_forwarding_table dijkstra_path init c qcs reg
  = (Return tt, routed_registry dijkstra_path (cost_graph c qcs) reg).
Proof.
  intros Hc Hk Hd Hb Htwo Hdp. unfold BsmNetworkImpl._generate_forwarding_table.
  unfold bind at 1, lift at 1. rewrite (graph_of_nodes_returns c Hc).
  unfold bind at 1, get. unfold bind at 1, lift at 1.
  destruct (first_routing_protocol_static reg Hk Hd) as [[-> Hno]|(tbl & ->)].
  - unfold ret. by rewrite routed_registry_no_endpoints.
  - unfold bind at 1, lift at 1.
    rewrite (add_weighted_edges_from_two _ _ Htwo).
    apply static_rules_returns; [apply well_formed_cost_graph|done..|].
    intros ty l n Hin Hty Hn. apply g_nodes_with_edges, g_nodes_declared.
    by apply (Hb ty l).
Qed.

(** *** The edge between two nodes *)

Lemma last_cons_or {A} (x : A) (l : list A) :
  last (x :: l) = match last l with Some y => Some y | None => Some x end.
Proof.
  revert x. induction l as [|y l IH]; intros x; [done|].
  rewrite last_cons_cons, (IH y). by destruct (last l).
Qed.

(** The weight of an edge is the total of the last entry between its two
    nodes. *)
Lemma with_edges_last (costs : list (string * cost_info)) (g : Graph) (u v : string) :
  edge_weight (with_edges costs g) u v
  = match last (joining costs u v) with
    | Some e => Some e.2.2
    | None => edge_weight g u v
    end.
Proof.
  unfold with_edges, joining. revert g.
  induction costs as [|[bsm [rs t]] costs IH]; intros g; [done|].
  cbn [fold_left fst snd]. rewrite IH, filter_cons.
  destruct (decide (joins (bsm, (rs, t)) u v)) as [Hj|Hj].
  - rewrite last_cons_or.
    destruct (last (filter (fun e => joins e u v) costs)); [done|].
    unfold joins in Hj. cbn [fst snd] in Hj.
    destruct rs as [|a [|b [|? ?]]]; try done.
    rewrite edge_weight_add_edge, decide_True; [done|].
    destruct Hj as [[-> ->]|[-> ->]]; tauto.
  - destruct (last (filter (fun e => joins e u v) costs)); [done|].
    destruct rs as [|a [|b [|? ?]]]; try done.
    rewrite edge_weight_add_edge, decide_False; [done|].
    intros Hab. apply Hj. unfold joins. cbn [fst snd].
    destruct Hab as [[= -> ->]|[= -> ->]]; [by left|by right].
Qed.

Lemma cost_graph_edge (c : config) (qcs : list QuantumChannel) (u v : string) :
  edge_weight (cost_graph c qcs) u v
  = (fun e => e.2.2) <$> last (joining (BsmNetworkImpl.costs_of qcs) u v).
Proof.
  unfold cost_graph. rewrite with_edges_last, edge_weight_declared.
  by destruct (last _).
Qed.

(** With two channels into every midpoint, the entries of [costs] are
    the midpoints, each with the senders of its two channels and the sum
    of their distances. *)
Lemma costs_of_two_channels (qcs : list QuantumChannel) (bsm : string) (ci : cost_info) :
  (∀ qc, qc ∈ qcs → length (channels_into (qc_receiver qc) qcs) = 2%nat) →
  (bsm, ci) ∈ BsmNetworkImpl.costs_of qcs
  ↔ ∃ q1 q2, channels_into bsm qcs = [q1; q2]
             ∧ ci = ([qc_sender q2; qc_sender q1], (qc_distance q1 + qc_distance q2)%Q).
Proof.
  intros Htwo. rewrite costs_of_elem. split.
  - unfold cost_entry. intros H.
    destruct (channels_into bsm qcs) as [|q rest] eqn:E; [done|].
    assert (Hq : q ∈ channels_into bsm qcs) by (rewrite E; apply list_elem_of_here).
    apply list_elem_of_filter in Hq as [Hr Hq].
    specialize (Htwo q Hq). rewrite Hr, E in Htwo.
    destruct rest as [|q2 [|? ?]]; try done.
    exists q, q2. split; [done|]. by injection H as <-.
  - intros (q1 & q2 & Hch & ->). by apply cost_entry_two.
Qed.

Lemma last_elem_of {A} (l : list A) (x : A) : last l = Some x → x ∈ l.
Proof.
  induction l as [|y l IH]; [done|]. rewrite last_cons_or.
  destruct (last l) eqn:E.
  - intros [= ->]. by apply list_elem_of_further, IH.
  - intros [= ->]. apply list_elem_of_here.
Qed.

Lemma last_is_Some {A} (l : list A) (x : A) : x ∈ l → is_Some (last l).
Proof. destruct l as [|y l]; [by intros ?%elem_of_nil|]. intros _. rewrite last_cons_or.
  by destruct (last l). Qed.

(** The edge of a midpoint carries its sum when every midpoint between
    the same two nodes has that sum. *)
Lemma cost_graph_edge_of_midpoint (c : config) (qcs : list QuantumChannel)
    (bsm : string) (q1 q2 : QuantumChannel) :
  channels_into bsm qcs = [q1; q2] →
  (∀ e, e ∈ BsmNetworkImpl.costs_of qcs → joins e (qc_sender q1) (qc_sender q2) →
        e.2.2 = (qc_distance q1 + qc_distance q2)%Q) →
  edge_weight (cost_graph c qcs) (qc_sender q1) (qc_sender q2)
  = Some (qc_distance q1 + qc_distance q2)%Q.
Proof.
  intros Hch Huniq. rewrite cost_graph_edge.
  assert (Hin : (bsm, ([qc_sender q2; qc_sender q1],
                       (qc_distance q1 + qc_distance q2)%Q))
                ∈ joining (BsmNetworkImpl.costs_of qcs) (qc_sender q1) (qc_sender q2)).
  { apply list_elem_of_filter. split; [by right|].
    apply costs_of_elem. by apply cost_entry_two. }
  destruct (last_is_Some _ _ Hin) as [e He]. rewrite He. cbn.
  apply last_elem_of, list_elem_of_filter in He as [Hj He].
  f_equal. by apply Huniq.
Qed.

(** *** The claim *)


(** *** The chain A, B, C *)

Lemma chain_graph_nodes :
  g_nodes (cost_graph chain_config chain_channels) = ["A"; "B"; "C"].
Proof. vm_compute. reflexivity. Qed.

(** No edge of the chain is shorter than the distance between the
    positions of its two nodes. *)
Lemma chain_edges (a b : string) (w : Q) :
  edge_weight (cost_graph chain_config chain_channels) a b = Some w →
  (chain_position b <= chain_position a + w)%Q
  ∧ (chain_position a <= chain_position b + w)%Q.
Proof.
  intros H.
  destruct (well_formed_cost_graph chain_config chain_channels) as (_ & _ & Hin).
  destruct (Hin a b) as [Ha Hb]; [by eexists|].
  rewrite chain_graph_nodes in Ha, Hb.
  each_member Ha; each_member Hb; vm_compute in H; try discriminate H;
    injection H as <-; split; apply Qle_bool_imp_le; vm_compute; reflexivity.
Qed.

Lemma chain_positions :
  chain_position "A" = 0%Q ∧ chain_position "B" = 1000%Q ∧ chain_position "C" = 3000%Q.
Proof. vm_compute. by repeat split. Qed.

(** The routine that enumerates the paths keeps to the contract on the
    chain. *)
Lemma chain_contract :
  dijkstra_contract enumerate_shortest (cost_graph chain_config chain_channels).
Proof.
  intros s t Hs Ht. rewrite chain_graph_nodes in Hs, Ht.
  assert (Hbound : ∀ q, path_from_to (cost_graph chain_config chain_channels) s t q →
            (chain_position t <= chain_position s
                                 + walk_weight (cost_graph chain_config chain_channels) q)%Q
            ∧ (- chain_position t <= - chain_position s
                                 + walk_weight (cost_graph chain_config chain_channels) q)%Q).
  { intros q (Hq & Hh & Hl). split.
    - apply (potential_bound _ chain_position q s t); [|done..].
      intros a b w Hw. apply (chain_edges a b w Hw).
    - apply (potential_bound _ (fun x => - chain_position x)%Q q s t); [|done..].
      intros a b w Hw. destruct (chain_edges a b w Hw). lra. }
  destruct chain_positions as (PA & PB & PC).
  each_member Hs; each_member Ht;
    match goal with
    | |- match ?run with _ => _ end =>
        let r := eval vm_compute in run in
        let E := fresh "E" in
        assert (E : run = r) by (vm_compute; reflexivity);
        rewrite E; clear E
    end;
    (split;
     [ split; [|split; reflexivity];
       cbn [is_walk]; repeat match goal with |- _ ∧ _ => split end;
       refine (bool_decide_unpack _ _); vm_compute; exact I
     | intros q Hq; destruct (Hbound q Hq) as [H1 H2];
       revert H1 H2;
       generalize (walk_weight (cost_graph chain_config chain_channels) q);
       intros wq H1 H2;
       match goal with
       | |- (?w <= _)%Q =>
           let r := eval vm_compute in w in
           let E := fresh "E" in
           assert (E : w = r) by (vm_compute; reflexivity);
           rewrite E; clear E
       end;
       rewrite ?PA, ?PB, ?PC in H1, H2; lra ]).
Qed.


(** The chain through the whole pipeline: two midpoints are created, each
    with two endpoints, and the table of A sends C over B. *)
Lemma C2_chain_pipeline_example :
  match CreateTopo binary64 bsm_impl_static RouterNetTopo_NODE_TYPES chain_config with
  | Return t =>
      bsm_to_router_map t
      = [("BSM.A.B.auto", ["A"; "B"]); ("BSM.B.C.auto", ["B"; "C"])]
      ∧ qchannels t = chain_channels
      ∧ map (fun n => (name n, forwarding_table_of n)) (all_nodes (nodes t))
        = [("A", Some (<["C" := "B"]> (<["B" := "B"]> ∅)));
           ("B", Some (<["C" := "C"]> (<["A" := "A"]> ∅)));
           ("C", Some (<["B" := "B"]> (<["A" := "B"]> ∅)));
           ("BSM.A.B.auto", None);
           ("BSM.B.C.auto", None)]
  | Raise _ => False
  end.
Proof. vm_compute. repeat split. Qed.


(** ** Wire inference of the DQC topology *)

Lemma dict_set_fresh {K V} `{EqDecision K} (k : K) (v : V) (d : list (K * V)) :
  k ∉ map fst d → dict_set k v d = d ++ [(k, v)].
Proof.
  induction d as [|[k' v'] d IH]; intros Hk; [done|]. cbn.
  rewrite decide_False.
  - rewrite IH; [done|]. intros Hin. apply Hk. cbn. by apply list_elem_of_further.
  - intros ->. apply Hk. cbn. apply list_elem_of_here.
Qed.

Lemma wires_from_keys (start : Z) (owners : list string) (k : Z) :
  k ∈ map fst (wires_from start owners)
  ↔ (start <= k < start + Z.of_nat (length owners))%Z.
Proof.
  revert start. induction owners as [|o owners IH]; intros start.
  - cbn. rewrite elem_of_nil. lia.
  - cbn [wires_from map fst length]. rewrite elem_of_cons, IH. lia.
Qed.

Lemma wires_from_app (start : Z) (l1 l2 : list string) :
  wires_from start (l1 ++ l2)
  = wires_from start l1 ++ wires_from (start + Z.of_nat (length l1)) l2.
Proof.
  revert start. induction l1 as [|o l1 IH]; intros start.
  - cbn. by rewrite Z.add_0_r.
  - cbn [app wires_from length]. rewrite IH. do 3 f_equal. lia.
Qed.

(** The inner loop: [k] wires for one node, or the overflow error at the
    first wire that has no room. *)
Lemma assign_wires (total_wires : Z) (nm : string) (k : nat)
    (assigned : list string) :
  (Z.of_nat (length assigned) <= Z.max 0 total_wires)%Z →
  for_each (replicate k tt) (fun _ => DQCNetTopo.assign_wire total_wires nm)
           (wires_from 0 assigned, Z.of_nat (length assigned))
  = if decide (Z.of_nat (length assigned + k) <= Z.max 0 total_wires)%Z
    then (Return tt,
          (wires_from 0 (assigned ++ replicate k nm),
           Z.of_nat (length (assigned ++ replicate k nm))))
    else (Raise (ValueError ("Mapping overflow: more data qubits than "
                             +:+ str_of_int total_wires)),
          (wires_from 0 (assigned ++ replicate (Z.to_nat (Z.max 0 total_wires)
                                                - length assigned) nm),
           Z.max (Z.of_nat (length assigned)) (Z.max 0 total_wires))).
Proof.
  revert assigned. induction k as [|k IH]; intros assigned Hinv.
  - cbn [replicate for_each]. unfold ret.
    rewrite decide_True by lia. by rewrite app_nil_r.
  - cbn [replicate for_each]. unfold bind at 1.
    unfold DQCNetTopo.assign_wire at 1. unfold bind at 1, get. cbn [snd].
    destruct (decide (total_wires <= Z.of_nat (length assigned))%Z) as [Hfull|Hroom].
    + unfold raise. rewrite decide_False by lia.
      replace (Z.to_nat (Z.max 0 total_wires) - length assigned)%nat with 0%nat by lia.
      cbn [replicate]. rewrite app_nil_r. do 2 f_equal. lia.
    + unfold modify.
      rewrite dict_set_fresh by (rewrite wires_from_keys; lia).
      replace (wires_from 0 assigned ++ [(Z.of_nat (length assigned), nm)])
        with (wires_from 0 (assigned ++ [nm]))
        by (rewrite wires_from_app; cbn; by rewrite Z.add_0_l).
      replace (Z.of_nat (length assigned) + 1)%Z
        with (Z.of_nat (length (assigned ++ [nm])))
        by (rewrite length_app; cbn; lia).
      rewrite IH by (rewrite length_app; cbn; lia). rewrite length_app. cbn [length].
      rewrite <- !(assoc_L (++)). cbn [app].
      destruct (decide (Z.of_nat (length assigned + S k) <= Z.max 0 total_wires)%Z)
        as [Hle|Hgt].
      * rewrite decide_True by lia. done.
      * rewrite decide_False by lia.
        replace (Z.to_nat (Z.max 0 total_wires) - length assigned)%nat
          with (S (Z.to_nat (Z.max 0 total_wires) - (length assigned + 1)))%nat by lia.
        cbn [replicate].
        replace (Z.max (Z.of_nat (length assigned + 1)) (Z.max 0 total_wires))
          with (Z.max (Z.of_nat (length assigned)) (Z.max 0 total_wires)) by lia.
        done.
Qed.

(** The outer loop: every data qubit of every declaration gets the next
    wire, or the loop stops with the overflow error. *)
Lemma assign_all (total_wires : Z) (raw_nodes : list DQCNetTopo.dqc_node_decl)
    (assigned : list string) :
  (Z.of_nat (length assigned) <= Z.max 0 total_wires)%Z →
  let run :=
    for_each raw_nodes
      (fun nd =>
         for_each (replicate (Z.to_nat (default 1%Z (DQCNetTopo.nd_n_data nd))) tt)
           (fun _ => DQCNetTopo.assign_wire total_wires
                       (nd_name (DQCNetTopo.dqc_decl nd))))
      (wires_from 0 assigned, Z.of_nat (length assigned)) in
  let all := assigned ++ data_qubit_owners raw_nodes in
  if decide (Z.of_nat (length all) <= Z.max 0 total_wires)%Z
  then run = (Return tt, (wires_from 0 all, Z.of_nat (length all)))
  else run.1 = Raise (ValueError ("Mapping overflow: more data qubits than "
                                  +:+ str_of_int total_wires)).
Proof.
  revert assigned. induction raw_nodes as [|nd raw_nodes IH]; intros assigned Hinv; cbn zeta.
  - cbn [data_qubit_owners flat_map for_each]. rewrite app_nil_r.
    by rewrite decide_True by done.
  - cbn [data_qubit_owners flat_map for_each]. unfold bind.
    rewrite (assign_wires total_wires _ _ assigned Hinv).
    set (k := Z.to_nat (default 1%Z (DQCNetTopo.nd_n_data nd))).
    set (nm := nd_name (DQCNetTopo.dqc_decl nd)).
    fold (data_qubit_owners raw_nodes).
    destruct (decide (Z.of_nat (length assigned + k) <= Z.max 0 total_wires)%Z)
      as [Hle|Hgt].
    + assert (Hinv' : (Z.of_nat (length (assigned ++ replicate k nm))
                       <= Z.max 0 total_wires)%Z)
        by (rewrite length_app, length_replicate; lia).
      specialize (IH (assigned ++ replicate k nm) Hinv'). cbn zeta in IH.
      rewrite <- (assoc_L (++)) in IH. cbv beta iota. exact IH.
    + cbv beta iota. rewrite decide_False; [done|].
      rewrite !length_app, length_replicate. lia.
Qed.

(** What [infer_qubit_to_node] returns or raises, by the number of data
    qubits that the declarations hold. *)
Lemma infer_qubit_to_node_eq (raw_nodes : list DQCNetTopo.dqc_node_decl)
    (total_wires : Z) :
  let owners := data_qubit_owners raw_nodes in
  let n := Z.of_nat (length owners) in
  DQCNetTopo.infer_qubit_to_node raw_nodes total_wires
  = if decide (n <= Z.max 0 total_wires)%Z then
      if decide (n ≠ total_wires) then
        Raise (ValueError ("Configured for " +:+ str_of_int n
                           +:+ " wires but circuit has " +:+ str_of_int total_wires))
      else Return (wires_from 0 owners)
    else Raise (ValueError ("Mapping overflow: more data qubits than "
                            +:+ str_of_int total_wires)).
Proof.
  cbn zeta. unfold DQCNetTopo.infer_qubit_to_node.
  pose proof (assign_all total_wires raw_nodes []) as H. cbn zeta in H.
  cbn [app length] in H. specialize (H ltac:(cbn; lia)).
  change (wires_from 0 []) with (@nil (Z * string)) in H.
  change (Z.of_nat 0) with 0%Z in H.
  destruct (decide (Z.of_nat (length (data_qubit_owners raw_nodes))
                    <= Z.max 0 total_wires)%Z) as [Hle|Hgt].
  - by rewrite H.
  - destruct (for_each _ _ _) as [[[]|e] st]; cbn in H; [done|].
    injection H as ->. done.
Qed.

Lemma wires_from_lookup (start : Z) (owners : list string) (i : nat) (o : string) :
  owners !! i = Some o → dict_get (start + Z.of_nat i)%Z (wires_from start owners) = Some o.
Proof.
  revert start i. induction owners as [|o' owners IH]; intros start i Hi; [done|].
  cbn [wires_from dict_get]. destruct i as [|i].
  - injection Hi as ->. rewrite decide_True by lia. done.
  - rewrite decide_False by lia.
    replace (start + Z.of_nat (S i))%Z with ((start + 1) + Z.of_nat i)%Z by lia.
    by apply IH.
Qed.

Lemma wires_from_fst (start : Z) (owners : list string) :
  map fst (wires_from start owners)
  = map (fun i => (start + Z.of_nat i)%Z) (seq 0 (length owners)).
Proof.
  revert start. induction owners as [|o owners IH]; intros start; [done|].
  cbn [wires_from map fst length seq]. rewrite Z.add_0_r. f_equal.
  rewrite IH, <- seq_shift, map_map. apply map_ext. intros i. lia.
Qed.

(** [infer_qubit_to_node] returns exactly when the declarations hold as
    many data qubits as the circuit has wires (a declaration without
    "n_data" holds one, a declaration with a negative "n_data" none). The
    mapping then has the wires 0, 1, ... in this order, once each, and
    wire [i] belongs to the node of the [i]-th data qubit in declaration
    order. *)
Theorem infer_qubit_to_node_returns (raw_nodes : list DQCNetTopo.dqc_node_decl)
    (total_wires : Z) :
  let owners := data_qubit_owners raw_nodes in
  (∀ mapping,
     DQCNetTopo.infer_qubit_to_node raw_nodes total_wires = Return mapping
     ↔ Z.of_nat (length owners) = total_wires ∧ mapping = wires_from 0 owners)
  ∧ map fst (wires_from 0 owners) = map Z.of_nat (seq 0 (length owners))
  ∧ (∀ i o, owners !! i = Some o →
            dict_get (Z.of_nat i) (wires_from 0 owners) = Some o).
Proof.
  cbn zeta. split; [|split].
  - intros mapping. rewrite infer_qubit_to_node_eq. cbn zeta.
    destruct (decide (_ <= _)%Z) as [Hle|Hgt].
    + destruct (decide (_ ≠ _)) as [Hne|Heq].
      * split; [done|]. by intros [? _].
      * apply dec_stable in Heq. split.
        -- intros [= <-]. done.
        -- intros [_ ->]. done.
    + split; [done|]. intros [? _]. lia.
  - rewrite wires_from_fst. apply map_ext. intros i. lia.
  - intros i o Hi. by apply (wires_from_lookup 0 _ i o).
Qed.

(** [infer_qubit_to_node] raises the overflow error exactly when the
    declarations hold more data qubits than the circuit has wires (more
    than none for a negative number of wires), and the error that names
    both counts exactly when they hold fewer. *)
Theorem infer_qubit_to_node_errors (raw_nodes : list DQCNetTopo.dqc_node_decl)
    (total_wires : Z) :
  let n := Z.of_nat (length (data_qubit_owners raw_nodes)) in
  ((Z.max 0 total_wires < n)%Z →
   DQCNetTopo.infer_qubit_to_node raw_nodes total_wires
   = Raise (ValueError ("Mapping overflow: more data qubits than "
                        +:+ str_of_int total_wires)))
  ∧ ((n <= Z.max 0 total_wires)%Z → n ≠ total_wires →
     DQCNetTopo.infer_qubit_to_node raw_nodes total_wires
     = Raise (ValueError ("Configured for " +:+ str_of_int n
                          +:+ " wires but circuit has " +:+ str_of_int total_wires)))
  ∧ (∀ e, DQCNetTopo.infer_qubit_to_node raw_nodes total_wires = Raise e →
          n ≠ total_wires).
Proof.
  cbn zeta. rewrite infer_qubit_to_node_eq. cbn zeta. split; [|split].
  - intros H. by rewrite decide_False by lia.
  - intros H1 H2. rewrite decide_True by done. by rewrite decide_True by done.
  - intros e. repeat case_decide; try done. lia.
Qed.

(** Three data qubits on three wires, on two wires and on four. *)
Lemma infer_qubit_to_node_examples :
  DQCNetTopo.infer_qubit_to_node dqc_raw_nodes 3
  = Return [(0%Z, "n1"); (1%Z, "n1"); (2%Z, "n2")]
  ∧ DQCNetTopo.infer_qubit_to_node dqc_raw_nodes 2
    = Raise (ValueError "Mapping overflow: more data qubits than 2")
  ∧ DQCNetTopo.infer_qubit_to_node dqc_raw_nodes 4
    = Raise (ValueError "Configured for 3 wires but circuit has 4")
  ∧ DQCNetTopo.infer_qubit_to_node [] (-1)
    = Raise (ValueError "Configured for 0 wires but circuit has -1").
Proof. vm_compute. repeat split. Qed.

(** *** Memory owners *)

Lemma dict_get_map_key {V} (keys : list string) (f : string → V) (k : string) :
  dict_get k (map (fun ty => (ty, f ty)) keys)
  = if decide (k ∈ keys) then Some (f k) else None.
Proof.
  induction keys as [|k' keys IH]; [done|]. cbn [map dict_get].
  destruct (decide (k' = k)) as [->|Hne].
  - rewrite decide_True; [done|apply list_elem_of_here].
  - rewrite IH. destruct (decide (k ∈ keys)) as [Hin|Hin].
    + rewrite decide_True; [done|by apply list_elem_of_further].
    + rewrite decide_False; [done|]. intros [?|?]%elem_of_cons; congruence.
Qed.

Lemma dict_set_map_key {V} (keys : list string) (f : string → V) (k : string) (v : V) :
  NoDup keys → k ∈ keys →
  dict_set k v (map (fun ty => (ty, f ty)) keys)
  = map (fun ty => (ty, if decide (ty = k) then v else f ty)) keys.
Proof.
  induction keys as [|k' keys IH]; intros Hnd Hin; [by apply elem_of_nil in Hin|].
  apply NoDup_cons in Hnd as [Hk' Hnd]. cbn [map dict_set].
  destruct (decide (k' = k)) as [->|Hne].
  - f_equal. apply map_ext_in. intros ty Hty%list_elem_of_In.
    rewrite decide_False; [done|]. by intros ->.
  - f_equal. apply IH; [done|].
    apply elem_of_cons in Hin as [?|?]; [congruence|done].
Qed.

Lemma init_data_owners (keys : list string) (d : list (string * list (Z * Z))) :
  NoDup keys → (∀ k, k ∈ keys → k ∉ map fst d) →
  fold_left (fun d nm => dict_set nm [] d) keys d
  = d ++ map (fun ty => (ty, [])) keys.
Proof.
  revert d. induction keys as [|k keys IH]; intros d Hnd Hfresh.
  - cbn. by rewrite app_nil_r.
  - apply NoDup_cons in Hnd as [Hk Hnd]. cbn [fold_left map].
    rewrite dict_set_fresh by (apply Hfresh, list_elem_of_here).
    rewrite IH; [by rewrite <- (assoc_L (++))|done|].
    intros k' Hk'. rewrite map_app, elem_of_app. cbn.
    intros [Hin|[->|[]%elem_of_nil]%elem_of_cons]; [|done].
    revert Hin. apply Hfresh. by apply list_elem_of_further.
Qed.

Lemma slots_from_keys (ty : string) (start base : Z) (owners : list string) (q : Z) :
  q ∈ map fst (slots_from ty start base owners) → (start <= q)%Z.
Proof.
  revert start base. induction owners as [|o owners IH]; intros start base;
    [by intros ?%elem_of_nil|].
  cbn [slots_from]. destruct (decide (o = ty)).
  - cbn [map fst]. intros [->|Hin]%elem_of_cons; [lia|]. apply IH in Hin. lia.
  - intros Hin. apply IH in Hin. lia.
Qed.

(** The loop over the wires: the first owner that is no key stops it
    with the key error; otherwise every key gets its wires, each with the
    number of its wires before it as the slot. *)
Lemma assign_slots (keys : list string) (owners : list string) (start : Z)
    (f : string → list (Z * Z)) :
  NoDup keys →
  (∀ ty q, q ∈ map fst (f ty) → (q < start)%Z) →
  let run :=
    for_each (wires_from start owners)
             (fun '(q, owner) => DQCNetTopo.assign_slot q owner)
             (map (fun ty => (ty, f ty)) keys) in
  match List.find (fun o => bool_decide (o ∉ keys)) owners with
  | Some o => run.1 = Raise (KeyError o)
  | None =>
      run = (Return tt,
             map (fun ty => (ty, f ty ++ slots_from ty start
                                          (Z.of_nat (length (f ty))) owners)) keys)
  end.
Proof.
  intros Hnd. revert start f. induction owners as [|o owners IH]; intros start f Hlt;
    cbn zeta.
  - cbn [wires_from for_each List.find slots_from]. unfold ret. f_equal.
    apply map_ext. intros ty. by rewrite app_nil_r.
  - assert (Hrun :
      for_each (wires_from start (o :: owners))
               (fun '(q, owner) => DQCNetTopo.assign_slot q owner)
               (map (fun ty => (ty, f ty)) keys)
      = if decide (o ∈ keys) then
          for_each (wires_from (start + 1) owners)
                   (fun '(q, owner) => DQCNetTopo.assign_slot q owner)
                   (map (fun ty => (ty, if decide (ty = o)
                                        then f o ++ [(start, Z.of_nat (length (f o)))]
                                        else f ty)) keys)
        else (Raise (KeyError o), map (fun ty => (ty, f ty)) keys)).
    { cbn [wires_from for_each]. unfold bind.
      unfold DQCNetTopo.assign_slot at 1. unfold bind, get.
      rewrite dict_get_map_key.
      destruct (decide (o ∈ keys)) as [Hin|Hout]; [|done].
      unfold modify.
      rewrite (dict_set_fresh start _ (f o))
        by (intros Hq; apply Hlt in Hq; lia).
      by rewrite dict_set_map_key by done. }
    rewrite Hrun. clear Hrun. cbn [List.find].
    destruct (decide (o ∈ keys)) as [Hin|Hout].
    + rewrite bool_decide_eq_false_2 by (by intros ?).
      specialize (IH (start + 1)%Z
                     (fun ty => if decide (ty = o)
                                then f o ++ [(start, Z.of_nat (length (f o)))]
                                else f ty)).
      cbn zeta in IH.
      assert (Hlt' : ∀ ty q,
                 q ∈ map fst (if decide (ty = o)
                              then f o ++ [(start, Z.of_nat (length (f o)))]
                              else f ty) → (q < start + 1)%Z).
      { intros ty q. destruct (decide (ty = o)) as [->|Hne].
        - rewrite map_app, elem_of_app. cbn.
          intros [Hq|[->|[]%elem_of_nil]%elem_of_cons]; [|lia].
          apply Hlt in Hq. lia.
        - intros Hq. apply Hlt in Hq. lia. }
      specialize (IH Hlt').
      destruct (List.find _ owners) as [o'|]; [exact IH|].
      rewrite IH. f_equal. apply map_ext. intros ty.
      cbn [slots_from]. destruct (decide (ty = o)) as [->|Hne].
      * rewrite decide_True by done. rewrite <- (assoc_L (++)). cbn [app].
        replace (Z.of_nat (length (f o ++ [(start, Z.of_nat (length (f o)))])))
          with (Z.of_nat (length (f o)) + 1)%Z
          by (rewrite length_app; cbn [length]; lia).
        done.
      * rewrite decide_False by (by intros ->). done.
    + rewrite bool_decide_eq_true_2 by done. done.
Qed.

Lemma slots_from_lookup (ty : string) (start base : Z) (owners : list string) (i : nat) :
  owners !! i = Some ty →
  dict_get (start + Z.of_nat i)%Z (slots_from ty start base owners)
  = Some (base + Z.of_nat (length (filter (fun o => o = ty) (take i owners))))%Z.
Proof.
  revert start base i. induction owners as [|o owners IH]; intros start base i Hi; [done|].
  cbn [slots_from]. destruct i as [|i].
  - injection Hi as ->. rewrite decide_True by done. cbn [dict_get take].
    rewrite decide_True by lia. cbn. f_equal. lia.
  - cbn [lookup list_lookup] in Hi. cbn [take]. rewrite filter_cons.
    replace (start + Z.of_nat (S i))%Z with ((start + 1) + Z.of_nat i)%Z by lia.
    destruct (decide (o = ty)) as [->|Hne].
    + cbn [dict_get]. rewrite decide_False by lia.
      rewrite (IH _ _ _ Hi). cbn [length]. f_equal. lia.
    + by rewrite (IH _ _ _ Hi).
Qed.

(** [infer_memory_owners] raises what [infer_qubit_to_node] raises.
    Otherwise it looks every owner up among the keys of [nodes], which are
    the type strings: the first data qubit whose node name is no such key
    raises the key error with that name; when every owner is a key, the
    result lists the keys in their order, each with its wires, and the
    slot of a wire is the number of lower wires of the same owner. *)
Theorem infer_memory_owners_spec (raw_nodes : list DQCNetTopo.dqc_node_decl)
    (nodes : registry) (total_wires : Z) (ancilla_inds : list Z) :
  NoDup (map fst nodes) →
  let owners := data_qubit_owners raw_nodes in
  DQCNetTopo.infer_memory_owners raw_nodes nodes total_wires ancilla_inds
  = match DQCNetTopo.infer_qubit_to_node raw_nodes total_wires with
    | Raise e => Raise e
    | Return _ =>
        match List.find (fun o => bool_decide (o ∉ map fst nodes)) owners with
        | Some o => Raise (KeyError o)
        | None => Return (map (fun ty => (ty, slots_from ty 0 0 owners)) (map fst nodes))
        end
    end
  ∧ ∀ i ty, owners !! i = Some ty →
            dict_get (Z.of_nat i) (slots_from ty 0 0 owners)
            = Some (Z.of_nat (length (filter (fun o => o = ty) (take i owners)))).
Proof.
  intros Hnd owners. split.
  - unfold DQCNetTopo.infer_memory_owners.
    pose proof (infer_qubit_to_node_eq raw_nodes total_wires) as Heq. cbn zeta in Heq.
    destruct (DQCNetTopo.infer_qubit_to_node raw_nodes total_wires) as [m|e]; [|done].
    assert (m = wires_from 0 owners) as ->.
    { subst owners. revert Heq. repeat case_decide; congruence. }
    rewrite (init_data_owners (map fst nodes) []) by (done || (intros ? _; apply not_elem_of_nil)).
    cbn [app].
    pose proof (assign_slots (map fst nodes) owners 0 (fun _ => []) Hnd) as H.
    cbn zeta in H. specialize (H ltac:(by intros ? ? ?%elem_of_nil)).
    destruct (List.find _ owners) as [o|].
    + destruct (for_each _ _ _) as [[[]|e] st]; cbn in H; [done|]. by injection H as ->.
    + rewrite H. done.
  - intros i ty Hi. pose proof (slots_from_lookup ty 0 0 owners i Hi) as H.
    by rewrite !Z.add_0_l in H.
Qed.

(** On the registry of a network of two computing nodes n1 and n2 the
    keys are "DQCNode" and "BSMNode": the owner n1 of wire 0 is no key. *)
Lemma infer_memory_owners_witness :
  DQCNetTopo.infer_memory_owners dqc_raw_nodes dqc_registry 3 [] = Raise (KeyError "n1").
Proof.
  destruct (infer_memory_owners_spec dqc_raw_nodes dqc_registry 3 []) as [H _].
  - refine (bool_decide_unpack _ _). vm_compute. exact I.
  - rewrite H. vm_compute. reflexivity.
Defined.

(** ** The node types *)

(** [NodeType(s)] and [.value] are inverse to each other: the member
    looked up by the value of [t] is [t], and a string resolves only to the
    member whose value it is; the strings that resolve are exactly the six
    values. Every member is classified as a midpoint or as an endpoint and
    never as both, so the check at import time finds nothing
    unclassified. *)
Theorem NodeType_round_trip_and_classification :
  (∀ t, NodeType_of (value t) = Some t)
  ∧ (∀ s t, NodeType_of s = Some t → value t = s)
  ∧ (∀ s, NodeType_of s = None ↔ s ∉ map value all_NodeType)
  ∧ (∀ t, MIDPOINT_NODE_TYPES t = negb (ENDPOINT_NODE_TYPES t))
  ∧ _unclassified = [].
Proof.
  split; [|split; [|split; [|split]]].
  - by intros [].
  - intros s t H. unfold NodeType_of in H. apply find_some in H as [_ H].
    by apply bool_decide_eq_true in H.
  - intros s. unfold NodeType_of. split.
    + intros H Hin. apply list_elem_of_In, in_map_iff in Hin as (t & <- & Ht).
      apply (find_none _ _ H) in Ht. by apply bool_decide_eq_false in Ht.
    + intros Hout. destruct (List.find _ _) as [t|] eqn:E; [|done].
      apply find_some in E as [Ht E]. apply bool_decide_eq_true in E.
      exfalso. apply Hout. rewrite <- E. by apply list_elem_of_In, in_map.
  - by intros [].
  - reflexivity.
Qed.

(** ** Running a sequence of steps *)

Lemma bind_run {S A B} (m : M S A) (k : A → M S B) (s s' : S) (a : A) :
  m s = (Return a, s') → bind m k s = k a s'.
Proof. intros H. unfold bind. by rewrite H. Qed.

Lemma bind_raise_run {S A B} (m : M S A) (k : A → M S B) (s s' : S) (e : exn) :
  m s = (Raise e, s') → bind m k s = (Raise e, s').
Proof. intros H. unfold bind. by rewrite H. Qed.

Lemma bind_get_run {S B} (k : S → M S B) (s : S) : bind get k s = k s s.
Proof. reflexivity. Qed.

(** ** Families that leave quantum connections alone *)

Lemma derived_delay_None ar (c : config) (q : qconnection) :
  derived_delay ar c q = None ↔ matching_delays ar c q = [].
Proof. unfold derived_delay. by destruct (matching_delays ar c q). Qed.

Lemma add_qconnections_ignored ar (impl : NetworkImpl) (c : config) :
  ignores_qconnections impl →
  Topology._add_qconnections ar impl c
  = (match first_unmatched ar c with
     | Some q => Raise (AssertionError q)
     | None => Return tt
     end, c).
Proof.
  intros Hi. unfold Topology._add_qconnections, first_unmatched, bind, get.
  induction (cfg_qconnections c) as [|q qs IH]; [done|].
  cbn [for_each List.find]. unfold bind. rewrite expand_qconnection_spec.
  destruct (derived_delay ar c q) as [d|] eqn:E.
  - rewrite Hi. rewrite bool_decide_eq_false_2; [exact IH|].
    intros H. apply derived_delay_None in H. congruence.
  - apply derived_delay_None in E. by rewrite bool_decide_eq_true_2.
Qed.

Lemma get_entity_by_name_empty (nm : string) : get_entity_by_name [] [] nm = None.
Proof. reflexivity. Qed.

Lemma add_qchannels_empty (c : config) (t : topology) :
  nodes t = [] → tl_others t = [] → Topology._add_qchannels c t = (Return tt, t).
Proof.
  intros Hn Ho. unfold Topology._add_qchannels.
  induction (default [] (cfg_qchannels c)) as [|qc l IH]; [done|].
  rewrite for_each_cons. unfold bind. rewrite install_qchannel_step, Hn, Ho.
  by rewrite get_entity_by_name_empty.
Qed.

Lemma add_cchannels_empty (c : config) (t : topology) :
  nodes t = [] → tl_others t = [] → Topology._add_cchannels c t = (Return tt, t).
Proof.
  intros Hn Ho. unfold Topology._add_cchannels.
  induction (cfg_cchannels c) as [|cc l IH]; [done|].
  rewrite for_each_cons. unfold bind. rewrite make_classical_channel_step, Hn, Ho.
  by rewrite get_entity_by_name_empty.
Qed.

Lemma make_classical_channel_empty src dst distance delay nm (t : topology) :
  nodes t = [] → tl_others t = [] →
  Topology._make_classical_channel src dst distance delay nm t = (Return tt, t).
Proof.
  intros Hn Ho. unfold Topology._make_classical_channel, bind, get.
  by rewrite Hn, Ho.
Qed.

Lemma add_cconnections_empty (c : config) (t : topology) :
  nodes t = [] → tl_others t = [] → Topology._add_cconnections c t = (Return tt, t).
Proof.
  intros Hn Ho. unfold Topology._add_cconnections.
  induction (cfg_cconnections c) as [|cn l IH]; [done|].
  cbn [for_each]. unfold bind at 1. cbn [for_each]. unfold bind.
  by rewrite !make_classical_channel_empty.
Qed.

(** [NoOpNetworkImpl] never constructs a node. With it the pipeline
    stops with the assertion error at the first quantum connection that no
    classical declaration matches; otherwise it stops with
    [NotImplementedError] as soon as the config declares a node, and for a
    config without nodes it returns the topology that holds the templates
    and nothing else: no node, no channel, the config as it was. *)
Theorem NoOpNetworkImpl_pipeline (ar : arithmetic) (NODE_TYPES : NODE_TYPES_t) (c : config) :
  CreateTopo ar NoOpNetworkImpl.impl NODE_TYPES c
  = match first_unmatched ar c with
    | Some q => Raise (AssertionError q)
    | None =>
        match cfg_nodes c with
        | [] => Return (set_templates (cfg_templates c) (_setup c))
        | _ :: _ =>
            Raise (NotImplementedError
                     ("NoOpNetworkImpl does not create nodes. "
                      +:+ "The topology must override _add_nodes itself."))
        end
    end.
Proof.
  unfold CreateTopo, Topology._run_pipeline.
  unfold bind at 1. unfold bind at 1, get, Topology._get_templates, modify.
  unfold bind at 1. unfold bind at 1, get. cbn [raw_cfg set_templates _setup].
  unfold Topology._add_parameters.
  set (t0 := set_templates (cfg_templates c) (_setup c)).
  assert (Hpar : ∃ t1, (((if decide (ORCHESTRATOR_str ∈ map nd_type (cfg_nodes c)
                                     ∨ CLIENT_str ∈ map nd_type (cfg_nodes c))
                          then Topology._add_qlan_parameters c else ret tt) >>
                         do t <- get;
                         zoom impl_attrs set_impl_attrs
                              (impl_add_parameters NoOpNetworkImpl.impl c t)) t0
                        = (Return tt, t1))
                       ∧ raw_cfg t1 = c ∧ nodes t1 = [] ∧ qchannels t1 = []
                       ∧ cchannels t1 = [] ∧ bsm_to_router_map t1 = []
                       ∧ tl_others t1 = []
                       ∧ (cfg_nodes c = [] → t1 = t0)).
  { unfold bind, get, zoom, ret. cbn.
    destruct (decide _) as [Hq|Hq].
    - unfold Topology._add_qlan_parameters, bind, get, modify.
      destruct (memo_fidelity (cfg_memo_orch c)); eexists; (split; [reflexivity|]);
        cbn; repeat split; try done; intros E; rewrite E in Hq; cbn in Hq;
        destruct Hq as [Hq|Hq]; by apply elem_of_nil in Hq.
    - eexists. split; [reflexivity|]. by cbn. }
  destruct Hpar as (t1 & -> & Hc & Hn & Hq & Hcc & Hm & Ho & Hsame).
  unfold bind at 1. unfold on_config, zoom.
  rewrite (add_qconnections_ignored ar NoOpNetworkImpl.impl (raw_cfg t1))
    by (by intros ? ? ?).
  rewrite Hc. destruct (first_unmatched ar c) as [q|]; [done|].
  unfold bind at 1. unfold bind at 1, get, Topology._add_timeline, ret.
  unfold bind at 1. unfold bind at 1, get. cbn [raw_cfg].
  unfold on_bsm_to_router_map, zoom. cbn.
  unfold bind at 1. unfold bind at 1, get. cbn [raw_cfg].
  unfold Topology._add_nodes. cbn [impl_ordered_node_dicts NoOpNetworkImpl.impl].
  destruct (cfg_nodes c) as [|nd nds] eqn:En.
  - cbn [for_each]. unfold ret at 1.
    unfold bind at 1. unfold bind at 1, get. cbn.
    unfold bind at 1. unfold bind at 1, get. cbn [raw_cfg].
    rewrite add_qchannels_empty by (cbn; done).
    unfold bind at 1. unfold bind at 1, get. cbn [raw_cfg].
    rewrite add_cchannels_empty by (cbn; done).
    unfold bind at 1. unfold bind at 1, get. cbn [raw_cfg].
    rewrite add_cconnections_empty by (cbn; done).
    unfold bind at 1. unfold bind at 1, get. cbn.
    unfold Topology._add_protocols, ret.
    rewrite (Hsame eq_refl). subst t0. reflexivity.
  - cbn [for_each]. unfold bind at 1. unfold bind at 1, get.
    unfold on_nodes_impl, zoom. cbn. done.
Qed.

(** ** Classical connections *)

Lemma for_each_flat_map {S A B} (f : A → list B) (body : B → M S unit) (l : list A) (s : S) :
  for_each (flat_map f l) body s = for_each l (fun x => for_each (f x) body) s.
Proof.
  revert s. induction l as [|x l IH]; intros s; [done|].
  cbn [flat_map]. rewrite for_each_app, for_each_cons. unfold bind.
  destruct (for_each (f x) body s) as [[[]|e] s']; [apply IH|done].
Qed.

Lemma add_cconnections_directions (c : config) (t : topology) :
  Topology._add_cconnections c t
  = Topology._add_cchannels
      (set_cfg_cchannels (fun _ => flat_map directions_of (cfg_cconnections c)) c) t.
Proof.
  unfold Topology._add_cconnections, Topology._add_cchannels.
  destruct c; cbn.
  by rewrite for_each_flat_map.
Qed.


(** A run: the connections r1-r2 and r2-r1 of [cconnection_twice_config]
    both stand for a channel called cc-r2-r1; the pipeline creates the two
    channels of the first connection and stops at the second. *)
Lemma add_cconnections_twice_example :
  (Topology._run_pipeline binary64 bsm_impl0 RouterNetTopo_NODE_TYPES
     (_setup cconnection_twice_config)).1
  = Raise (AssertionError_exists "cc-r2-r1")
  ∧ map cc_name
      (cchannels (Topology._run_pipeline binary64 bsm_impl0 RouterNetTopo_NODE_TYPES
                    (_setup cconnection_twice_config)).2)
    = ["cc-r1-r2"; "cc-r2-r1"].
Proof. vm_compute. split; reflexivity. Qed.

(** ** The QLAN family *)

(** Without a client and without an orchestrator among the declarations
    [Topology._add_parameters] does not set the QLAN attributes, and
    [QlanNetworkImpl._add_parameters] reads one of them: the pipeline stops
    there with the attribute error, whatever else the config holds. *)
Theorem Qlan_pipeline_needs_a_qlan_node (ar : arithmetic) (NODE_TYPES : NODE_TYPES_t)
    (c : config) :
  ¬ has_qlan_node c →
  CreateTopo ar QlanNetworkImpl.impl NODE_TYPES c
  = Raise (AttributeError "n_local_memories").
Proof.
  intros Hno. unfold CreateTopo, Topology._run_pipeline.
  unfold bind at 1. unfold bind at 1, get, Topology._get_templates, modify.
  unfold bind at 1. unfold bind at 1, get. cbn [raw_cfg set_templates _setup].
  unfold Topology._add_parameters. unfold has_qlan_node in Hno.
  rewrite decide_False by done.
  unfold bind, get, ret, zoom. cbn. done.
Qed.

(** A config of routers only, given to the QLAN family. *)
Lemma Qlan_pipeline_needs_a_qlan_node_witness :
  CreateTopo binary64 QlanNetworkImpl.impl QlanStarTopo_NODE_TYPES
             (config_of_nodes [router_decl "r1" 0])
  = Raise (AttributeError "n_local_memories").
Proof.
  apply Qlan_pipeline_needs_a_qlan_node.
  intros [H|H]; vm_compute in H; each_member H; discriminate.
Defined.

Lemma add_qlan_parameters_sets (c : config) (t : topology) :
  ∃ p, Topology._add_qlan_parameters c t = (Return tt, set_qlan p t)
       ∧ n_local_memories p = default 1%Z (cfg_local_memories c)
       ∧ meas_bases p = default "z" (cfg_measurement_bases c).
Proof.
  unfold Topology._add_qlan_parameters, bind, get, modify.
  destruct (memo_fidelity (cfg_memo_orch c)); eexists; (split; [reflexivity|done]).
Qed.

Lemma qlan_add_parameters (c : config) (t : topology) :
  has_qlan_node c →
  ∃ p, Topology._add_parameters QlanNetworkImpl.impl c t
       = (Return tt, set_impl_attrs (qlan_impl_attrs p (impl_attrs t)) (set_qlan p t))
       ∧ n_local_memories p = default 1%Z (cfg_local_memories c)
       ∧ meas_bases p = default "z" (cfg_measurement_bases c).
Proof.
  intros Hq. unfold Topology._add_parameters. unfold has_qlan_node in Hq.
  rewrite decide_True by done.
  destruct (add_qlan_parameters_sets c t) as (p & Hp & Hl & Hb).
  exists p. split; [|done].
  unfold bind at 1. rewrite Hp. unfold bind, get, zoom. cbn. done.
Qed.

(** The state of the pipeline when it comes to [_add_nodes], for a
    family that leaves quantum connections alone and maps no midpoint. *)
Lemma qlan_before_nodes ar (NODE_TYPES : NODE_TYPES_t) (c : config) :
  has_qlan_node c → first_unmatched ar c = None →
  ∃ p, n_local_memories p = default 1%Z (cfg_local_memories c)
       ∧ meas_bases p = default "z" (cfg_measurement_bases c)
       ∧ Topology._run_pipeline ar QlanNetworkImpl.impl NODE_TYPES (_setup c)
         = ((do t <- get; Topology._add_nodes QlanNetworkImpl.impl NODE_TYPES (raw_cfg t)) >>
            (do t <- get;
             on_nodes (impl_add_bsm_node_to_router QlanNetworkImpl.impl
                         (bsm_to_router_map t) (tl_others t))) >>
            (do t <- get; Topology._add_qchannels (raw_cfg t)) >>
            (do t <- get; Topology._add_cchannels (raw_cfg t)) >>
            (do t <- get; Topology._add_cconnections (raw_cfg t)) >>
            (do t <- get;
             on_nodes (impl_generate_forwarding_table QlanNetworkImpl.impl
                         (raw_cfg t) (qchannels t))) >>
            Topology._add_protocols)
             (set_impl_attrs (qlan_impl_attrs p impl_init)
                (set_qlan p (set_templates (cfg_templates c) (_setup c)))).
Proof.
  intros Hq Hm. unfold Topology._run_pipeline.
  destruct (qlan_add_parameters c (set_templates (cfg_templates c) (_setup c)) Hq)
    as (p & Hp & Hl & Hb).
  exists p. split; [done|]. split; [done|].
  erewrite bind_run; [|reflexivity].
  erewrite bind_run; [|rewrite bind_get_run; exact Hp].
  erewrite bind_run; cycle 1.
  { unfold on_config, zoom.
    rewrite (add_qconnections_ignored ar QlanNetworkImpl.impl) by (by intros ? ? ?).
    cbn [raw_cfg set_impl_attrs set_qlan set_templates _setup]. rewrite Hm.
    reflexivity. }
  erewrite bind_run; [|reflexivity].
  erewrite bind_run; [|reflexivity].
  reflexivity.
Qed.

Lemma qlan_create_foreign (nd : node_decl) (tmpl : template) (tl : list string)
    (m : list (string * list string)) (NODE_TYPES : NODE_TYPES_t)
    (st : impl_state * registry) :
  nd_type nd ∉ [CLIENT_str; ORCHESTRATOR_str] →
  QlanNetworkImpl._create_node nd (nd_type nd) tmpl tl m NODE_TYPES st
  = (Raise (ValueError ("Unknown QLAN node type '" +:+ nd_type nd +:+ "'")), st).
Proof.
  intros Hf. unfold QlanNetworkImpl._create_node.
  rewrite decide_False by (intros E; apply Hf; rewrite E; apply list_elem_of_here).
  rewrite decide_False; [done|].
  intros E. apply Hf. rewrite E. apply list_elem_of_further, list_elem_of_here.
Qed.

(** The QLAN family constructs the declarations of other types first
    and refuses them: a config that declares a client or an orchestrator,
    whose quantum connections are all matched, and that declares a node of
    another type stops with the error that names the type of the first
    such declaration, before any node or channel object exists. *)
Theorem Qlan_pipeline_refuses_other_types (ar : arithmetic) (NODE_TYPES : NODE_TYPES_t)
    (c : config) (nd0 : node_decl) (rest : list node_decl) :
  has_qlan_node c → first_unmatched ar c = None →
  foreign_nodes_of c = nd0 :: rest →
  ∃ t, Topology._run_pipeline ar QlanNetworkImpl.impl NODE_TYPES (_setup c)
       = (Raise (ValueError ("Unknown QLAN node type '" +:+ nd_type nd0 +:+ "'")), t)
       ∧ nodes t = [] ∧ qchannels t = [] ∧ cchannels t = []
       ∧ CreateTopo ar QlanNetworkImpl.impl NODE_TYPES c
         = Raise (ValueError ("Unknown QLAN node type '" +:+ nd_type nd0 +:+ "'")).
Proof.
  intros Hq Hm Hf.
  destruct (qlan_before_nodes ar NODE_TYPES c Hq Hm) as (p & _ & _ & Hrun).
  unfold CreateTopo. rewrite Hrun. clear Hrun.
  assert (Hnd0 : nd_type nd0 ∉ [CLIENT_str; ORCHESTRATOR_str]).
  { assert (Hin : nd0 ∈ foreign_nodes_of c) by (rewrite Hf; apply list_elem_of_here).
    by apply list_elem_of_filter in Hin as [? _]. }
  eexists. erewrite bind_raise_run; cycle 1.
  { rewrite bind_get_run. unfold Topology._add_nodes.
    cbn [impl_ordered_node_dicts QlanNetworkImpl.impl raw_cfg set_impl_attrs set_qlan
         set_templates _setup].
    unfold QlanNetworkImpl._ordered_node_dicts.
    fold (foreign_nodes_of c). rewrite Hf. cbn [app for_each].
    erewrite bind_raise_run; [reflexivity|].
    rewrite bind_get_run. unfold on_nodes_impl, zoom.
    cbn [impl_create_node QlanNetworkImpl.impl].
    rewrite qlan_create_foreign by done. reflexivity. }
  repeat split; reflexivity.
Qed.

(** A router among the declarations of a QLAN config. *)
Lemma Qlan_pipeline_refuses_other_types_witness :
  CreateTopo binary64 QlanNetworkImpl.impl QlanStarTopo_NODE_TYPES qlan_router_config
  = Raise (ValueError "Unknown QLAN node type 'QuantumRouter'").
Proof.
  destruct (Qlan_pipeline_refuses_other_types binary64 QlanStarTopo_NODE_TYPES
              qlan_router_config (router_decl "r1" 3) [])
    as (t & _ & _ & _ & _ & H).
  - left. refine (bool_decide_unpack _ _). vm_compute. exact I.
  - reflexivity.
  - reflexivity.
  - exact H.
Defined.

(** *** Construction of the clients and the orchestrators *)

Lemma name_client_object tpls nd : name (client_object tpls nd) = nd_name nd.
Proof. reflexivity. Qed.

Lemma name_orchestrator_object tpls n mb r nd :
  name (orchestrator_object tpls n mb r nd) = nd_name nd.
Proof. reflexivity. Qed.

Lemma all_nodes_entry (ty : string) (l : list node) : all_nodes (nodes_entry ty l) = l.
Proof. destruct l; [done|]. cbn. by rewrite app_nil_r. Qed.

Lemma all_nodes_app (r1 r2 : registry) : all_nodes (r1 ++ r2) = all_nodes r1 ++ all_nodes r2.
Proof. unfold all_nodes. by rewrite flat_map_app. Qed.

Lemma registry_append_entry (ty : string) (l : list node) (n : node) :
  registry_append ty n (nodes_entry ty l) = nodes_entry ty (l ++ [n]).
Proof.
  destruct l as [|x l]; [done|]. cbn. by rewrite decide_True by done.
Qed.

Lemma registry_append_after (ty ty' : string) (l l' : list node) (n : node) :
  ty' ≠ ty →
  registry_append ty n (nodes_entry ty' l' ++ nodes_entry ty l)
  = nodes_entry ty' l' ++ nodes_entry ty (l ++ [n]).
Proof.
  intros Hne. destruct l' as [|x l']; [apply registry_append_entry|].
  cbn [nodes_entry app registry_append]. rewrite decide_False by done.
  f_equal. apply registry_append_entry.
Qed.

Lemma qlan_built_names (base : topology) (clients orchs : list node_decl) :
  map name (all_nodes (nodes (qlan_built base clients orchs)))
  = map nd_name (clients ++ orchs).
Proof.
  cbn [nodes qlan_built]. rewrite all_nodes_app, !all_nodes_entry.
  rewrite !map_app, !map_map. done.
Qed.

(** One client more. *)
Lemma qlan_create_client (NODE_TYPES : NODE_TYPES_t) (base : topology)
    (clients : list node_decl) (nd : node_decl) :
  tl_others base = [] →
  nd_type nd = CLIENT_str → nd_name nd ∉ map nd_name clients →
  (do t <- get;
   on_nodes_impl
     (impl_create_node QlanNetworkImpl.impl nd (nd_type nd)
        (default ∅ (match nd_template nd with
                    | Some k => templates t !! k
                    | None => None
                    end))
        (tl_others t) (bsm_to_router_map t) NODE_TYPES)) (qlan_built base clients [])
  = (Return tt, qlan_built base (clients ++ [nd]) []).
Proof.
  intros Htl Hty Hfresh. rewrite bind_get_run. unfold on_nodes_impl, zoom.
  cbn [impl_create_node QlanNetworkImpl.impl]. unfold QlanNetworkImpl._create_node.
  rewrite decide_True by done.
  erewrite bind_run; cycle 1.
  { unfold QlanNetworkImpl.construct. rewrite bind_get_run.
    unfold entity_name_taken. cbn [snd].
    rewrite qlan_built_names. cbn [tl_others qlan_built]. rewrite Htl, !app_nil_r.
    rewrite bool_decide_eq_false_2 by done. reflexivity. }
  unfold modify, qlan_built. cbn [nodes impl_attrs templates raw_cfg bsm_to_router_map
    qchannels cchannels qlan map].
  change (nodes_entry ORCHESTRATOR_str []) with (@nil (string * list node)).
  rewrite !app_nil_r, Hty, registry_append_entry.
  rewrite !map_app. cbn [map]. rewrite !(assoc_L (++)).
  reflexivity.
Qed.

Lemma qlan_create_clients (NODE_TYPES : NODE_TYPES_t) (base : topology)
    (done todo : list node_decl) :
  tl_others base = [] →
  (∀ nd, nd ∈ todo → nd_type nd = CLIENT_str) →
  NoDup (map nd_name (done ++ todo)) →
  for_each todo
    (fun nd =>
       do t <- get;
       on_nodes_impl
         (impl_create_node QlanNetworkImpl.impl nd (nd_type nd)
            (default ∅ (match nd_template nd with
                        | Some k => templates t !! k
                        | None => None
                        end))
            (tl_others t) (bsm_to_router_map t) NODE_TYPES)) (qlan_built base done [])
  = (Return tt, qlan_built base (done ++ todo) []).
Proof.
  intros Htl. revert done. induction todo as [|nd todo IH]; intros done Hty Hnd.
  - by rewrite app_nil_r.
  - rewrite for_each_cons.
    erewrite bind_run; cycle 1.
    { apply qlan_create_client; [done|apply Hty, list_elem_of_here|].
      rewrite map_app in Hnd. apply NoDup_app in Hnd as (_ & Hd & _).
      intros Hin. apply (Hd _ Hin). cbn. apply list_elem_of_here. }
    rewrite IH.
    + by rewrite <- (assoc_L (++)).
    + intros nd' Hin. apply Hty. by apply list_elem_of_further.
    + by rewrite <- (assoc_L (++)).
Qed.

(** One orchestrator more, given the memories of all the clients. *)
Lemma qlan_create_orchestrator (NODE_TYPES : NODE_TYPES_t) (base : topology)
    (clients orchs : list node_decl) (nd : node_decl) :
  tl_others base = [] → memories_fit base clients →
  nd_type nd = ORCHESTRATOR_str → nd_name nd ∉ map nd_name (clients ++ orchs) →
  (do t <- get;
   on_nodes_impl
     (impl_create_node QlanNetworkImpl.impl nd (nd_type nd)
        (default ∅ (match nd_template nd with
                    | Some k => templates t !! k
                    | None => None
                    end))
        (tl_others t) (bsm_to_router_map t) NODE_TYPES)) (qlan_built base clients orchs)
  = (Return tt, qlan_built base clients (orchs ++ [nd])).
Proof.
  intros Htl Hfit Hty Hfresh. rewrite bind_get_run. unfold on_nodes_impl, zoom.
  cbn [impl_create_node QlanNetworkImpl.impl]. unfold QlanNetworkImpl._create_node.
  rewrite decide_False by (rewrite Hty; done).
  rewrite decide_True by done.
  rewrite bind_get_run.
  erewrite bind_run; cycle 1.
  { unfold QlanNetworkImpl.construct. rewrite bind_get_run.
    unfold entity_name_taken. cbn [snd].
    rewrite qlan_built_names. cbn [tl_others qlan_built]. rewrite Htl, app_nil_r.
    rewrite bool_decide_eq_false_2 by done.
    cbn [fst impl_attrs qlan_built impl_n_local_memories _remote_memories].
    rewrite decide_True by exact Hfit. reflexivity. }
  unfold modify, qlan_built. cbn [nodes impl_attrs templates raw_cfg bsm_to_router_map
    qchannels cchannels qlan fst impl_n_local_memories impl_meas_bases _remote_memories].
  rewrite Hty, registry_append_after by done.
  rewrite !map_app. cbn [map]. rewrite !(assoc_L (++)).
  reflexivity.
Qed.

Lemma qlan_create_orchestrators (NODE_TYPES : NODE_TYPES_t) (base : topology)
    (clients done todo : list node_decl) :
  tl_others base = [] → memories_fit base clients →
  (∀ nd, nd ∈ todo → nd_type nd = ORCHESTRATOR_str) →
  NoDup (map nd_name (clients ++ done ++ todo)) →
  for_each todo
    (fun nd =>
       do t <- get;
       on_nodes_impl
         (impl_create_node QlanNetworkImpl.impl nd (nd_type nd)
            (default ∅ (match nd_template nd with
                        | Some k => templates t !! k
                        | None => None
                        end))
            (tl_others t) (bsm_to_router_map t) NODE_TYPES)) (qlan_built base clients done)
  = (Return tt, qlan_built base clients (done ++ todo)).
Proof.
  intros Htl Hfit. revert done. induction todo as [|nd todo IH]; intros done Hty Hnd.
  - by rewrite app_nil_r.
  - rewrite for_each_cons.
    erewrite bind_run; cycle 1.
    { apply qlan_create_orchestrator; [done|done|apply Hty, list_elem_of_here|].
      rewrite (assoc_L (++)), map_app in Hnd. apply NoDup_app in Hnd as (_ & Hd & _).
      intros Hin. apply (Hd _ Hin). cbn. apply list_elem_of_here. }
    rewrite IH.
    + by rewrite <- (assoc_L (++)).
    + intros nd' Hin. apply Hty. by apply list_elem_of_further.
    + by rewrite <- !(assoc_L (++)).
Qed.

Lemma NoDup_two_filters {A} (f : A → string) (P Q : A → Prop)
    `{∀ x, Decision (P x)} `{∀ x, Decision (Q x)} (l : list A) :
  (∀ x, P x → Q x → False) →
  NoDup (map f l) → NoDup (map f (filter P l ++ filter Q l)).
Proof.
  intros Hdis. induction l as [|x l IH]; intros Hnd; [constructor|].
  cbn [map] in Hnd. apply NoDup_cons in Hnd as [Hx Hnd]. specialize (IH Hnd).
  assert (Hsub : ∀ (R : A → Prop) `{∀ y, Decision (R y)}, f x ∉ map f (filter R l)).
  { intros R ? Hin. apply Hx. apply list_elem_of_In, in_map_iff in Hin as (y & Hy & Hin).
    rewrite <- Hy. apply list_elem_of_In, in_map.
    apply list_elem_of_In in Hin. apply list_elem_of_filter in Hin as [_ Hin].
    by apply list_elem_of_In. }
  rewrite !filter_cons.
  destruct (decide (P x)) as [HP|HP], (decide (Q x)) as [HQ|HQ].
  - by destruct (Hdis x).
  - cbn [app map]. apply NoDup_cons. split; [|done].
    rewrite map_app, elem_of_app. intros [Hin|Hin]; by eapply Hsub.
  - rewrite map_app in *. cbn [map].
    apply NoDup_app in IH as (H1 & H2 & H3). apply NoDup_app.
    split; [done|]. split.
    + intros y Hy [->|Hin]%elem_of_cons; [by eapply Hsub|by eapply H2].
    + apply NoDup_cons. split; [by apply Hsub|done].
  - done.
Qed.

Lemma NoDup_map_filter {A} (f : A → string) (P : A → Prop)
    `{∀ x, Decision (P x)} (l : list A) :
  NoDup (map f l) → NoDup (map f (filter P l)).
Proof.
  induction l as [|x l IH]; intros Hnd; [constructor|].
  cbn [map] in Hnd. apply NoDup_cons in Hnd as [Hx Hnd].
  rewrite filter_cons. destruct (decide (P x)); [|by apply IH].
  cbn [map]. apply NoDup_cons. split; [|by apply IH].
  intros Hin. apply Hx. apply list_elem_of_In, in_map_iff in Hin as (y & Hy & Hin).
  rewrite <- Hy. apply list_elem_of_In, in_map.
  apply list_elem_of_In in Hin. apply list_elem_of_filter in Hin as [_ Hin].
  by apply list_elem_of_In.
Qed.

Lemma qlan_only_has_qlan_node (c : config) :
  cfg_nodes c ≠ [] → foreign_nodes_of c = [] → has_qlan_node c.
Proof.
  unfold foreign_nodes_of, has_qlan_node. destruct (cfg_nodes c) as [|nd l]; [done|].
  intros _. rewrite filter_cons. cbn [map].
  destruct (decide (nd_type nd ∉ [CLIENT_str; ORCHESTRATOR_str])) as [|Hin]; [done|].
  intros _. apply dec_stable in Hin.
  apply elem_of_cons in Hin as [E|[E|[]%elem_of_nil]%elem_of_cons].
  - right. rewrite E. apply list_elem_of_here.
  - left. rewrite E. apply list_elem_of_here.
Qed.

(** The orchestrator whose constructor refuses the local memory count. *)
Lemma qlan_orchestrator_refused (NODE_TYPES : NODE_TYPES_t) (base : topology)
    (clients : list node_decl) (nd : node_decl) :
  tl_others base = [] → ¬ memories_fit base clients →
  nd_type nd = ORCHESTRATOR_str → nd_name nd ∉ map nd_name clients →
  (do t <- get;
   on_nodes_impl
     (impl_create_node QlanNetworkImpl.impl nd (nd_type nd)
        (default ∅ (match nd_template nd with
                    | Some k => templates t !! k
                    | None => None
                    end))
        (tl_others t) (bsm_to_router_map t) NODE_TYPES)) (qlan_built base clients [])
  = (Raise (ValueError_local_memories (impl_n_local_memories (impl_attrs base))
              (length (_remote_memories (impl_attrs base) ++ map nd_name clients))),
     qlan_built base clients []).
Proof.
  intros Htl Hfit Hty Hfresh. rewrite bind_get_run. unfold on_nodes_impl, zoom.
  cbn [impl_create_node QlanNetworkImpl.impl]. unfold QlanNetworkImpl._create_node.
  rewrite decide_False by (rewrite Hty; done).
  rewrite decide_True by done.
  rewrite bind_get_run.
  erewrite bind_raise_run; cycle 1.
  { unfold QlanNetworkImpl.construct. rewrite bind_get_run.
    unfold entity_name_taken. cbn [snd].
    rewrite qlan_built_names. cbn [tl_others qlan_built]. rewrite Htl, !app_nil_r.
    rewrite bool_decide_eq_false_2 by done.
    cbn [fst impl_attrs qlan_built impl_n_local_memories _remote_memories].
    rewrite decide_False by exact Hfit. reflexivity. }
  unfold qlan_built. cbn. reflexivity.
Qed.

(** When the nodes are there, the QLAN pipeline installs the channels
    and does nothing more. *)
Lemma qlan_after_nodes (c : config) (t : topology) :
  raw_cfg t = c →
  ((do t <- get;
    on_nodes (impl_add_bsm_node_to_router QlanNetworkImpl.impl
                (bsm_to_router_map t) (tl_others t))) >>
   (do t <- get; Topology._add_qchannels (raw_cfg t)) >>
   (do t <- get; Topology._add_cchannels (raw_cfg t)) >>
   (do t <- get; Topology._add_cconnections (raw_cfg t)) >>
   (do t <- get;
    on_nodes (impl_generate_forwarding_table QlanNetworkImpl.impl
                (raw_cfg t) (qchannels t))) >>
   Topology._add_protocols) t
  = (Topology._add_qchannels c >> Topology._add_cchannels c >>
     Topology._add_cconnections c) t.
Proof.
  intros Hc.
  assert (Hq : keeps (fun t => raw_cfg t = c) (Topology._add_qchannels c)) by frame.
  assert (Hcc : keeps (fun t => raw_cfg t = c) (Topology._add_cchannels c)) by frame.
  erewrite bind_run; [|by destruct t].
  unfold bind, get. rewrite Hc.
  specialize (Hq t Hc).
  destruct (Topology._add_qchannels c t) as [[[]|e] t1]; [|done]. cbn in Hq. rewrite Hq.
  specialize (Hcc t1 Hq).
  destruct (Topology._add_cchannels c t1) as [[[]|e] t2]; [|done]. cbn in Hcc. rewrite Hcc.
  destruct (Topology._add_cconnections c t2) as [[[]|e] t3]; [|done].
  by destruct t3.
Qed.



(** ** The wiring of midpoints and routers *)

Lemma update_entity_map (nm : string) (f : node → node) (reg : registry) :
  update_entity nm f reg = map_nodes (fun n => if decide (name n = nm) then f n else n) reg.
Proof. reflexivity. Qed.

Lemma map_nodes_compose (f g : node → node) (reg : registry) :
  map_nodes g (map_nodes f reg) = map_nodes (fun n => g (f n)) reg.
Proof.
  unfold map_nodes. rewrite map_map. apply map_ext. intros [ty l].
  by rewrite map_map.
Qed.

Lemma map_nodes_ext (f g : node → node) (reg : registry) :
  (∀ n, f n = g n) → map_nodes f reg = map_nodes g reg.
Proof.
  intros H. unfold map_nodes. apply map_ext. intros [ty l]. f_equal.
  by apply map_ext.
Qed.

Lemma map_nodes_id (reg : registry) : map_nodes (fun n => n) reg = reg.
Proof.
  unfold map_nodes. induction reg as [|[ty l] reg IH]; [done|].
  cbn. by rewrite map_id, IH.
Qed.

Lemma map_nodes_ext_in (f g : node → node) (reg : registry) :
  (∀ n, n ∈ all_nodes reg → f n = g n) → map_nodes f reg = map_nodes g reg.
Proof.
  intros H. unfold map_nodes. apply map_ext_in. intros [ty l] Hin. f_equal.
  apply map_ext_in. intros n Hn. apply H. unfold all_nodes.
  apply list_elem_of_In, in_flat_map. by exists (ty, l).
Qed.

(** A name that resolves to nothing is the name of no node object. *)
Lemma unresolved_name (reg : registry) (tl : list string) (nm : string) (n : node) :
  get_entity_by_name reg tl nm = None → n ∈ all_nodes reg → name n ≠ nm.
Proof.
  unfold get_entity_by_name. intros E Hn.
  destruct (List.find _ _) eqn:Ef; [done|].
  apply list_elem_of_In in Hn. apply (find_none _ _ Ef) in Hn.
  by apply bool_decide_eq_false in Hn.
Qed.

(** One entry of the map, whether its router names resolve or not: the
    registry afterwards is the one in which the nodes of these names are
    updated. *)
Lemma wire_entry_run (bsm r0 r1 : string) (tl : list string) (reg : registry) :
  r0 ∉ tl → r1 ∉ tl →
  (do reg <- get;
   let e0 := get_entity_by_name reg tl r0 in
   let e1 := get_entity_by_name reg tl r1 in
   match e0 with
   | Some (NodeEntity _) => modify (update_entity r0 (add_bsm_node bsm r1))
   | Some (OtherEntity _) => raise (AttributeError "add_bsm_node")
   | None => ret tt
   end >>
   match e1 with
   | Some (NodeEntity _) => modify (update_entity r1 (add_bsm_node bsm r0))
   | Some (OtherEntity _) => raise (AttributeError "add_bsm_node")
   | None => ret tt
   end) reg
  = (Return tt, map_nodes (wire_entry bsm r0 r1) reg).
Proof.
  intros H0 H1. rewrite bind_get_run. cbn zeta.
  pose proof (get_entity_by_name_not_other reg tl r0) as N0.
  pose proof (get_entity_by_name_not_other reg tl r1) as N1.
  destruct (get_entity_by_name reg tl r0) as [[n0|x0]|] eqn:E0;
    [|by destruct (N0 x0 H0)|];
    (destruct (get_entity_by_name reg tl r1) as [[n1|x1]|] eqn:E1;
       [|by destruct (N1 x1 H1)|]);
    unfold bind, modify, ret; cbn [fst snd]; f_equal;
    rewrite ?update_entity_map, ?map_nodes_compose.
  - reflexivity.
  - apply map_nodes_ext_in. intros n Hn. unfold wire_entry.
    pose proof (unresolved_name _ _ _ n E1 Hn) as Hne.
    destruct (decide (name n = r0)); cbn; by rewrite decide_False.
  - apply map_nodes_ext_in. intros n Hn. unfold wire_entry.
    pose proof (unresolved_name _ _ _ n E0 Hn) as Hne.
    by rewrite (decide_False (P := name n = r0)).
  - rewrite <- (map_nodes_id reg) at 1.
    apply map_nodes_ext_in. intros n Hn. unfold wire_entry.
    pose proof (unresolved_name _ _ _ n E0 Hn) as Hne0.
    pose proof (unresolved_name _ _ _ n E1 Hn) as Hne1.
    rewrite (decide_False (P := name n = r0)) by done. by rewrite decide_False.
Qed.

Lemma name_wire_entry (bsm r0 r1 : string) (n : node) :
  name (wire_entry bsm r0 r1 n) = name n.
Proof. unfold wire_entry. by repeat case_decide. Qed.

Lemma name_wired (m : list (string * list string)) (n : node) : name (wired m n) = name n.
Proof.
  unfold wired. revert n. induction m as [|[bsm rs] m IH]; intros n; [done|].
  cbn [fold_left]. rewrite IH. destruct rs as [|r0 [|r1 [|? ?]]]; try done.
  apply name_wire_entry.
Qed.

Lemma add_bsm_node_to_router_wired (m : list (string * list string))
    (tl : list string) (reg : registry) :
  (∀ bsm routers, (bsm, routers) ∈ m → length routers = 2%nat) →
  (∀ bsm routers r, (bsm, routers) ∈ m → r ∈ routers → r ∉ tl) →
  BsmNetworkImpl._add_bsm_node_to_router m tl reg = (Return tt, map_nodes (wired m) reg).
Proof.
  unfold BsmNetworkImpl._add_bsm_node_to_router.
  revert reg. induction m as [|[bsm rs] m IH]; intros reg Htwo Htl.
  - cbn. unfold ret. by rewrite map_nodes_id.
  - pose proof (Htwo bsm rs (list_elem_of_here _ _)) as Hlen.
    destruct rs as [|r0 [|r1 [|? ?]]]; try done.
    rewrite for_each_cons. erewrite bind_run; cycle 1.
    { apply wire_entry_run; eapply Htl;
        [apply list_elem_of_here|apply list_elem_of_here
        |apply list_elem_of_here|apply list_elem_of_further, list_elem_of_here]. }
    rewrite IH; cycle 1.
    { intros ? ? ?. eapply Htwo. by apply list_elem_of_further. }
    { intros ? ? ? ?. eapply Htl. by apply list_elem_of_further. }
    f_equal. rewrite map_nodes_compose.
    apply map_nodes_ext. intros n. unfold wired at 2. cbn [fold_left].
    by fold (wired m (wire_entry bsm r0 r1 n)).
Qed.

Lemma dict_get_set {V} (k k' : string) (v : V) (d : list (string * V)) :
  dict_get k (dict_set k' v d) = if decide (k = k') then Some v else dict_get k d.
Proof.
  induction d as [|[k0 v0] d IH]; cbn [dict_set dict_get].
  - destruct (decide (k' = k)), (decide (k = k')); congruence.
  - destruct (decide (k0 = k')) as [->|Hne]; cbn [dict_get].
    + destruct (decide (k' = k)), (decide (k = k')); congruence.
    + destruct (decide (k0 = k)) as [->|Hk].
      * by rewrite decide_False by done.
      * exact IH.
Qed.

(** What one entry does to the midpoint a node knows under [x]. *)
Lemma wire_entry_towards (bsm r0 r1 : string) (n : node) (x : string) :
  dict_get x (map_to_middle_node (wire_entry bsm r0 r1 n))
  = if decide (links_node (name n) x (bsm, [r0; r1])) then Some bsm
    else dict_get x (map_to_middle_node n).
Proof.
  assert (Hl : links_node (name n) x (bsm, [r0; r1])
               ↔ (name n = r0 ∧ x = r1) ∨ (name n = r1 ∧ x = r0)).
  { unfold links_node. cbn [snd]. split.
    - intros [[= -> ->]|[= -> ->]]; auto.
    - intros [[-> ->]|[-> ->]]; auto. }
  unfold wire_entry.
  destruct (decide (name n = r0)) as [E0|E0];
    [destruct (decide (name (add_bsm_node bsm r1 n) = r1)) as [E1|E1]
    |destruct (decide (name n = r1)) as [E1|E1]];
    cbn in E1 |- *; rewrite ?dict_get_set.
  - destruct (decide (x = r0)) as [->|Hx0].
    + rewrite decide_True; [done|]. apply Hl. auto.
    + destruct (decide (x = r1)) as [->|Hx1].
      * rewrite decide_True; [done|]. apply Hl. auto.
      * rewrite decide_False; [done|]. rewrite Hl. intros [[_ ?]|[_ ?]]; done.
  - destruct (decide (x = r1)) as [->|Hx1].
    + rewrite decide_True; [done|]. apply Hl. auto.
    + rewrite decide_False; [done|]. rewrite Hl. intros [[_ ?]|[? _]]; done.
  - destruct (decide (x = r0)) as [->|Hx0].
    + rewrite decide_True; [done|]. apply Hl. auto.
    + rewrite decide_False; [done|]. rewrite Hl. intros [[? _]|[_ ?]]; done.
  - rewrite decide_False; [done|]. rewrite Hl. intros [[? _]|[? _]]; done.
Qed.

Lemma wired_towards (m : list (string * list string)) (n : node) (x : string) :
  dict_get x (map_to_middle_node (wired m n))
  = midpoint_towards m (name n) x (dict_get x (map_to_middle_node n)).
Proof.
  unfold wired, midpoint_towards. revert n.
  induction m as [|[b rs] m IH]; intros n; [done|].
  cbn [fold_left]. rewrite IH. clear IH.
  assert (Hname : name (match rs with
                        | [r0; r1] => wire_entry b r0 r1 n
                        | _ => n
                        end) = name n).
  { destruct rs as [|? [|? [|? ?]]]; try done. apply name_wire_entry. }
  rewrite Hname, (filter_cons _ (b, rs)).
  assert (Hstep : dict_get x (map_to_middle_node
                                (match rs with
                                 | [r0; r1] => wire_entry b r0 r1 n
                                 | _ => n
                                 end))
                  = if decide (links_node (name n) x (b, rs)) then Some b
                    else dict_get x (map_to_middle_node n)).
  { destruct rs as [|r0 [|r1 [|? ?]]]; try apply wire_entry_towards;
      (rewrite decide_False; [done|]); unfold links_node; cbn [snd];
      intros [?|?]; discriminate. }
  rewrite Hstep.
  destruct (filter (links_node (name n) x) m) as [|e l] eqn:Ef.
  - by destruct (decide (links_node (name n) x (b, rs))).
  - destruct (decide (links_node (name n) x (b, rs))); [|done].
    rewrite last_cons_cons. destruct (last (e :: l)) eqn:El; [done|].
    by apply last_None in El.
Qed.

Lemma filter_none {A} (P : A → Prop) `{∀ x, Decision (P x)} (l : list A) :
  (∀ x, x ∈ l → ¬ P x) → filter P l = [].
Proof.
  induction l as [|a l IH]; intros Hl; [done|].
  rewrite filter_cons, decide_False by apply Hl, list_elem_of_here.
  apply IH. intros y Hy. apply Hl. by apply list_elem_of_further.
Qed.



(** Two midpoints between A and B: each node knows the later one only. *)
Lemma wiring_replaces_example :
  (BsmNetworkImpl._add_bsm_node_to_router
     [("m1", ["A"; "B"]); ("m2", ["B"; "A"])] [] chain_registry).2
  = [("QuantumRouter",
      [add_bsm_node "m2" "B" (static_router "A");
       add_bsm_node "m2" "A" (static_router "B");
       static_router "C"])].
Proof. reflexivity. Qed.

(** ** The expansion of all the quantum connections *)

Lemma matching_delays_expanded ar (c : config) (q q' : qconnection) (d : Z) :
  matching_delays ar c q ≠ [] → matching_delays ar (expanded q' d c) q ≠ [].
Proof.
  unfold matching_delays. cbn [cfg_cchannels cfg_cconnections expanded].
  rewrite filter_app, map_app. intros H E. apply H.
  apply app_eq_nil in E as [E1 E2]. apply app_eq_nil in E1 as [E1 _].
  by rewrite E1, E2.
Qed.

Lemma add_qconnections_from ar dijkstra_path init (qs : list qconnection) (c : config) :
  (∀ q, q ∈ qs → qcn_type q = MEET_IN_THE_MID ∧ matching_delays ar c q ≠ []) →
  for_each qs (Topology.expand_qconnection ar (BsmNetworkImpl.impl dijkstra_path init)) c
  = (Return tt, expand_all ar qs c).
Proof.
  revert c. induction qs as [|q qs IH]; intros c H; [done|].
  destruct (H q (list_elem_of_here _ _)) as [Hty Hm].
  rewrite for_each_cons. unfold expand_all. cbn [fold_left].
  destruct (derived_delay ar c q) as [d|] eqn:E;
    [|by apply derived_delay_None in E].
  erewrite bind_run; cycle 1.
  { rewrite expand_qconnection_spec, E.
    cbn [impl_handle_qconnection BsmNetworkImpl.impl].
    by apply handle_qconnection_meet. }
  apply IH. intros q' Hq'. destruct (H q' (list_elem_of_further _ _ _ Hq')) as [? ?].
  split; [done|]. by apply matching_delays_expanded.
Qed.

Lemma expand_all_shape ar (qs : list qconnection) (c : config) :
  (∀ q, q ∈ qs → matching_delays ar c q ≠ []) →
  let c' := expand_all ar qs c in
  cfg_nodes c' = cfg_nodes c ++ map midpoint_decl qs
  ∧ default [] (cfg_qchannels c')
    = default [] (cfg_qchannels c) ++ flat_map derived_qchannels qs
  ∧ (∃ derived, cfg_cchannels c' = cfg_cchannels c ++ derived
                ∧ length derived = (4 * length qs)%nat
                ∧ ∀ cc, cc ∈ derived → cch_distance cc ≠ None ∧ cch_delay cc ≠ None)
  ∧ cfg_qconnections c' = cfg_qconnections c
  ∧ cfg_cconnections c' = cfg_cconnections c
  ∧ cfg_templates c' = cfg_templates c.
Proof.
  revert c. induction qs as [|q qs IH]; intros c H; cbn zeta.
  - cbn. rewrite !app_nil_r. repeat split; try done. exists [].
    split; [by rewrite app_nil_r|]. split; [done|]. by intros ? ?%elem_of_nil.
  - unfold expand_all. cbn [fold_left].
    destruct (derived_delay ar c q) as [d|] eqn:E;
      [|apply derived_delay_None in E; by destruct (H q (list_elem_of_here _ _))].
    fold (expand_all ar qs (expanded q d c)).
    destruct (IH (expanded q d c)) as (Hn & Hq & (derived & Hc & Hlen & Hd) & Hqc & Hcc & Ht).
    { intros q' Hq'. apply matching_delays_expanded, H. by apply list_elem_of_further. }
    rewrite Hn, Hq, Hc, Hqc, Hcc, Ht. cbn [expanded cfg_nodes cfg_qchannels cfg_cchannels
      cfg_qconnections cfg_cconnections cfg_templates map flat_map default from_option id].
    rewrite <- !(assoc_L (++)). cbn [app].
    repeat split; try done.
    eexists. split; [reflexivity|]. split; [cbn [length]; rewrite Hlen; cbn; lia|].
    intros cc Hin. repeat (apply elem_of_cons in Hin as [->|Hin]; [by split|]).
    by apply Hd.
Qed.

(** When every quantum connection of the config is of the kind
    "meet_in_the_middle" and some classical channel or connection of the
    config matches it, [_add_qconnections] of the BSM family returns. It
    appends one midpoint declaration per connection, in the order of the
    connections, two quantum channels per connection after those the
    config had, and four classical channels per connection, each with a
    distance and a delay; the declarations that were there keep their
    places, and the connections and the templates stay as they were. *)
Theorem add_qconnections_expands (ar : arithmetic)
    (dijkstra_path : Graph → string → string → outcome (list string))
    (init : routing_protocol → routing_protocol) (c : config) :
  (∀ q, q ∈ cfg_qconnections c →
        qcn_type q = MEET_IN_THE_MID ∧ matching_delays ar c q ≠ []) →
  ∃ c',
    Topology._add_qconnections ar (BsmNetworkImpl.impl dijkstra_path init) c
    = (Return tt, c')
    ∧ cfg_nodes c' = cfg_nodes c ++ map midpoint_decl (cfg_qconnections c)
    ∧ default [] (cfg_qchannels c')
      = default [] (cfg_qchannels c) ++ flat_map derived_qchannels (cfg_qconnections c)
    ∧ (∃ derived, cfg_cchannels c' = cfg_cchannels c ++ derived
                  ∧ length derived = (4 * length (cfg_qconnections c))%nat
                  ∧ ∀ cc, cc ∈ derived → cch_distance cc ≠ None ∧ cch_delay cc ≠ None)
    ∧ cfg_qconnections c' = cfg_qconnections c
    ∧ cfg_cconnections c' = cfg_cconnections c
    ∧ cfg_templates c' = cfg_templates c.
Proof.
  intros H. exists (expand_all ar (cfg_qconnections c) c). split.
  - unfold Topology._add_qconnections. rewrite bind_get_run.
    by apply add_qconnections_from.
  - apply expand_all_shape. intros q Hq. by apply H.
Qed.

(** The chain A, B, C: two midpoints, four quantum channels, eight
    classical channels. *)
Lemma add_qconnections_expands_witness :
  ∃ c', Topology._add_qconnections binary64 bsm_impl_static chain_config
        = (Return tt, c')
        ∧ map nd_name (cfg_nodes c') = ["A"; "B"; "C"; "BSM.A.B.auto"; "BSM.B.C.auto"]
        ∧ map qch_name (default [] (cfg_qchannels c'))
          = [Some "QC.A.BSM.A.B.auto"; Some "QC.B.BSM.A.B.auto";
             Some "QC.B.BSM.B.C.auto"; Some "QC.C.BSM.B.C.auto"]
        ∧ length (cfg_cchannels c') = 8%nat.
Proof.
  destruct (add_qconnections_expands binary64 enumerate_shortest (fun r => r)
              chain_config) as (c' & Hrun & Hn & Hq & (derived & Hc & Hlen & _) & _).
  - intros q Hin. each_member Hin; (split; [reflexivity|discriminate]).
  - exists c'. split; [exact Hrun|]. rewrite Hn, Hq, Hc, length_app, Hlen.
    repeat split; reflexivity.
Defined.
